(** * Selective face blurring: a shallow embedding of [deface/main.py]

    The development follows the Python source function by function:
    the geometry helpers ([calculate_containment_ratio], [boxes_intersect]),
    the anonymizer ([scale_bb], [draw_det], [anonymize_frame]), the
    debugging overlay ([add_debugging_overlay]), the body of the frame loop
    of [video_detect], the entry point
    [process_video_with_selective_blurring] and the batch driver [main].

    Numbers.  Coordinates, scores and ratios are Python/numpy floats in the
    source; they are embedded as exact rationals ([Q]), so rounding error,
    overflow and NaN are outside the model: where a double computation lands
    within a rounding error of a half, [scale_bb] can round to the other
    neighbour than the exact value does.  Pixel coordinates handed to the
    drawing code are Python ints and are embedded as [Z]; OpenCV takes them
    as C [int]s and rejects the others.

    Exceptions.  A Python exception is a value of [exn]; code that can raise
    lives in the error monad [result]. *)

From Stdlib Require Import String Ascii ZArith QArith Qround Lqa Lia Bool List.
From Stdlib Require Import Permutation DecimalString.
Import ListNotations.

Open Scope Z_scope.

(** ** Python results *)

Inductive exn : Type :=
| FileNotFoundError
| ValueError
| ZeroDivisionError
| UnboundLocalError
| IndexError
| KeyError
| OSError
| TypeError
| Cv2Error.

Inductive result (A : Type) : Type :=
| Ok (a : A)
| Raise (e : exn).

Arguments Ok {A} a.
Arguments Raise {A} e.

Definition bind {A B : Type} (c : result A) (k : A -> result B) : result B :=
  match c with
  | Ok a => k a
  | Raise e => Raise e
  end.

Declare Scope py_scope.
Delimit Scope py_scope with py.
Notation "x <- c ;; k" := (bind c (fun x => k))
  (at level 61, c at next level, right associativity) : py_scope.
Notation "' p <- c ;; k" := (bind c (fun x => let p := x in k))
  (at level 61, p pattern, c at next level, right associativity) : py_scope.
Open Scope py_scope.

(** [for x in l: s = body(x, s)] with exceptions. *)
Fixpoint for_each {A S : Type} (l : list A) (body : A -> S -> result S) (s : S)
  : result S :=
  match l with
  | [] => Ok s
  | a :: l' => s' <- body a s ;; for_each l' body s'
  end.

(** A list comprehension [[x for x in l if p(x)]] whose test can raise. *)
Fixpoint filterM {A : Type} (p : A -> result bool) (l : list A)
  : result (list A) :=
  match l with
  | [] => Ok []
  | a :: l' =>
      b <- p a ;;
      r <- filterM p l' ;;
      Ok (if b then a :: r else r)
  end.

(** A list comprehension [[f(x) for x in l]] whose body can raise. *)
Fixpoint mapM {A B : Type} (f : A -> result B) (l : list A) : result (list B) :=
  match l with
  | [] => Ok []
  | a :: l' => b <- f a ;; r <- mapM f l' ;; Ok (b :: r)
  end.

(** ** Float comparisons and built-ins, over [Q] *)

Definition Qltb (x y : Q) : bool := negb (Qle_bool y x).

(** Python's [max(a, b)] returns [a] unless [b > a]; [min(a, b)] returns [a]
    unless [b < a]. *)
Definition py_max (a b : Q) : Q := if Qltb a b then b else a.
Definition py_min (a b : Q) : Q := if Qltb b a then b else a.

(** [a / b] on floats raises [ZeroDivisionError] when [b] is zero. *)
Definition py_div (a b : Q) : result Q :=
  if Qeq_bool b 0 then Raise ZeroDivisionError else Ok (a / b)%Q.

(** ** Geometry utilities *)

(** A box given by two corners, [[x1, y1, x2, y2]]. *)
Record BBox : Type := mkBBox { bx1 : Q; by1 : Q; bx2 : Q; by2 : Q }.

(** A box given by a corner and a size, [[x, y, w, h]]. *)
Record XYWH : Type := mkXYWH { bx : Q; by_ : Q; bw : Q; bh : Q }.

(** [calculate_containment_ratio(det_box, tracking_box)] (main.py 209-232). *)
Definition calculate_containment_ratio (det_box : XYWH) (tracking_box : BBox)
  : result Q :=
  let det_x1 := bx det_box in
  let det_y1 := by_ det_box in
  let det_x2 := (det_x1 + bw det_box)%Q in
  let det_y2 := (det_y1 + bh det_box)%Q in
  let track_x1 := bx1 tracking_box in
  let track_y1 := by1 tracking_box in
  let track_x2 := bx2 tracking_box in
  let track_y2 := by2 tracking_box in
  let x1 := py_max det_x1 track_x1 in
  let y1 := py_max det_y1 track_y1 in
  let x2 := py_min det_x2 track_x2 in
  let y2 := py_min det_y2 track_y2 in
  let intersection_area := (py_max 0 (x2 - x1) * py_max 0 (y2 - y1))%Q in
  let det_area := ((det_x2 - det_x1) * (det_y2 - det_y1))%Q in
  if Qltb 0 det_area then py_div intersection_area det_area else Ok 0%Q.

(** [boxes_intersect(box1, box2)] (main.py 234-245).  [box1] is any sequence;
    the coordinates of the first box are bound only under [len(box1) == 4],
    and inside that test the inner conditional always takes the
    corner-plus-size branch. *)
Definition boxes_intersect (box1 : list Q) (box2 : BBox) : result bool :=
  match box1 with
  | [b0; b1; b2; b3] =>
      let x1_1 := b0 in
      let y1_1 := b1 in
      let x2_1 := (x1_1 + b2)%Q in
      let y2_1 := (y1_1 + b3)%Q in
      let x1_2 := bx1 box2 in
      let y1_2 := by1 box2 in
      let x2_2 := bx2 box2 in
      let y2_2 := by2 box2 in
      Ok (negb (Qltb x2_1 x1_2 || Qltb x2_2 x1_1
                || Qltb y2_1 y1_2 || Qltb y2_2 y1_1))
  | _ => Raise UnboundLocalError
  end.

(** Two corner-format rectangles share at least one point. *)
Definition rect_share_point (a b : BBox) : Prop :=
  exists px py : Q,
    (bx1 a <= px /\ px <= bx2 a /\ by1 a <= py /\ py <= by2 a /\
     bx1 b <= px /\ px <= bx2 b /\ by1 b <= py /\ py <= by2 b)%Q.

(** ** Frame buffers *)

(** A pixel is three channel values; a frame is a list of rows of pixels
    (a numpy array of shape [(H, W, 3)]). *)
Definition Pixel : Type := (Z * Z * Z)%type.
Definition Frame : Type := list (list Pixel).

(** [frame.shape[0]] and [frame.shape[1]]. *)
Definition frame_height (f : Frame) : Z := Z.of_nat (length f).
Definition frame_width (f : Frame) : Z :=
  match f with
  | [] => 0
  | row :: _ => Z.of_nat (length row)
  end.

(** All rows of an array have the same length. *)
Definition frame_rect (f : Frame) : Prop :=
  Forall (fun row => Z.of_nat (length row) = frame_width f) f.

(** The range of a C [int].  OpenCV's drawing functions take the coordinates
    of a point as C [int]s: the binding raises [cv2.error] on a Python
    integer outside this range.  The rows and columns of an OpenCV image are
    C [int]s as well. *)
Definition INT_MIN : Z := -2147483648.
Definition INT_MAX : Z := 2147483647.

Definition fits_int (z : Z) : bool := (INT_MIN <=? z) && (z <=? INT_MAX).

Definition point_fits (pt : Z * Z) : bool :=
  fits_int (fst pt) && fits_int (snd pt).

(** An image as OpenCV takes it: a rectangular array whose two dimensions
    fit a C [int]. *)
Definition frame_wf (f : Frame) : Prop :=
  frame_rect f /\ frame_height f <= INT_MAX /\ frame_width f <= INT_MAX.

Fixpoint mapi_from {A B : Type} (i : Z) (f : Z -> A -> B) (l : list A) : list B :=
  match l with
  | [] => []
  | a :: l' => f i a :: mapi_from (i + 1) f l'
  end.

Definition mapi {A B : Type} (f : Z -> A -> B) (l : list A) : list B :=
  mapi_from 0 f l.

(** numpy indexing [a[i]]: a negative index counts from the end, an index
    outside [[-n, n)] raises [IndexError]. *)
Definition np_index {A : Type} (l : list A) (i : Z) : result A :=
  let n := Z.of_nat (length l) in
  let j := if i <? 0 then i + n else i in
  if (0 <=? j) && (j <? n) then
    match nth_error l (Z.to_nat j) with
    | Some a => Ok a
    | None => Raise IndexError
    end
  else Raise IndexError.

(** [frame[y, x]]. *)
Definition frame_get (f : Frame) (y x : Z) : result Pixel :=
  row <- np_index f y ;; np_index row x.

(** [range(start, stop, step)]: [ValueError] on a zero step, otherwise the
    arithmetic progression from [start] that stays on the near side of
    [stop]. *)
Definition range_len (start stop step : Z) : Z :=
  if 0 <? step then Z.max 0 ((stop - start + step - 1) / step)
  else Z.max 0 ((start - stop - step - 1) / (- step)).

Definition py_range (start stop step : Z) : result (list Z) :=
  if step =? 0 then Raise ValueError
  else Ok (map (fun k => start + Z.of_nat k * step)
               (seq 0 (Z.to_nat (range_len start stop step)))).

Definition in_span (a b i : Z) : bool := (Z.min a b <=? i) && (i <=? Z.max a b).

(** The pixels after a filled rectangle: every pixel of the frame lying in
    the rectangle spanned by the two corners (both included, in either
    order) takes [color]; the part outside the frame is clipped. *)
Definition fill_span (frame : Frame) (pt1 pt2 : Z * Z) (color : Pixel)
  : Frame :=
  mapi (fun y row =>
          mapi (fun x p =>
                  if in_span (snd pt1) (snd pt2) y && in_span (fst pt1) (fst pt2) x
                  then color else p) row) frame.

(** [cv2.rectangle(frame, pt1, pt2, color, -1)]: [cv2.error] when a
    coordinate of a corner does not fit a C [int], the filled rectangle
    otherwise. *)
Definition cv2_rectangle_filled (frame : Frame) (pt1 pt2 : Z * Z) (color : Pixel)
  : result Frame :=
  if point_fits pt1 && point_fits pt2
  then Ok (fill_span frame pt1 pt2 color)
  else Raise Cv2Error.

(** The pixels after a drawing call that sets a selection of pixels to one
    colour. *)
Definition paint_where (sel : Z -> Z -> bool) (color : Pixel) (frame : Frame)
  : Frame :=
  mapi (fun y row => mapi (fun x p => if sel y x then color else p) row) frame.

(** The bound of a slice [a[i:...]] or [a[...:i]] on an axis of length [n]:
    a negative bound counts from the end, and both are clamped to the
    axis. *)
Definition np_slice_bound (n i : Z) : Z :=
  if i <? 0 then Z.max 0 (i + n) else Z.min i n.

(** [frame[r0:r1, c0:c1] = block] for a block of [bh] rows and [bw] columns
    given by its pixels.  numpy broadcasts the block to the shape of the
    slice and raises [ValueError] unless each of its two dimensions equals
    that of the slice or is 1. *)
Definition np_set_block (frame : Frame) (r0 r1 c0 c1 : Z) (bh bw : Z)
    (block : Z -> Z -> Pixel) : result Frame :=
  let h := frame_height frame in
  let w := frame_width frame in
  let rs := np_slice_bound h r0 in
  let cs := np_slice_bound w c0 in
  let sh := Z.max 0 (np_slice_bound h r1 - rs) in
  let sw := Z.max 0 (np_slice_bound w c1 - cs) in
  if ((bh =? sh) || (bh =? 1)) && ((bw =? sw) || (bw =? 1)) then
    Ok (mapi (fun y row =>
                mapi (fun x p =>
                        if (rs <=? y) && (y <? rs + sh)
                           && (cs <=? x) && (x <? cs + sw)
                        then block (if bh =? sh then y - rs else 0)
                                   (if bw =? sw then x - cs else 0)
                        else p) row) frame)
  else Raise ValueError.

(** ** Anonymizer *)

(** The image operations of OpenCV and scikit-image that the anonymizer and
    the frame loop call without the source defining them. *)
Class Imaging : Type := {
  ReplaceImg : Type;
  (** the ['blur'] branch of [draw_det]: [cv2.blur] of the region, copied
      back through the ellipse mask when [ellipse] is set *)
  blur_region : Frame -> Z -> Z -> Z -> Z -> bool -> result Frame;
  (** the ['img'] branch: resize the replacement image and paste it *)
  paste_image : option ReplaceImg -> Frame -> Z -> Z -> Z -> Z -> result Frame;
  (** [cv2.putText] of the score at [(x1, y1 - 20)] *)
  put_score : Frame -> Q -> Z -> Z -> Frame;
  (** [cv2.cvtColor(frame, cv2.COLOR_RGB2BGR)] *)
  cvt_rgb2bgr : Frame -> Frame;
  (** the pixels [(y, x)] on the outline that [cv2.rectangle] draws between
      two corners with a positive thickness *)
  on_outline : Z * Z -> Z * Z -> Z -> Z -> Z -> bool;
  (** [cv2.getTextSize(text, FONT_HERSHEY_SIMPLEX, scale, thickness)[0]],
      width first *)
  get_text_size : string -> Q -> Z -> Z * Z;
  (** the pixels [(y, x)] that [cv2.putText] sets for a text, its origin,
      scale and thickness in the font [FONT_HERSHEY_SIMPLEX] *)
  on_text : string -> Z * Z -> Q -> Z -> Z -> Z -> bool;
  (** [f'{x:.3f}'] *)
  format_3f : Q -> string
}.

(** float to int conversion of [astype(int)]: truncation toward zero. *)
Definition Qtrunc (q : Q) : Z := Z.quot (Qnum q) (Zpos (Qden q)).

(** [np.round]: to the nearest integer, halves to the even neighbour. *)
Definition np_round (q : Q) : Z :=
  let f := Qfloor q in
  let r := (q - inject_Z f)%Q in
  if Qltb r (1 # 2) then f
  else if Qltb (1 # 2) r then f + 1
  else if Z.even f then f else f + 1.

(** [scale_bb(x1, y1, x2, y2, mask_scale)] (main.py 312-319), in exact
    arithmetic.  The source computes in doubles: there [1.3 - 1.0] is
    [0.30000000000000004], and a coordinate that is exactly a half here can
    fall a rounding error to either side of it there and be rounded to the
    other neighbour. *)
Definition scale_bb (x1 y1 x2 y2 : Z) (mask_scale : Q) : Z * Z * Z * Z :=
  let s := (mask_scale - 1)%Q in
  let h := y2 - y1 in
  let w := x2 - x1 in
  let y1' := (inject_Z y1 - inject_Z h * s)%Q in
  let y2' := (inject_Z y2 + inject_Z h * s)%Q in
  let x1' := (inject_Z x1 - inject_Z w * s)%Q in
  let x2' := (inject_Z x2 + inject_Z w * s)%Q in
  (np_round x1', np_round y1', np_round x2', np_round y2').

Section Anonymizer.
Context {IM : Imaging}.

(** One cell of the mosaic: the body of the inner loop (main.py 356-359). *)
Definition mosaic_cell (x2 y2 mosaicsize y x : Z) (frame : Frame) : result Frame :=
  let pt1 := (x, y) in
  let pt2 := (Z.min x2 (x + mosaicsize - 1), Z.min y2 (y + mosaicsize - 1)) in
  color <- frame_get frame y x ;;
  cv2_rectangle_filled frame pt1 pt2 color.

(** The two nested loops of the ['mosaic'] branch (main.py 354-359). *)
Definition mosaic_loops (x1 y1 x2 y2 mosaicsize : Z) (frame : Frame)
  : result Frame :=
  ys <- py_range y1 y2 mosaicsize ;;
  for_each ys
    (fun y fr =>
       xs <- py_range x1 x2 mosaicsize ;;
       for_each xs (mosaic_cell x2 y2 mosaicsize y) fr)
    frame.

(** [draw_det] (main.py 322-366).  The frame is mutated in place in the
    source; here the new frame is returned. *)
Definition draw_det (frame : Frame) (score : Q) (det_idx : nat)
    (x1 y1 x2 y2 : Z) (replacewith : string) (ellipse draw_scores : bool)
    (ovcolor : Pixel) (replaceimg : option ReplaceImg) (mosaicsize : Z)
  : result Frame :=
  frame1 <-
    (if String.eqb replacewith "solid" then
       cv2_rectangle_filled frame (x1, y1) (x2, y2) ovcolor
     else if String.eqb replacewith "blur" then
       blur_region frame x1 y1 x2 y2 ellipse
     else if String.eqb replacewith "img" then
       paste_image replaceimg frame x1 y1 x2 y2
     else if String.eqb replacewith "mosaic" then
       mosaic_loops x1 y1 x2 y2 mosaicsize frame
     else Ok frame) ;;
  if draw_scores then
    if point_fits (x1, y1 - 20) then Ok (put_score frame1 score x1 y1)
    else Raise Cv2Error
  else Ok frame1.

End Anonymizer.

(** A face detection: a row [[x1, y1, x2, y2, score]] of the detector. *)
Record Det : Type := mkDet { fx1 : Q; fy1 : Q; fx2 : Q; fy2 : Q; fscore : Q }.

Section AnonymizeFrame.
Context {IM : Imaging}.

(** The body of the loop of [anonymize_frame] (main.py 373-387); the
    overlay colour is the default [(0, 0, 0)] of [draw_det]. *)
Definition anonymize_det (mask_scale : Q) (replacewith : string)
    (ellipse draw_scores : bool) (replaceimg : option ReplaceImg)
    (mosaicsize : Z) (idet : nat * Det) (frame : Frame) : result Frame :=
  let det := snd idet in
  let score := fscore det in
  let '(x1, y1, x2, y2) :=
    scale_bb (Qtrunc (fx1 det)) (Qtrunc (fy1 det))
             (Qtrunc (fx2 det)) (Qtrunc (fy2 det)) mask_scale in
  let y1 := Z.max 0 y1 in
  let y2 := Z.min (frame_height frame - 1) y2 in
  let x1 := Z.max 0 x1 in
  let x2 := Z.min (frame_width frame - 1) x2 in
  draw_det frame score (fst idet) x1 y1 x2 y2 replacewith ellipse draw_scores
           (0, 0, 0) replaceimg mosaicsize.

(** [anonymize_frame] (main.py 369-387). *)
Definition anonymize_frame (dets : list Det) (frame : Frame) (mask_scale : Q)
    (replacewith : string) (ellipse draw_scores : bool)
    (replaceimg : option ReplaceImg) (mosaicsize : Z) : result Frame :=
  for_each (combine (seq 0 (length dets)) dets)
    (anonymize_det mask_scale replacewith ellipse draw_scores replaceimg mosaicsize)
    frame.

End AnonymizeFrame.

(** ** Collaborators of the frame loop *)

(** A row of the person detector, [[x1, y1, x2, y2, conf, cls]]. *)
Record PersonDet : Type :=
  mkPersonDet { px1 : Q; py1 : Q; px2 : Q; py2 : Q; pconf : Q; pcls : Q }.

(** The detectors, the re-identification matcher and the tracker wrapper are
    imported by [main.py] from modules outside it ([deface.centerface],
    [ultralytics], [recognition], [tracking]); the frame loop is modelled over
    any behaviour of theirs.  A crop is an image cut out by the matcher. *)
Class Collaborators : Type := {
  Tracker : Type;
  Crop : Type;
  Embedding : Type;
  (** [centerface(frame, threshold=...)], detections only *)
  centerface : Frame -> Q -> list Det;
  (** [person_detector(frame, verbose=False)[0].boxes.data] *)
  person_detector : Frame -> list PersonDet;
  (** returns [(person_bbox, face_img, score, person_img)] *)
  find_person_in_frame :
    Frame -> list Embedding -> Q -> list PersonDet -> list Det ->
    option BBox * option Crop * option Q * option Crop;
  (** returns [(tracker, bbox)] *)
  init_face_tracker : Frame -> BBox -> Tracker * BBox;
  (** advances the tracker object in place and returns the box or [None] *)
  update_face_tracker : Frame -> Tracker -> BBox -> Tracker * option BBox;
  recover_tracking : Frame -> BBox -> list Det -> option BBox;
  (** [cv2.resize(crop, (width, height))]: the pixels, by row and column, of
      an image of the size asked for, or [None] when OpenCV raises
      [cv2.error], as it does on an empty crop *)
  resize_crop : Crop -> Z -> Z -> option (Z -> Z -> Pixel)
}.

(** ** The debugging overlay *)

Section Overlay.
Context {IM : Imaging} {CO : Collaborators}.

(** [cv2.rectangle(frame, pt1, pt2, color, thickness)] with a positive
    thickness. *)
Definition cv2_rectangle_outline (frame : Frame) (pt1 pt2 : Z * Z)
    (color : Pixel) (thickness : Z) : result Frame :=
  if point_fits pt1 && point_fits pt2
  then Ok (paint_where (on_outline pt1 pt2 thickness) color frame)
  else Raise Cv2Error.

(** [cv2.putText(frame, text, org, FONT_HERSHEY_SIMPLEX, scale, color,
    thickness)]. *)
Definition cv2_putText (frame : Frame) (text : string) (org : Z * Z)
    (font_scale : Q) (color : Pixel) (thickness : Z) : result Frame :=
  if point_fits org
  then Ok (paint_where (on_text text org font_scale thickness) color frame)
  else Raise Cv2Error.

Definition cv2_resize (crop : Crop) (width height : Z)
  : result (Z -> Z -> Pixel) :=
  match resize_crop crop width height with
  | Some img => Ok img
  | None => Raise Cv2Error
  end.

(** [f'{n}'] on a length. *)
Definition format_len (n : nat) : string :=
  NilEmpty.string_of_uint (Nat.to_uint n).

(** [f'{score:.3f}']: formatting [None] with a float format raises. *)
Definition format_score (score : option Q) : result string :=
  match score with
  | Some x => Ok (format_3f x)
  | None => Raise TypeError
  end.

(** [add_debugging_overlay] (main.py 247-310).  The frame is drawn on in
    place in the source; here the new frame is returned. *)
Definition add_debugging_overlay (current_frame : Frame)
    (dets_in_tracked : list Det) (tracked_bbox : BBox)
    (matched_face matched_person : option Crop) (match_score : option Q)
  : result Frame :=
  let x1 := Qtrunc (bx1 tracked_bbox) in
  let y1 := Qtrunc (by1 tracked_bbox) in
  let x2 := Qtrunc (bx2 tracked_bbox) in
  let y2 := Qtrunc (by2 tracked_bbox) in
  frame1 <- cv2_rectangle_outline current_frame (x1, y1) (x2, y2) (0, 255, 0) 2 ;;
  let text :=
    ("Faces in tracked region: " ++ format_len (length dets_in_tracked))%string in
  let font_scale := 7 # 10 in
  let thickness := 2 in
  let '(text_width, text_height) := get_text_size text font_scale thickness in
  frame2 <- cv2_rectangle_filled frame1 (10, 10)
              (text_width + 20, text_height + 20) (0, 0, 0) ;;
  frame3 <- cv2_putText frame2 text (15, text_height + 15) font_scale
              (0, 255, 0) thickness ;;
  match matched_face, matched_person with
  | Some face, Some person =>
      let person_display_size := (150, 300) in
      matched_person_resized <-
        cv2_resize person (fst person_display_size) (snd person_display_size) ;;
      let face_display_size := (100, 100) in
      matched_face_resized <-
        cv2_resize face (fst face_display_size) (snd face_display_size) ;;
      let y_offset := 10 in
      let x_offset := frame_width frame3 - fst person_display_size - 10 in
      frame4 <-
        np_set_block frame3
          y_offset (y_offset + snd person_display_size)
          x_offset (x_offset + fst person_display_size)
          (snd person_display_size) (fst person_display_size)
          matched_person_resized ;;
      let face_y_offset := y_offset + snd person_display_size + 10 in
      let face_x_offset :=
        x_offset + (fst person_display_size - fst face_display_size) / 2 in
      frame5 <-
        np_set_block frame4
          face_y_offset (face_y_offset + snd face_display_size)
          face_x_offset (face_x_offset + fst face_display_size)
          (snd face_display_size) (fst face_display_size)
          matched_face_resized ;;
      score_text <-
        (s <- format_score match_score ;; Ok ("Person Score: " ++ s)%string) ;;
      let text_size := get_text_size score_text (1 # 2) 1 in
      let text_x := x_offset + (fst person_display_size - fst text_size) / 2 in
      let text_y := face_y_offset + snd face_display_size + 20 in
      frame6 <-
        cv2_rectangle_filled frame5
          (text_x - 5, text_y - snd text_size - 5)
          (text_x + fst text_size + 5, text_y + 5) (0, 0, 0) ;;
      cv2_putText frame6 score_text (text_x, text_y) (1 # 2) (255, 255, 255) 1
  | _, _ => Ok frame3
  end.

End Overlay.

(** ** The frame loop of [video_detect] *)

Section FrameLoop.
Context {IM : Imaging} {CO : Collaborators}.

(** The arguments of [video_detect] that the loop reads. *)
Record Config : Type := mkConfig {
  threshold : Q;
  reid_threshold : Q;
  max_frames_without_faces : Z;
  disable_tracker_reset : bool;
  debugging : bool;
  replacewith : string;
  mask_scale : Q;
  ellipse : bool;
  draw_scores : bool;
  replaceimg : option ReplaceImg;
  mosaicsize : Z;
  enable_preview : bool;
  keep_audio : bool;
  target_embeddings : list Embedding;
  debug_start : option Q;
  debug_duration : option Q
}.

(** The variables that live across iterations (main.py 502-508).
    [prev_bbox] is [None] as long as the name is unbound.  [fwf_writes] is
    a ghost field: every value assigned to [frames_without_faces], most
    recent first. *)
Record TrackState : Type := mkTrackState {
  face_tracker : option Tracker;
  frames_without_faces : Z;
  target_person_found : bool;
  matched_face : option Crop;
  matched_person : option Crop;
  match_score : option Q;
  prev_bbox : option BBox;
  fwf_writes : list Z
}.

Definition initial_state : TrackState :=
  mkTrackState None 0 false None None None None [0].

Definition set_face_tracker (t : option Tracker) (st : TrackState) : TrackState :=
  mkTrackState t (frames_without_faces st) (target_person_found st)
    (matched_face st) (matched_person st) (match_score st) (prev_bbox st)
    (fwf_writes st).

Definition set_target_person_found (b : bool) (st : TrackState) : TrackState :=
  mkTrackState (face_tracker st) (frames_without_faces st) b
    (matched_face st) (matched_person st) (match_score st) (prev_bbox st)
    (fwf_writes st).

Definition set_prev_bbox (b : BBox) (st : TrackState) : TrackState :=
  mkTrackState (face_tracker st) (frames_without_faces st)
    (target_person_found st) (matched_face st) (matched_person st)
    (match_score st) (Some b) (fwf_writes st).

Definition set_match (face person : option Crop) (score : option Q)
    (st : TrackState) : TrackState :=
  mkTrackState (face_tracker st) (frames_without_faces st)
    (target_person_found st) face person score (prev_bbox st) (fwf_writes st).

Definition set_frames_without_faces (v : Z) (st : TrackState) : TrackState :=
  mkTrackState (face_tracker st) v (target_person_found st)
    (matched_face st) (matched_person st) (match_score st) (prev_bbox st)
    (v :: fwf_writes st).

(** Reading [prev_bbox] before it is bound raises. *)
Definition read_prev_bbox (st : TrackState) : result BBox :=
  match prev_bbox st with
  | Some b => Ok b
  | None => Raise UnboundLocalError
  end.

Definition CONTAINMENT_THRESHOLD : Q := 1 # 2.

(** [(det[0], det[1], det[2]-det[0], det[3]-det[1])]. *)
Definition det_xywh (det : Det) : XYWH :=
  mkXYWH (fx1 det) (fy1 det) (fx2 det - fx1 det)%Q (fy2 det - fy1 det)%Q.

Definition containment (tracked_bbox : BBox) (det : Det) : result Q :=
  calculate_containment_ratio (det_xywh det) tracked_bbox.

(** The two comprehension tests, [ratio > CONTAINMENT_THRESHOLD] and
    [ratio < CONTAINMENT_THRESHOLD]. *)
Definition in_region (tracked_bbox : BBox) (det : Det) : result bool :=
  r <- containment tracked_bbox det ;; Ok (Qltb CONTAINMENT_THRESHOLD r).

Definition below_region (tracked_bbox : BBox) (det : Det) : result bool :=
  r <- containment tracked_bbox det ;; Ok (Qltb r CONTAINMENT_THRESHOLD).

(** [np.array_equal] on two detection rows. *)
Definition det_eqb (a b : Det) : bool :=
  Qeq_bool (fx1 a) (fx1 b) && Qeq_bool (fy1 a) (fy1 b)
  && Qeq_bool (fx2 a) (fx2 b) && Qeq_bool (fy2 a) (fy2 b)
  && Qeq_bool (fscore a) (fscore b).

(** A [for] loop that keeps the first element passing the test and breaks. *)
Fixpoint find_first {A : Type} (p : A -> result bool) (l : list A)
  : result (option A) :=
  match l with
  | [] => Ok None
  | a :: l' => b <- p a ;; if b then Ok (Some a) else find_first p l'
  end.

(** Step 2 (main.py 523-548): target acquisition.  Returns the state and
    the person detections when the detector ran.  With [debugging] set the
    score of the match is printed with a float format. *)
Definition acquire (cfg : Config) (st : TrackState) (current_frame : Frame)
    (dets : list Det) : result (TrackState * option (list PersonDet)) :=
  if (negb (target_person_found st)
      || match face_tracker st with None => true | Some _ => false end)
     && (0 <? Z.of_nat (length dets))
  then
    let person_detection_results := person_detector current_frame in
    let '(person_bbox, face_img, score, person_img) :=
      find_person_in_frame current_frame (target_embeddings cfg)
        (reid_threshold cfg) person_detection_results dets in
    match person_bbox with
    | Some pb =>
        let '(trk, pv) := init_face_tracker (cvt_rgb2bgr current_frame) pb in
        _ <- (if debugging cfg then format_score score else Ok ""%string) ;;
        Ok (set_match face_img person_img score
              (set_target_person_found true
                 (set_prev_bbox pv (set_face_tracker (Some trk) st))),
            Some person_detection_results)
    | None => Ok (st, Some person_detection_results)
    end
  else Ok (st, None).

(** Step 3, first half (main.py 551-571): tracker update and recovery from
    a failed update.  Returns the state and [tracked_bbox]. *)
Definition track_update (st : TrackState) (current_frame : Frame)
    (dets : list Det) : result (TrackState * option BBox) :=
  match face_tracker st with
  | None => Ok (st, None)
  | Some trk =>
      pv <- read_prev_bbox st ;;
      let bgr_frame := cvt_rgb2bgr current_frame in
      let '(trk', tracked_bbox) := update_face_tracker bgr_frame trk pv in
      let st := set_face_tracker (Some trk') st in
      match tracked_bbox with
      | Some tb => Ok (st, Some tb)
      | None =>
          match recover_tracking current_frame pv dets with
          | Some recovered_bbox =>
              let '(trk2, pv2) := init_face_tracker bgr_frame recovered_bbox in
              Ok (set_prev_bbox pv2 (set_face_tracker (Some trk2) st), Some pv2)
          | None =>
              Ok (set_target_person_found false (set_face_tracker None st), None)
          end
      end
  end.

(** Exactly one face in the tracked region (main.py 603-613). *)
Definition single_face_branch (st : TrackState) (dets : list Det)
    (tracked_bbox : BBox) : result (TrackState * list Det * BBox) :=
  dets' <- filterM (below_region tracked_bbox) dets ;;
  Ok (set_frames_without_faces 0 st, dets', tracked_bbox).

(** [result[:4]] of the rows with class 0 and confidence at least 0.3. *)
Definition person_boxes_of (rows : list PersonDet) : list (list Q) :=
  map (fun r => [px1 r; py1 r; px2 r; py2 r])
      (filter (fun r => Qeq_bool (pcls r) 0 && Qle_bool (3 # 10) (pconf r)) rows).

(** [intersecting_persons] (main.py 627-630). *)
Definition count_intersecting (person_boxes : list (list Q)) (tracked_bbox : BBox)
  : result Z :=
  hits <- filterM (fun person_box => boxes_intersect person_box tracked_bbox)
                  person_boxes ;;
  Ok (Z.of_nat (length hits)).

(** The person detector runs at most once per frame (main.py 617-618). *)
Definition person_rows (current_frame : Frame)
    (person_detection_results : option (list PersonDet)) : list PersonDet :=
  match person_detection_results with
  | Some r => r
  | None => person_detector current_frame
  end.

(** The frame after the optional overlay (main.py 593-601). *)
Definition overlay_frame (cfg : Config) (st : TrackState) (current_frame : Frame)
    (dets_in_tracked : list Det) (tracked_bbox : BBox) : result Frame :=
  if debugging cfg
  then add_debugging_overlay current_frame dets_in_tracked tracked_bbox
         (matched_face st) (matched_person st) (match_score st)
  else Ok current_frame.

(** Several faces in the tracked region (main.py 615-646). *)
Definition multi_face_branch (st : TrackState) (current_frame : Frame)
    (dets : list Det) (person_detection_results : option (list PersonDet))
    (tracked_bbox : BBox) : result (TrackState * list Det * BBox) :=
  let person_detection_results :=
    person_rows current_frame person_detection_results in
  let person_boxes := person_boxes_of person_detection_results in
  intersecting_persons <- count_intersecting person_boxes tracked_bbox ;;
  dets' <- (if intersecting_persons <=? 1
            then filterM (below_region tracked_bbox) dets
            else Ok dets) ;;
  Ok (set_frames_without_faces 0 st, dets', tracked_bbox).

(** The reset test that closes the last branch (main.py 678-683). *)
Definition reset_policy (cfg : Config) (st : TrackState) : TrackState :=
  if negb (disable_tracker_reset cfg)
     && (max_frames_without_faces cfg <=? frames_without_faces st)
  then set_frames_without_faces 0
         (set_target_person_found false (set_face_tracker None st))
  else st.

(** No face in the tracked region (main.py 648-683). *)
Definition zero_face_branch (cfg : Config) (st : TrackState)
    (current_frame : Frame) (dets : list Det) (tracked_bbox : BBox)
  : result (TrackState * list Det * BBox) :=
  pv <- read_prev_bbox st ;;
  '(st1, dets1, tracked1) <-
    match recover_tracking current_frame pv dets with
    | Some recovered_bbox =>
        let bgr_frame := cvt_rgb2bgr current_frame in
        let '(trk, pv') := init_face_tracker bgr_frame recovered_bbox in
        let st1 :=
          set_frames_without_faces 0
            (set_prev_bbox pv' (set_face_tracker (Some trk) st)) in
        recovered_det <-
          find_first
            (fun det =>
               r <- calculate_containment_ratio (det_xywh det) recovered_bbox ;;
               Ok (Qltb (1 # 2) r))
            dets ;;
        Ok (st1,
            match recovered_det with
            | Some rd => filter (fun det => negb (det_eqb det rd)) dets
            | None => dets
            end,
            pv')
    | None => Ok (st, dets, tracked_bbox)
    end ;;
  let st2 := set_frames_without_faces (frames_without_faces st1 + 1) st1 in
  Ok (reset_policy cfg st2, dets1, tracked1).

(** Step 3, second half (main.py 573-685): disambiguation inside the
    tracked region.  Returns the state, the detections left for the
    anonymizer and the current frame.  The integer copy [tracked_box] of the
    tracked box (main.py 575-576) is not read again. *)
Definition disambiguate (cfg : Config) (st : TrackState) (current_frame : Frame)
    (dets : list Det) (person_detection_results : option (list PersonDet))
    (tracked_bbox : BBox) : result (TrackState * list Det * Frame) :=
  _ <- mapM (containment tracked_bbox) dets ;;
  dets_in_tracked <- filterM (in_region tracked_bbox) dets ;;
  current_frame <-
    overlay_frame cfg st current_frame dets_in_tracked tracked_bbox ;;
  '(st', dets', tracked') <-
    (let n := Z.of_nat (length dets_in_tracked) in
     if n =? 1 then single_face_branch st dets tracked_bbox
     else if 1 <? n then
       multi_face_branch st current_frame dets person_detection_results tracked_bbox
     else zero_face_branch cfg st current_frame dets tracked_bbox) ;;
  Ok (set_prev_bbox tracked' st', dets', current_frame).

(** Steps 1 to 3 of one iteration (main.py 516-685): the state after the
    frame, the anonymization set and the frame handed to the anonymizer. *)
Definition frame_step (cfg : Config) (st : TrackState) (frame : Frame)
  : result (TrackState * list Det * Frame) :=
  let current_frame := frame in
  let dets := centerface current_frame (threshold cfg) in
  '(st1, person_detection_results) <- acquire cfg st current_frame dets ;;
  '(st2, tracked_bbox) <- track_update st1 current_frame dets ;;
  match tracked_bbox with
  | Some tb => disambiguate cfg st2 current_frame dets person_detection_results tb
  | None => Ok (st2, dets, current_frame)
  end.

(** Steps 1 to 4 of one iteration: the state after the frame and the frame
    that is written. *)
Definition process_frame (cfg : Config) (st : TrackState) (frame : Frame)
  : result (TrackState * Frame) :=
  '(st', dets, current_frame) <- frame_step cfg st frame ;;
  out <- anonymize_frame dets current_frame (mask_scale cfg) (replacewith cfg)
           (ellipse cfg) (draw_scores cfg) (replaceimg cfg) (mosaicsize cfg) ;;
  Ok (st', out).

(** The state after a sequence of frames. *)
Fixpoint run_frames (cfg : Config) (st : TrackState) (frames : list Frame)
  : result TrackState :=
  match frames with
  | [] => Ok st
  | frame :: rest =>
      '(st', _) <- process_frame cfg st frame ;;
      run_frames cfg st' rest
  end.

(** The state after a sequence of frames and the frames produced, in order. *)
Fixpoint run_outputs (cfg : Config) (st : TrackState) (frames : list Frame)
  : result (TrackState * list Frame) :=
  match frames with
  | [] => Ok (st, [])
  | frame :: rest =>
      '(st', out) <- process_frame cfg st frame ;;
      '(st'', outs) <- run_outputs cfg st' rest ;;
      Ok (st'', out :: outs)
  end.

End FrameLoop.

(** ** Vocabulary of the statements *)

(** A detection is in region when its containment ratio against the tracked
    box exceeds one half. *)
Definition in_regionb (tracked_bbox : BBox) (det : Det) : bool :=
  match containment tracked_bbox det with
  | Ok r => Qltb CONTAINMENT_THRESHOLD r
  | Raise _ => false
  end.

Definition count_in_region (tracked_bbox : BBox) (dets : list Det) : nat :=
  length (filter (in_regionb tracked_bbox) dets).

(** The test the comprehensions keep a detection by. *)
Definition below_regionb (tracked_bbox : BBox) (det : Det) : bool :=
  match containment tracked_bbox det with
  | Ok r => Qltb r CONTAINMENT_THRESHOLD
  | Raise _ => false
  end.

(** ** Files, video containers and the effect log *)

(** What the program does to the outside world, in the order it does it. *)
Inductive Event : Type :=
| EvCreateModel (name : string)
| EvImread (path : string)
| EvOpenReader (path : string)
| EvOpenWriter (path : string)
| EvFrame (index : nat)
| EvAppend (frame : Frame)
| EvCloseReader
| EvCloseWriter.

(** A computation that appends to the log and may raise. *)
Definition IO (A : Type) : Type := list Event -> list Event * result A.

Definition io_ret {A : Type} (a : A) : IO A := fun log => (log, Ok a).

Definition io_raise {A : Type} (e : exn) : IO A := fun log => (log, Raise e).

Definition io_bind {A B : Type} (c : IO A) (k : A -> IO B) : IO B :=
  fun log =>
    match c log with
    | (log', Ok a) => k a log'
    | (log', Raise e) => (log', Raise e)
    end.

Definition emit (e : Event) : IO unit := fun log => (log ++ [e], Ok tt).

Definition io_lift {A : Type} (r : result A) : IO A := fun log => (log, r).

Declare Scope io_scope.
Delimit Scope io_scope with io.
Notation "x <~ c ;; k" := (io_bind c (fun x => k))
  (at level 61, c at next level, right associativity) : io_scope.
Notation "c ;;; k" := (io_bind c (fun _ => k))
  (at level 61, right associativity) : io_scope.
Open Scope io_scope.

(** The frames a log says were appended to the writer, oldest first. *)
Fixpoint written (log : list Event) : list Frame :=
  match log with
  | [] => []
  | EvAppend f :: log' => f :: written log'
  | _ :: log' => written log'
  end.

(** The number of loop iterations a log records. *)
Fixpoint frames_begun (log : list Event) : nat :=
  match log with
  | [] => O
  | EvFrame _ :: log' => S (frames_begun log')
  | _ :: log' => frames_begun log'
  end.

(** [str.lower] on ASCII letters and [str.endswith]. *)
Definition lower_ascii (c : ascii) : ascii :=
  let n := nat_of_ascii c in
  if (65 <=? n)%nat && (n <=? 90)%nat then ascii_of_nat (n + 32) else c.

Fixpoint lower (s : string) : string :=
  match s with
  | EmptyString => EmptyString
  | String c s' => String (lower_ascii c) (lower s')
  end.

Definition endswith (s suffix : string) : bool :=
  let n := String.length s in
  let m := String.length suffix in
  (m <=? n)%nat && String.eqb (substring (n - m) m s) suffix.

(** [os.path.join] of two components on POSIX. *)
Definition path_join (a b : string) : string :=
  if prefix "/" b then b
  else if String.eqb a "" || endswith a "/" then (a ++ b)%string
  else (a ++ "/" ++ b)%string.

Definition image_extensions : list string := [".jpg"; ".jpeg"; ".png"; ".bmp"]%string.

(** [any(f.lower().endswith(ext) for ext in image_extensions)]. *)
Definition is_image_file (f : string) : bool :=
  existsb (fun ext => endswith (lower f) ext) image_extensions.

(** [cv2.waitKey(1) & 0xFF in [ord('q'), 27]]. *)
Definition quit_key (k : Z) : bool :=
  let k' := Z.land k 255 in (k' =? 113) || (k' =? 27).

(** Metadata of an opened container. *)
Record Meta : Type := mkMeta {
  meta_size : option (Z * Z);
  meta_fps : Q;
  meta_audio_codec : option string
}.

(** An [imageio] reader. *)
Record Reader : Type := mkReader {
  get_meta_data : result Meta;
  iter_data : list Frame;
  count_frames : Z
}.

Section Pipeline.
Context {IM : Imaging} {CO : Collaborators}.

(** The file system, the model files and the video library as the program
    finds them. *)
Record World : Type := mkWorld {
  path_exists : string -> bool;
  listdir : string -> result (list string);
  imread : string -> option Frame;
  (** [YOLO(...)], [FeatureExtractor(...)], [CenterFace(...)] *)
  create_model : string -> result unit;
  get_person_embeddings_from_image : Frame -> bool -> result (list Embedding);
  (** [imageio.get_reader], with the [-ss]/[-t] window when given *)
  get_reader : string -> option (Q * option Q) -> result Reader;
  get_writer : string -> result unit;
  (** the key read by [cv2.waitKey] after the n-th frame is shown *)
  wait_key : nat -> Z
}.

(** The loop [for frame in read_iter] (main.py 514-711). *)
Fixpoint frame_loop (w : World) (cfg : Config) (opath : option string)
    (frames : list Frame) (st : TrackState) (processed_frames : nat) : IO unit :=
  match frames with
  | [] => io_ret tt
  | frame :: rest =>
      emit (EvFrame processed_frames) ;;;
      r <~ io_lift (process_frame cfg st frame) ;;
      let '(st', out) := r in
      match opath with
      | Some _ => emit (EvAppend out)
      | None => io_ret tt
      end ;;;
      if enable_preview cfg && quit_key (wait_key w processed_frames)
      then io_ret tt
      else frame_loop w cfg opath rest st' (S processed_frames)
  end.

(** The [try] block that opens the reader (main.py 438-458). *)
Definition open_reader (w : World) (cfg : Config) (ipath : string)
  : result (Reader * Meta) :=
  reader <-
    match debug_start cfg with
    | Some start =>
        let duration :=
          match debug_duration cfg with
          | Some d => if Qeq_bool d 0 then None else Some d
          | None => None
          end in
        get_reader w ipath (Some (start, duration))
    | None => get_reader w ipath None
    end ;;
  meta <- get_meta_data reader ;;
  match meta_size meta with
  | Some _ => Ok (reader, meta)
  | None => Raise KeyError
  end.

(** [video_detect] (main.py 394-716) with [cam=False], as both of its
    callers have it.  The function returns [None] on every path that
    returns. *)
Definition video_detect (w : World) (cfg : Config) (ipath : string)
    (opath : option string) : IO unit :=
  emit (EvOpenReader ipath) ;;;
  match open_reader w cfg ipath with
  | Raise _ => io_ret tt
  | Ok (reader, meta) =>
      match opath with
      | Some op => emit (EvOpenWriter op) ;;; io_lift (get_writer w op)
      | None => io_ret tt
      end ;;;
      frame_loop w cfg opath (iter_data reader) initial_state O ;;;
      emit EvCloseReader ;;;
      match opath with
      | Some _ => emit EvCloseWriter
      | None => io_ret tt
      end
  end.

(** The keyword arguments of [process_video_with_selective_blurring]. *)
Record Options : Type := mkOptions {
  opt_thresh : Q;
  opt_reid_threshold : Q;
  opt_max_frames_without_faces : Z;
  opt_debugging : bool;
  opt_keep_audio : bool;
  opt_replacewith : string;
  opt_mask_scale : Q;
  opt_mosaicsize : Z;
  opt_disable_tracker_reset : bool;
  opt_debug_start : option Q;
  opt_debug_duration : option Q
}.

Definition default_options : Options :=
  mkOptions (4 # 10) (7 # 10) 30 false true "blur" (13 # 10) 20 false None None.

(** The dictionary returned on success (main.py 197-203);
    [processing_result] holds what [video_detect] returned. *)
Record ProcessResult : Type := mkProcessResult {
  success : bool;
  input_video : string;
  output_video : string;
  target_embeddings_count : Z;
  processing_result : unit
}.

(** The loop over the target images (main.py 148-160): an image that cannot
    be read is skipped, an exception of the extractor is caught and the
    image skipped. *)
Fixpoint load_target_embeddings (w : World) (target_person_dir : string)
    (debugging : bool) (target_images : list string) (acc : list Embedding)
  : IO (list Embedding) :=
  match target_images with
  | [] => io_ret acc
  | img_file :: rest =>
      let img_path := path_join target_person_dir img_file in
      emit (EvImread img_path) ;;;
      match imread w img_path with
      | None => load_target_embeddings w target_person_dir debugging rest acc
      | Some image =>
          match get_person_embeddings_from_image w image debugging with
          | Ok embeddings =>
              load_target_embeddings w target_person_dir debugging rest
                (acc ++ embeddings)
          | Raise _ =>
              load_target_embeddings w target_person_dir debugging rest acc
          end
      end
  end.

(** [process_video_with_selective_blurring] (main.py 39-207). *)
Definition process_video_with_selective_blurring (w : World)
    (video_path target_person_dir output_path : string) (o : Options)
  : IO ProcessResult :=
  if negb (path_exists w video_path) then io_raise FileNotFoundError
  else if negb (path_exists w target_person_dir) then io_raise FileNotFoundError
  else
    emit (EvCreateModel "yolo11x.pt") ;;;
    io_lift (create_model w "yolo11x.pt") ;;;
    emit (EvCreateModel "osnet_x1_0") ;;;
    io_lift (create_model w "osnet_x1_0") ;;;
    emit (EvCreateModel "centerface") ;;;
    io_lift (create_model w "centerface") ;;;
    names <~ io_lift (listdir w target_person_dir) ;;
    let target_images := filter is_image_file names in
    match target_images with
    | [] => io_raise ValueError
    | _ :: _ =>
        target_embeddings <~
          load_target_embeddings w target_person_dir (opt_debugging o)
            target_images [] ;;
        match target_embeddings with
        | [] => io_raise ValueError
        | _ :: _ =>
            let cfg :=
              mkConfig (opt_thresh o) (opt_reid_threshold o)
                (opt_max_frames_without_faces o) (opt_disable_tracker_reset o)
                (opt_debugging o) (opt_replacewith o) (opt_mask_scale o)
                true false None (opt_mosaicsize o) false (opt_keep_audio o)
                target_embeddings (opt_debug_start o) (opt_debug_duration o) in
            result <~ video_detect w cfg video_path (Some output_path) ;;
            io_ret (mkProcessResult true video_path output_path
                      (Z.of_nat (length target_embeddings)) result)
        end
    end.

End Pipeline.

Section CounterVocabulary.
Context {IM : Imaging} {CO : Collaborators}.

(** The state is in the reset configuration. *)
Definition searching_reset (st : TrackState) : Prop :=
  face_tracker st = None /\ target_person_found st = false /\
  frames_without_faces st = 0.

(** Whenever a tracker is held, [prev_bbox] is bound. *)
Definition tracker_bound (st : TrackState) : Prop :=
  face_tracker st <> None -> prev_bbox st <> None.

(** The target is marked as found exactly when a tracker is held. *)
Definition found_iff_tracker (st : TrackState) : Prop :=
  target_person_found st = true <-> face_tracker st <> None.

(** The counter is a count, and it is at 0 or below the maximum. *)
Definition counter_ok (cfg : Config) (st : TrackState) : Prop :=
  0 <= frames_without_faces st /\
  (frames_without_faces st = 0 \/
   frames_without_faces st < max_frames_without_faces cfg).

(** What a piece of the loop body does to the counter: which values it
    assigns, that a positive value assigned at or above the maximum leaves
    the reset configuration behind, and that it keeps [counter_ok]. *)
Definition counter_step (cfg : Config) (st st' : TrackState) : Prop :=
  exists new : list Z,
    fwf_writes st' = new ++ fwf_writes st /\
    (forall v, In v new -> 0 < v -> max_frames_without_faces cfg <= v ->
               searching_reset st') /\
    (counter_ok cfg st -> counter_ok cfg st').

End CounterVocabulary.

Section PipelineVocabulary.
Context {IM : Imaging} {CO : Collaborators}.

(** A target image yields no embedding: it cannot be read, or the extractor
    raises on it, or the extractor finds nobody in it. *)
Definition yields_no_embedding (w : World) (target_person_dir : string)
    (debugging : bool) (img_file : string) : Prop :=
  match imread w (path_join target_person_dir img_file) with
  | None => True
  | Some image =>
      match get_person_embeddings_from_image w image debugging with
      | Ok [] => True
      | Ok (_ :: _) => False
      | Raise _ => True
      end
  end.

End PipelineVocabulary.

(** ** Pixels of a frame, and the mosaic as a painting of cells *)

(** The pixel at row [y], column [x]. *)
Definition pix (f : Frame) (y x : Z) : Pixel :=
  nth (Z.to_nat x) (nth (Z.to_nat y) f []) (0, 0, 0).

Definition in_bounds (f : Frame) (p : Z * Z) : Prop :=
  0 <= fst p < frame_height f /\ 0 <= snd p < frame_width f.

(** One cell of the mosaic and the two loops as pixel operations, without
    the conversion of the corners to C [int]s. *)
Definition mosaic_cell_px (x2 y2 mosaicsize y x : Z) (frame : Frame)
  : result Frame :=
  let pt1 := (x, y) in
  let pt2 := (Z.min x2 (x + mosaicsize - 1), Z.min y2 (y + mosaicsize - 1)) in
  color <- frame_get frame y x ;;
  Ok (fill_span frame pt1 pt2 color).

Definition mosaic_loops_px (x1 y1 x2 y2 mosaicsize : Z) (frame : Frame)
  : result Frame :=
  ys <- py_range y1 y2 mosaicsize ;;
  for_each ys
    (fun y fr =>
       xs <- py_range x1 x2 mosaicsize ;;
       for_each xs (mosaic_cell_px x2 y2 mosaicsize y) fr)
    frame.

(** The rectangle that the mosaic cell with origin [o = (y, x)] fills. *)
Definition cell_rect (x2 y2 mosaicsize : Z) (o p : Z * Z) : bool :=
  in_span (fst o) (Z.min y2 (fst o + mosaicsize - 1)) (fst p)
  && in_span (snd o) (Z.min x2 (snd o + mosaicsize - 1)) (snd p).

(** Painting a list of cells on a picture given as a function: each cell in
    turn takes the colour found at its origin. *)
Fixpoint paint (rect : Z * Z -> Z * Z -> bool) (cells : list (Z * Z))
    (phi : Z * Z -> Pixel) : Z * Z -> Pixel :=
  match cells with
  | [] => phi
  | o :: rest =>
      paint rect rest (fun p => if rect o p then phi o else phi p)
  end.

(** The origin of the cell of a positive-size mosaic that a point falls in. *)
Definition cell_key (x1 y1 x2 y2 mosaicsize : Z) (p : Z * Z) : option (Z * Z) :=
  if (y1 <=? fst p) && (fst p <=? y2) && (x1 <=? snd p) && (snd p <=? x2)
  then Some (y1 + (fst p - y1) / mosaicsize * mosaicsize,
             x1 + (snd p - x1) / mosaicsize * mosaicsize)
  else None.

Definition cell_eq_dec (a b : Z * Z) : {a = b} + {a <> b}.
Proof. decide equality; apply Z.eq_dec. Defined.

(** The frames of the shape of [f0], well formed when [f0] is. *)
Definition shaped_like (f0 f : Frame) : Prop :=
  frame_height f = frame_height f0 /\ frame_width f = frame_width f0 /\
  (frame_rect f0 -> frame_rect f).

Section LostFrames.
Context {IM : Imaging} {CO : Collaborators}.

(** The state after the tracking logic of a sequence of frames. *)
Fixpoint track_run (cfg : Config) (st : TrackState) (frames : list Frame)
  : result TrackState :=
  match frames with
  | [] => Ok st
  | frame :: rest =>
      '(st', _, _) <- frame_step cfg st frame ;;
      track_run cfg st' rest
  end.

(** A frame on which the target is lost: a tracker is held, its update
    returns a box, no detection is in region, the debugging overlay, if
    any, is drawn and the recovery finds nothing. *)
Definition lost_frame (cfg : Config) (st : TrackState) (frame : Frame) : Prop :=
  exists (trk trk' : Tracker) (pv tb : BBox) (cur : Frame),
    face_tracker st = Some trk /\
    target_person_found st = true /\
    prev_bbox st = Some pv /\
    update_face_tracker (cvt_rgb2bgr frame) trk pv = (trk', Some tb) /\
    count_in_region tb (centerface frame (threshold cfg)) = 0%nat /\
    overlay_frame cfg (set_face_tracker (Some trk') st) frame [] tb = Ok cur /\
    recover_tracking cur pv (centerface frame (threshold cfg)) = None.

(** A sequence of frames on each of which the target is lost, in the state
    the earlier ones led to. *)
Fixpoint lost_run (cfg : Config) (st : TrackState) (frames : list Frame) : Prop :=
  match frames with
  | [] => True
  | frame :: rest =>
      lost_frame cfg st frame /\
      forall st' anon cur,
        frame_step cfg st frame = Ok (st', anon, cur) -> lost_run cfg st' rest
  end.

End LostFrames.

(** ** The entry point in two halves, and the batch driver *)

(** An event of the frame loop itself. *)
Definition loop_event (e : Event) : Prop :=
  match e with
  | EvFrame _ | EvAppend _ => True
  | _ => False
  end.

(** [str.split(sep)] on a one-character separator. *)
Fixpoint split_on (sep : ascii) (s : string) : list string :=
  match s with
  | EmptyString => [EmptyString]
  | String c s' =>
      if Ascii.eqb c sep then EmptyString :: split_on sep s'
      else match split_on sep s' with
           | [] => [String c EmptyString]
           | part :: parts => String c part :: parts
           end
  end.

Section Batch.
Context {IM : Imaging} {CO : Collaborators}.

(** The configuration that the entry point hands to [video_detect]
    (main.py 169-194). *)
Definition entry_config (o : Options) (target_embeddings : list Embedding)
  : Config :=
  mkConfig (opt_thresh o) (opt_reid_threshold o)
    (opt_max_frames_without_faces o) (opt_disable_tracker_reset o)
    (opt_debugging o) (opt_replacewith o) (opt_mask_scale o)
    true false None (opt_mosaicsize o) false (opt_keep_audio o)
    target_embeddings (opt_debug_start o) (opt_debug_duration o).

(** The first half of [process_video_with_selective_blurring]
    (main.py 84-165): validation of the two paths, creation of the models
    and extraction of the target embeddings. *)
Definition prepare_target (w : World) (video_path target_person_dir : string)
    (o : Options) : IO (list Embedding) :=
  if negb (path_exists w video_path) then io_raise FileNotFoundError
  else if negb (path_exists w target_person_dir) then io_raise FileNotFoundError
  else
    emit (EvCreateModel "yolo11x.pt") ;;;
    io_lift (create_model w "yolo11x.pt") ;;;
    emit (EvCreateModel "osnet_x1_0") ;;;
    io_lift (create_model w "osnet_x1_0") ;;;
    emit (EvCreateModel "centerface") ;;;
    io_lift (create_model w "centerface") ;;;
    names <~ io_lift (listdir w target_person_dir) ;;
    let target_images := filter is_image_file names in
    match target_images with
    | [] => io_raise ValueError
    | _ :: _ =>
        target_embeddings <~
          load_target_embeddings w target_person_dir (opt_debugging o)
            target_images [] ;;
        match target_embeddings with
        | [] => io_raise ValueError
        | _ :: _ => io_ret target_embeddings
        end
    end.

(** The command line arguments that [main] reads (main.py 906-924).  The
    ffmpeg configuration, the ONNX backend and the execution provider only
    reach the video library and the constructor of the face detector. *)
Record Args : Type := mkArgs {
  arg_input_dir : string;
  arg_video_filename : string;
  arg_target_person_dirname : string;
  arg_debugging : bool;
  arg_disable_tracker_reset : bool;
  arg_debug_start : option Q;
  arg_debug_duration : option Q;
  arg_reid_threshold : Q;
  arg_max_frames_without_faces : Z;
  arg_thresh : Q;
  arg_scale : option string;
  arg_preview : bool;
  arg_boxes : bool;
  arg_draw_scores : bool;
  arg_mask_scale : Q;
  arg_replacewith : string;
  arg_replaceimg : string;
  arg_mosaicsize : Z;
  arg_keep_audio : bool
}.

(** What [main] asks of the outside world beyond [World]. *)
Record BatchEnv : Type := mkBatchEnv {
  (** [os.path.isdir] *)
  isdir : string -> bool;
  (** [imageio.imread] of the replacement image *)
  read_replaceimg : string -> result ReplaceImg;
  (** [int(...)] on a string *)
  py_int : string -> result Z;
  (** [get_person_embeddings_from_image] as [main] calls it, on the path of
      the target directory *)
  embeddings_of_path : string -> bool -> result (list Embedding)
}.

(** [w, h = in_shape.split('x')] and the two conversions (main.py 927-929). *)
Definition main_in_shape (env : BatchEnv) (scale : option string)
  : result (option (Z * Z)) :=
  match scale with
  | None => Ok None
  | Some s =>
      match split_on "x" s with
      | [w; h] => a <- py_int env w ;; b <- py_int env h ;; Ok (Some (a, b))
      | _ => Raise ValueError
      end
  end.

(** The arguments of the call of [video_detect] in [main] (main.py 1006-1031);
    [ellipse] is [not args.boxes]. *)
Definition batch_config (args : Args) (replaceimg : option ReplaceImg)
    (target_embeddings : list Embedding) : Config :=
  mkConfig (arg_thresh args) (arg_reid_threshold args)
    (arg_max_frames_without_faces args) (arg_disable_tracker_reset args)
    (arg_debugging args) (arg_replacewith args) (arg_mask_scale args)
    (negb (arg_boxes args)) (arg_draw_scores args) replaceimg
    (arg_mosaicsize args) (arg_preview args) (arg_keep_audio args)
    target_embeddings (arg_debug_start args) (arg_debug_duration args).

Definition batch_video_path (args : Args) (video_folder : string) : string :=
  path_join (path_join (arg_input_dir args) video_folder)
            (arg_video_filename args).

Definition batch_target_dir (args : Args) (video_folder : string) : string :=
  path_join (path_join (arg_input_dir args) video_folder)
            (arg_target_person_dirname args).

Definition batch_output_path (args : Args) (video_folder : string) : string :=
  path_join (path_join (arg_input_dir args) video_folder)
            ("anonymized_" ++ arg_video_filename args)%string.

(** The body of the [try] of one iteration of the batch loop
    (main.py 978-1033); a [continue] is a normal return. *)
Definition batch_item (w : World) (env : BatchEnv) (args : Args)
    (replaceimg : option ReplaceImg) (video_folder : string) : IO unit :=
  let video_path := batch_video_path args video_folder in
  let target_person_dir := batch_target_dir args video_folder in
  if negb (path_exists w video_path) then io_ret tt
  else if negb (path_exists w target_person_dir) then io_ret tt
  else
    let output_path := batch_output_path args video_folder in
    target_embeddings <~
      io_lift (embeddings_of_path env target_person_dir (arg_debugging args)) ;;
    match target_embeddings with
    | [] => io_ret tt
    | _ :: _ =>
        video_detect w (batch_config args replaceimg target_embeddings)
          video_path (Some output_path)
    end.

(** [try: ... except Exception: ... continue]. *)
Definition io_catch (c : IO unit) : IO unit :=
  fun log =>
    match c log with
    | (log', Ok _) => (log', Ok tt)
    | (log', Raise _) => (log', Ok tt)
    end.

(** The loop over the video folders (main.py 976-1043).  An interrupt from
    the keyboard, which ends the loop, is not an event of the model. *)
Fixpoint batch_loop (w : World) (env : BatchEnv) (args : Args)
    (replaceimg : option ReplaceImg) (video_folders : list string) : IO unit :=
  match video_folders with
  | [] => io_ret tt
  | video_folder :: rest =>
      io_catch (batch_item w env args replaceimg video_folder) ;;;
      batch_loop w env args replaceimg rest
  end.

(** [main] (main.py 906-1047) after the parsing of the command line. *)
Definition main (w : World) (env : BatchEnv) (args : Args) : IO unit :=
  _ <~ io_lift (main_in_shape env (arg_scale args)) ;;
  replaceimg <~
    (if String.eqb (arg_replacewith args) "img"
     then r <~ io_lift (read_replaceimg env (arg_replaceimg args)) ;;
          io_ret (Some r)
     else io_ret None) ;;
  emit (EvCreateModel "yolo11x.pt") ;;;
  io_lift (create_model w "yolo11x.pt") ;;;
  emit (EvCreateModel "osnet_x1_0") ;;;
  io_lift (create_model w "osnet_x1_0") ;;;
  emit (EvCreateModel "centerface") ;;;
  io_lift (create_model w "centerface") ;;;
  if negb (isdir env (arg_input_dir args)) then io_ret tt
  else
    names <~ io_lift (listdir w (arg_input_dir args)) ;;
    let video_folders :=
      filter (fun f => isdir env (path_join (arg_input_dir args) f)) names in
    match video_folders with
    | [] => io_ret tt
    | _ :: _ => batch_loop w env args replaceimg video_folders
    end.

End Batch.

(** The corners that [anonymize_frame] hands to [draw_det] for a detection
    on a frame of the given height and width (main.py 374-379): truncation,
    scaling, clipping. *)
Definition clipped_box (height width : Z) (mask_scale : Q) (det : Det)
  : (Z * Z) * (Z * Z) :=
  let '(x1, y1, x2, y2) :=
    scale_bb (Qtrunc (fx1 det)) (Qtrunc (fy1 det))
             (Qtrunc (fx2 det)) (Qtrunc (fy2 det)) mask_scale in
  ((Z.max 0 x1, Z.max 0 y1), (Z.min (width - 1) x2, Z.min (height - 1) y2)).

(** The corners of the clipped box of a detection fit a C [int]. *)
Definition box_fits (height width : Z) (mask_scale : Q) (det : Det) : bool :=
  point_fits (fst (clipped_box height width mask_scale det))
  && point_fits (snd (clipped_box height width mask_scale det)).

(** The black fills of a list of detections, one after the other. *)
Definition solid_fills (height width : Z) (mask_scale : Q) (dets : list Det)
    (frame : Frame) : Frame :=
  fold_left
    (fun f det =>
       fill_span f (fst (clipped_box height width mask_scale det))
         (snd (clipped_box height width mask_scale det)) (0, 0, 0))
    dets frame.

(** ** A concrete scenario *)

(** Modelled from the spec: [recover_tracking] of the module [tracking],
    which [main.py] imports and which is not among the sources at hand.
    Section 4.3: scan the detections of the frame, compute the containment
    ratio of each against the previous tracked box, select the detection
    with the highest ratio if it exceeds the recovery threshold 0.5 (the
    first such detection among equals), and return its box. *)
Fixpoint spec_recover_scan (prev : BBox) (dets : list Det) (best : option (Q * Det))
  : option (Q * Det) :=
  match dets with
  | [] => best
  | det :: rest =>
      let r := match containment prev det with Ok r => r | Raise _ => 0%Q end in
      let best' :=
        match best with
        | Some (rb, _) => if Qltb rb r then Some (r, det) else best
        | None => if Qltb (1 # 2) r then Some (r, det) else None
        end in
      spec_recover_scan prev rest best'
  end.

(** Modelled from the spec: the box that [recover_tracking] returns, the one
    of the detection selected by the scan above, or [None]. *)
Definition spec_recover_tracking (prev : BBox) (dets : list Det) : option BBox :=
  match spec_recover_scan prev dets None with
  | Some (_, det) => Some (mkBBox (fx1 det) (fy1 det) (fx2 det) (fy2 det))
  | None => None
  end.

(** Image operations that leave the frame as it is. *)
Definition demo_imaging : Imaging :=
  {| ReplaceImg := unit;
     blur_region := fun f _ _ _ _ _ => Ok f;
     paste_image := fun _ f _ _ _ _ => Ok f;
     put_score := fun f _ _ _ => f;
     cvt_rgb2bgr := fun f => f;
     on_outline := fun _ _ _ _ _ => false;
     get_text_size := fun text _ _ => (10 * Z.of_nat (String.length text), 20);
     on_text := fun _ _ _ _ _ _ => false;
     format_3f := fun _ => "0.900"%string |}.

(** The scene a demo frame shows is written in its first pixel. *)
Definition scene_of (frame : Frame) : Z :=
  match frame with
  | ((k, _, _) :: _) :: _ => k
  | _ => 0
  end.

Definition demo_frame (k : Z) : Frame :=
  [[(k, 0, 0); (0, 0, 0); (0, 0, 0)];
   [(0, 0, 0); (0, 0, 0); (0, 0, 0)]].

Definition face_a : Det := mkDet 10 10 50 50 (9 # 10).
Definition face_b : Det := mkDet 60 60 90 90 (8 # 10).
Definition person_a : PersonDet := mkPersonDet 0 0 100 200 (9 # 10) 0.
Definition person_b : PersonDet := mkPersonDet 40 0 140 200 (8 # 10) 0.
(** A detection three thousand million pixels to the right of any frame. *)
Definition far_face : Det := mkDet 3000000000 0 3000000000 2 (9 # 10).
Definition home_box : BBox := mkBBox 0 0 100 100.
Definition drifted_box : BBox := mkBBox 200 200 300 300.

(** Scenes: 1, the target alone; 2, the target where it was while the
    tracker drifts away; 3, two faces and one person in the tracked box;
    4, two faces and two persons; 5, nobody; any other, nobody and the
    tracker update fails. *)
Definition demo_collaborators : Collaborators :=
  {| Tracker := unit;
     Crop := unit;
     Embedding := unit;
     centerface := fun frame _ =>
       match scene_of frame with
       | 1 => [face_a]
       | 2 => [face_a]
       | 3 => [face_a; face_b]
       | 4 => [face_a; face_b]
       | _ => []
       end;
     person_detector := fun frame =>
       match scene_of frame with
       | 1 => [person_a]
       | 2 => [person_a]
       | 3 => [person_a]
       | 4 => [person_a; person_b]
       | _ => []
       end;
     find_person_in_frame := fun _ _ _ _ dets =>
       match dets with
       | [] => (None, None, None, None)
       | _ :: _ => (Some home_box, Some tt, Some (9 # 10), Some tt)
       end;
     init_face_tracker := fun _ bbox => (tt, bbox);
     update_face_tracker := fun frame trk prev =>
       match scene_of frame with
       | 1 | 3 | 4 | 5 => (trk, Some prev)
       | 2 => (trk, Some drifted_box)
       | _ => (trk, None)
       end;
     recover_tracking := fun _ prev dets => spec_recover_tracking prev dets;
     resize_crop := fun _ _ _ => Some (fun _ _ => (128, 128, 128)) |}.

(** The same collaborators with a matcher that recognises nobody. *)
Definition nobody_collaborators : Collaborators :=
  {| Tracker := unit;
     Crop := unit;
     Embedding := unit;
     centerface := @centerface demo_collaborators;
     person_detector := @person_detector demo_collaborators;
     find_person_in_frame := fun _ _ _ _ _ => (None, None, None, None);
     init_face_tracker := @init_face_tracker demo_collaborators;
     update_face_tracker := @update_face_tracker demo_collaborators;
     recover_tracking := @recover_tracking demo_collaborators;
     resize_crop := @resize_crop demo_collaborators |}.

(** The crowd scene, away from the origin: two faces inside the tracked
    box, a person around them, and a person to their left whose box ends
    before the tracked box begins. *)
Definition crowd_box : BBox := mkBBox 350 150 600 400.
Definition face_l : Det := mkDet 400 200 450 250 (9 # 10).
Definition face_r : Det := mkDet 500 200 550 250 (8 # 10).
Definition person_left : PersonDet := mkPersonDet 100 100 300 500 (9 # 10) 0.
Definition person_mid : PersonDet := mkPersonDet 380 160 580 400 (9 # 10) 0.

Definition crowd_collaborators : Collaborators :=
  {| Tracker := unit;
     Crop := unit;
     Embedding := unit;
     centerface := fun _ _ => [face_l; face_r];
     person_detector := fun _ => [person_left; person_mid];
     find_person_in_frame := @find_person_in_frame demo_collaborators;
     init_face_tracker := @init_face_tracker demo_collaborators;
     update_face_tracker := fun _ trk prev => (trk, Some prev);
     recover_tracking := @recover_tracking demo_collaborators;
     resize_crop := @resize_crop demo_collaborators |}.

Definition crowd_config : @Config demo_imaging crowd_collaborators :=
  @mkConfig demo_imaging crowd_collaborators
    (4 # 10) (7 # 10) 30 false false "solid" (13 # 10) true false None 20
    false true [tt] None None.

(** The target is tracked at the crowd box. *)
Definition crowd_state : @TrackState crowd_collaborators :=
  @mkTrackState crowd_collaborators (Some tt) 0 true (Some tt) (Some tt)
    (Some (9 # 10)) (Some crowd_box) [0].

Definition nobody_config : @Config demo_imaging nobody_collaborators :=
  @mkConfig demo_imaging nobody_collaborators
    (4 # 10) (7 # 10) 30 false false "solid" (13 # 10) true false None 20
    false true [tt] None None.

(** The demo configuration with [debugging] set. *)
Definition demo_debug_config : @Config demo_imaging demo_collaborators :=
  @mkConfig demo_imaging demo_collaborators
    (4 # 10) (7 # 10) 30 false true "solid" (13 # 10) true false None 20
    false true [tt] None None.

Definition demo_config (maxf : Z) (mode : string)
  : @Config demo_imaging demo_collaborators :=
  @mkConfig demo_imaging demo_collaborators
    (4 # 10) (7 # 10) maxf false false mode (13 # 10) true false None 20
    false true [tt] None None.

(** The state right after the target is acquired in the first frame. *)
Definition demo_acquired_state : @TrackState demo_collaborators :=
  @mkTrackState demo_collaborators (Some tt) 0 true (Some tt) (Some tt)
    (Some (9 # 10)) (Some home_box) [0].

(** The state after the counter reached a maximum of 1 in scene 5. *)
Definition demo_reset_state : @TrackState demo_collaborators :=
  @mkTrackState demo_collaborators None 0 false (Some tt) (Some tt)
    (Some (9 # 10)) (Some home_box) [0; 1; 0; 0].

(** The state after the target was acquired and tracked through scene 1. *)
Definition demo_tracking_state : @TrackState demo_collaborators :=
  @mkTrackState demo_collaborators (Some tt) 0 true (Some tt) (Some tt)
    (Some (9 # 10)) (Some home_box) [0; 0].

Definition demo_reader : Reader :=
  mkReader (Ok (mkMeta (Some (3, 2)) 25 None))
           [demo_frame 1; demo_frame 2; demo_frame 3; demo_frame 5] 4.

(** A file system with a readable clip, a corrupt one, a target directory
    with two images and a directory without any. *)
Definition demo_world : @World demo_collaborators :=
  @mkWorld demo_collaborators
    (fun p => negb (String.eqb p "missing.mp4" || String.eqb p "missing_dir"))
    (fun d => if String.eqb d "empty_dir" then Ok ["notes.txt"]%string
              else if String.eqb d "target" then Ok ["a.JPG"; "readme.md"; "b.png"]%string
              else Raise OSError)
    (fun p => if String.eqb p "target/a.JPG" then Some (demo_frame 1) else None)
    (fun _ => Ok tt)
    (fun _ _ => Ok [tt])
    (fun p _ => if String.eqb p "clip.mp4" then Ok demo_reader else Raise OSError)
    (fun _ => Ok tt)
    (fun _ => 0).

(** A picture of four rows of four pixels, all different. *)
Definition demo_picture : Frame :=
  [[(10, 0, 0); (11, 0, 0); (12, 0, 0); (13, 0, 0)];
   [(20, 0, 0); (21, 0, 0); (22, 0, 0); (23, 0, 0)];
   [(30, 0, 0); (31, 0, 0); (32, 0, 0); (33, 0, 0)];
   [(40, 0, 0); (41, 0, 0); (42, 0, 0); (43, 0, 0)]].

(** The log of the run of [video_detect] on the readable clip. *)
Definition demo_run_log : list Event :=
  Eval vm_compute in
    fst (@video_detect demo_imaging demo_collaborators demo_world
           (demo_config 30 "solid") "clip.mp4" (Some "out.mp4"%string) []).

(** The demo file system with a disk that cannot be written. *)
Definition readonly_world : @World demo_collaborators :=
  @mkWorld demo_collaborators
    (path_exists demo_world) (listdir demo_world) (imread demo_world)
    (create_model demo_world) (get_person_embeddings_from_image demo_world)
    (get_reader demo_world) (fun _ => Raise OSError) (wait_key demo_world).

(** A batch directory with two video folders and a stray file; the output
    of the first folder cannot be written. *)
Definition batch_world : @World demo_collaborators :=
  @mkWorld demo_collaborators
    (fun _ => true)
    (fun d => if String.eqb d "videos" then Ok ["a"; "notes.txt"; "b"]%string
              else Raise OSError)
    (fun _ => None)
    (fun _ => Ok tt)
    (fun _ _ => Ok [tt])
    (fun _ _ => Ok demo_reader)
    (fun p => if String.eqb p "videos/a/anonymized_video.mp4"
              then Raise OSError else Ok tt)
    (fun _ => 0).

Definition batch_env : @BatchEnv demo_imaging demo_collaborators :=
  @mkBatchEnv demo_imaging demo_collaborators
    (fun p => negb (String.eqb p "videos/notes.txt"))
    (fun _ => Raise OSError)
    (fun _ => Raise ValueError)
    (fun _ _ => Ok [tt]).

Definition batch_args : Args :=
  mkArgs "videos" "video.mp4" "target_person" false false None None
    (7 # 10) 30 (4 # 10) None false true false (13 # 10) "solid"
    "replace_img.png" 20 false.

(** ** Theorems *)

Lemma Qltb_lt (x y : Q) : Qltb x y = true <-> (x < y)%Q.
Proof.
  unfold Qltb. rewrite negb_true_iff.
  destruct (Qle_bool y x) eqn:E.
  - apply Qle_bool_iff in E. split; [discriminate | intro; lra].
  - split; [intros _ | reflexivity].
    apply Qnot_le_lt. intro H. apply Qle_bool_iff in H. congruence.
Qed.

Lemma Qltb_ge (x y : Q) : Qltb x y = false <-> (y <= x)%Q.
Proof.
  unfold Qltb. rewrite negb_false_iff. apply Qle_bool_iff.
Qed.

Lemma Qltb_cases (x y : Q) :
  (Qltb x y = true /\ (x < y)%Q) \/ (Qltb x y = false /\ (y <= x)%Q).
Proof.
  destruct (Qltb x y) eqn:E.
  - left. split; [reflexivity | now apply Qltb_lt].
  - right. split; [reflexivity | now apply Qltb_ge].
Qed.

Lemma py_max_cases (a b : Q) :
  (py_max a b = b /\ (a < b)%Q) \/ (py_max a b = a /\ (b <= a)%Q).
Proof.
  unfold py_max. destruct (Qltb_cases a b) as [[-> H] | [-> H]]; auto.
Qed.

Lemma py_min_cases (a b : Q) :
  (py_min a b = b /\ (b < a)%Q) \/ (py_min a b = a /\ (a <= b)%Q).
Proof.
  unfold py_min. destruct (Qltb_cases b a) as [[-> H] | [-> H]]; auto.
Qed.

Lemma py_div_ok (a b : Q) : (0 < b)%Q -> py_div a b = Ok (a / b)%Q.
Proof.
  intro H. unfold py_div.
  destruct (Qeq_bool b 0) eqn:E; [| reflexivity].
  apply Qeq_bool_eq in E. lra.
Qed.

(** The guard [det_area > 0] makes the division safe: the function returns
    on every pair of boxes. *)
Lemma calculate_containment_ratio_total (d : XYWH) (t : BBox) :
  exists r : Q, calculate_containment_ratio d t = Ok r.
Proof.
  unfold calculate_containment_ratio.
  match goal with |- context [Qltb 0 ?a] => destruct (Qltb_cases 0 a) as [[-> H] | [-> H]] end.
  - rewrite (py_div_ok _ _ H). eauto.
  - eauto.
Qed.

Lemma Qdiv_self_one (a b : Q) : (0 < b)%Q -> (a == b)%Q -> (a / b == 1)%Q.
Proof.
  intros Hb Hab. rewrite Hab. field. lra.
Qed.

Lemma Qdiv_zero_num (a b : Q) : (a == 0)%Q -> (a / b == 0)%Q.
Proof.
  intro Ha. rewrite Ha. unfold Qdiv. ring.
Qed.

Lemma ratio_inside (d : XYWH) (t : BBox) :
  (0 < bw d)%Q -> (0 < bh d)%Q ->
  (bx1 t <= bx d)%Q -> (by1 t <= by_ d)%Q ->
  (bx d + bw d <= bx2 t)%Q -> (by_ d + bh d <= by2 t)%Q ->
  exists r : Q, calculate_containment_ratio d t = Ok r /\ (r == 1)%Q.
Proof.
  intros Hw Hh Hx1 Hy1 Hx2 Hy2.
  unfold calculate_containment_ratio.
  assert (Ha : (0 < (bx d + bw d - bx d) * (by_ d + bh d - by_ d))%Q).
  { setoid_replace ((bx d + bw d - bx d) * (by_ d + bh d - by_ d))%Q
      with (bw d * bh d)%Q by ring.
    nra. }
  apply Qltb_lt in Ha as Hb. rewrite Hb. rewrite (py_div_ok _ _ Ha).
  eexists. split; [reflexivity |].
  apply Qdiv_self_one; [exact Ha |].
  destruct (py_max_cases (bx d) (bx1 t)) as [[-> ?] | [-> ?]];
  destruct (py_max_cases (by_ d) (by1 t)) as [[-> ?] | [-> ?]];
  destruct (py_min_cases (bx d + bw d) (bx2 t)) as [[-> ?] | [-> ?]];
  destruct (py_min_cases (by_ d + bh d) (by2 t)) as [[-> ?] | [-> ?]];
  try lra.
  destruct (py_max_cases 0 (bx d + bw d - bx d)) as [[-> ?] | [-> ?]];
  destruct (py_max_cases 0 (by_ d + bh d - by_ d)) as [[-> ?] | [-> ?]];
  lra.
Qed.

Lemma ratio_separated (d : XYWH) (t : BBox) :
  (bx d + bw d <= bx1 t \/ bx2 t <= bx d \/
   by_ d + bh d <= by1 t \/ by2 t <= by_ d)%Q ->
  exists r : Q, calculate_containment_ratio d t = Ok r /\ (r == 0)%Q.
Proof.
  intro Hsep.
  unfold calculate_containment_ratio.
  match goal with
  | |- context [Qltb 0 ?a] => destruct (Qltb_cases 0 a) as [[-> Ha] | [-> Ha]]
  end.
  2: { eexists. split; [reflexivity | reflexivity]. }
  rewrite (py_div_ok _ _ Ha).
  eexists. split; [reflexivity |].
  apply Qdiv_zero_num.
  destruct (py_max_cases (bx d) (bx1 t)) as [[-> ?] | [-> ?]];
  destruct (py_max_cases (by_ d) (by1 t)) as [[-> ?] | [-> ?]];
  destruct (py_min_cases (bx d + bw d) (bx2 t)) as [[-> ?] | [-> ?]];
  destruct (py_min_cases (by_ d + bh d) (by2 t)) as [[-> ?] | [-> ?]];
  match goal with
  | |- (py_max 0 ?u * py_max 0 ?v == 0)%Q =>
      destruct (py_max_cases 0 u) as [[-> ?] | [-> ?]];
      destruct (py_max_cases 0 v) as [[-> ?] | [-> ?]]
  end;
  try ring; lra.
Qed.

Lemma ratio_degenerate (d : XYWH) (t : BBox) :
  (bw d * bh d <= 0)%Q -> calculate_containment_ratio d t = Ok 0%Q.
Proof.
  intro H. unfold calculate_containment_ratio.
  match goal with
  | |- context [Qltb 0 ?a] => destruct (Qltb_cases 0 a) as [[-> Ha] | [-> Ha]]
  end; [| reflexivity].
  exfalso.
  setoid_replace ((bx d + bw d - bx d) * (by_ d + bh d - by_ d))%Q
    with (bw d * bh d)%Q in Ha by ring.
  lra.
Qed.

(** ** The error monad on total tests *)

Lemma filterM_pure {A : Type} (p : A -> result bool) (pb : A -> bool) (l : list A) :
  (forall a, In a l -> p a = Ok (pb a)) -> filterM p l = Ok (filter pb l).
Proof.
  induction l as [| a l IH]; intro H; simpl.
  - reflexivity.
  - rewrite (H a (or_introl eq_refl)). simpl.
    rewrite IH by (intros b Hb; apply H; now right). simpl.
    reflexivity.
Qed.

Lemma mapM_total {A B : Type} (f : A -> result B) (l : list A) :
  (forall a, In a l -> exists b, f a = Ok b) -> exists r, mapM f l = Ok r.
Proof.
  induction l as [| a l IH]; intro H; simpl.
  - eauto.
  - destruct (H a (or_introl eq_refl)) as [b ->]. simpl.
    destruct IH as [r ->]; [intros c Hc; apply H; now right |].
    simpl. eauto.
Qed.

Lemma containment_total (tb : BBox) (d : Det) :
  exists r : Q, containment tb d = Ok r.
Proof. apply calculate_containment_ratio_total. Qed.

Lemma in_region_eq (tb : BBox) (d : Det) :
  in_region tb d = Ok (in_regionb tb d).
Proof.
  unfold in_region, in_regionb.
  destruct (containment_total tb d) as [r ->]. reflexivity.
Qed.

Lemma below_region_eq (tb : BBox) (d : Det) :
  below_region tb d = Ok (below_regionb tb d).
Proof.
  unfold below_region, below_regionb.
  destruct (containment_total tb d) as [r ->]. reflexivity.
Qed.

Lemma in_region_not_below (tb : BBox) (d : Det) :
  in_regionb tb d = true -> below_regionb tb d = false.
Proof.
  unfold in_regionb, below_regionb.
  destruct (containment tb d) as [r |]; [| discriminate].
  intro H. apply Qltb_lt in H. apply Qltb_ge. lra.
Qed.

Lemma dets_in_tracked_eq (tb : BBox) (dets : list Det) :
  filterM (in_region tb) dets = Ok (filter (in_regionb tb) dets).
Proof. apply filterM_pure. intros; apply in_region_eq. Qed.

Lemma dets_below_eq (tb : BBox) (dets : list Det) :
  filterM (below_region tb) dets = Ok (filter (below_regionb tb) dets).
Proof. apply filterM_pure. intros; apply below_region_eq. Qed.

Lemma containments_ok (tb : BBox) (dets : list Det) :
  exists rs, mapM (containment tb) dets = Ok rs.
Proof. apply mapM_total. intros; apply containment_total. Qed.

(** Every person box handed to [boxes_intersect] has four coordinates, so
    the count never raises. *)
Lemma count_intersecting_total (rows : list PersonDet) (tb : BBox) :
  exists n : Z, count_intersecting (person_boxes_of rows) tb = Ok n.
Proof.
  unfold count_intersecting, person_boxes_of.
  erewrite filterM_pure with
    (pb := fun b => match boxes_intersect b tb with Ok v => v | Raise _ => false end).
  - simpl. eauto.
  - intros b Hb. apply in_map_iff in Hb as (r & <- & _). reflexivity.
Qed.

Section FrameLoopFacts.
Context {IM : Imaging} {CO : Collaborators}.

Lemma overlay_frame_off (cfg : Config) (st : TrackState) (frame : Frame)
    (dets : list Det) (tb : BBox) :
  debugging cfg = false -> overlay_frame cfg st frame dets tb = Ok frame.
Proof. intro H. unfold overlay_frame. now rewrite H. Qed.

Lemma acquire_off (cfg : Config) (st : TrackState) (frame : Frame)
    (dets : list Det) :
  debugging cfg = false -> exists r, acquire cfg st frame dets = Ok r.
Proof.
  intro H. unfold acquire. rewrite H.
  repeat match goal with
         | |- context [if ?b then _ else _] => destruct b
         | |- context [match ?x with _ => _ end] => destruct x
         end; simpl; eauto.
Qed.

Lemma disambiguate_single (cfg : Config) (st : TrackState) (frame cur : Frame)
    (dets : list Det) (pres : option (list PersonDet)) (tb : BBox) :
  count_in_region tb dets = 1%nat ->
  overlay_frame cfg st frame (filter (in_regionb tb) dets) tb = Ok cur ->
  disambiguate cfg st frame dets pres tb =
    Ok (set_prev_bbox tb (set_frames_without_faces 0 st),
        filter (below_regionb tb) dets, cur).
Proof.
  unfold count_in_region. intros Hn Hov.
  unfold disambiguate.
  destruct (containments_ok tb dets) as [rs ->]. simpl.
  rewrite dets_in_tracked_eq. simpl. rewrite Hov. simpl.
  rewrite Hn. simpl.
  unfold single_face_branch. rewrite dets_below_eq. reflexivity.
Qed.

Lemma disambiguate_multi (cfg : Config) (st : TrackState) (frame cur : Frame)
    (dets : list Det) (pres : option (list PersonDet)) (tb : BBox) (n : Z) :
  (1 < count_in_region tb dets)%nat ->
  overlay_frame cfg st frame (filter (in_regionb tb) dets) tb = Ok cur ->
  count_intersecting (person_boxes_of (person_rows cur pres)) tb = Ok n ->
  disambiguate cfg st frame dets pres tb =
    Ok (set_prev_bbox tb (set_frames_without_faces 0 st),
        (if n <=? 1 then filter (below_regionb tb) dets else dets),
        cur).
Proof.
  intros Hn Hov Hc. unfold count_in_region in Hn.
  unfold disambiguate.
  destruct (containments_ok tb dets) as [rs ->]. simpl.
  rewrite dets_in_tracked_eq. simpl. rewrite Hov. simpl.
  destruct (Z.of_nat (length (filter (in_regionb tb) dets)) =? 1) eqn:E1;
    [apply Z.eqb_eq in E1; lia |].
  destruct (1 <? Z.of_nat (length (filter (in_regionb tb) dets))) eqn:E2;
    [| apply Z.ltb_ge in E2; lia].
  unfold multi_face_branch. rewrite Hc. simpl.
  destruct (n <=? 1); simpl.
  - rewrite dets_below_eq. reflexivity.
  - reflexivity.
Qed.

(** An exception of the overlay ends the frame. *)
Lemma disambiguate_overlay_raises (cfg : Config) (st : TrackState)
    (frame : Frame) (dets : list Det) (pres : option (list PersonDet))
    (tb : BBox) (e : exn) :
  overlay_frame cfg st frame (filter (in_regionb tb) dets) tb = Raise e ->
  disambiguate cfg st frame dets pres tb = Raise e.
Proof.
  intro Hov. unfold disambiguate.
  destruct (containments_ok tb dets) as [rs ->]. simpl.
  rewrite dets_in_tracked_eq. simpl. rewrite Hov. reflexivity.
Qed.

End FrameLoopFacts.

(** ** The built-ins on examples *)

Example py_range_up : py_range 0 10 3 = Ok [0; 3; 6; 9].
Proof. reflexivity. Qed.

Example py_range_down : py_range 5 0 (-2) = Ok [5; 3; 1].
Proof. reflexivity. Qed.

Example py_range_empty : py_range 4 4 20 = Ok [].
Proof. reflexivity. Qed.

Example np_round_half_even :
  np_round (5 # 2) = 2 /\ np_round (7 # 2) = 4 /\ np_round (- (5 # 2)) = -2.
Proof. repeat split; reflexivity. Qed.

Example Qtrunc_toward_zero : Qtrunc (- (7 # 2)) = -3 /\ Qtrunc (7 # 2) = 3.
Proof. split; reflexivity. Qed.

(** Section 8 of the specification: the box [100,100,200,200] scaled by 1.3
    becomes [70,70,230,230]. *)
Example scale_bb_thirty_percent :
  scale_bb 100 100 200 200 (13 # 10) = (70, 70, 230, 230).
Proof. reflexivity. Qed.

Example is_image_file_examples :
  is_image_file "a.JPG" = true /\ is_image_file "b.jpeg" = true /\
  is_image_file "readme.md" = false /\ is_image_file "png" = false.
Proof. repeat split; reflexivity. Qed.

Example np_index_wraps :
  np_index [10; 20; 30] (-1) = Ok 30 /\ np_index [10; 20; 30] 3 = Raise IndexError.
Proof. split; reflexivity. Qed.

(** The mosaic of cell size 2 on the four by four picture: every cell takes
    the colour of its top-left pixel. *)
Example mosaic_loops_on_picture :
  mosaic_loops 0 0 3 3 2 demo_picture
  = Ok [[(10, 0, 0); (10, 0, 0); (12, 0, 0); (12, 0, 0)];
        [(10, 0, 0); (10, 0, 0); (12, 0, 0); (12, 0, 0)];
        [(30, 0, 0); (30, 0, 0); (32, 0, 0); (32, 0, 0)];
        [(30, 0, 0); (30, 0, 0); (32, 0, 0); (32, 0, 0)]].
Proof. reflexivity. Qed.

(** A box of negative width and height has a positive computed area and no
    interior: its ratio is 0 wherever it lies. *)
Example calculate_containment_ratio_inverted_box :
  calculate_containment_ratio (mkXYWH 5 5 (-1) (-1)) (mkBBox 0 0 10 10)
  = Ok (0 / 1)%Q.
Proof. reflexivity. Qed.

(** ** Geometry: containment ratio *)

(** C10.  [calculate_containment_ratio] returns on every pair of boxes (the
    division is never reached with a zero divisor); on a detection whose area
    [w * h] is zero or negative it returns 0; on a detection rectangle of
    positive width and height lying wholly inside the tracking box it returns
    1; on boxes separated along an axis (disjoint, or merely touching) it
    returns 0. *)
Theorem containment_ratio_total_and_extremes (d : XYWH) (t : BBox) :
  (exists r : Q, calculate_containment_ratio d t = Ok r) /\
  ((bw d * bh d <= 0)%Q -> calculate_containment_ratio d t = Ok 0%Q) /\
  ((0 < bw d)%Q -> (0 < bh d)%Q ->
   (bx1 t <= bx d)%Q -> (by1 t <= by_ d)%Q ->
   (bx d + bw d <= bx2 t)%Q -> (by_ d + bh d <= by2 t)%Q ->
   exists r : Q, calculate_containment_ratio d t = Ok r /\ (r == 1)%Q) /\
  ((bx d + bw d <= bx1 t \/ bx2 t <= bx d \/
    by_ d + bh d <= by1 t \/ by2 t <= by_ d)%Q ->
   exists r : Q, calculate_containment_ratio d t = Ok r /\ (r == 0)%Q).
Proof.
  split; [apply calculate_containment_ratio_total |].
  split; [apply ratio_degenerate |].
  split; [apply ratio_inside | apply ratio_separated].
Qed.

Lemma containment_ratio_total_and_extremes_witness :
  calculate_containment_ratio (mkXYWH 10 10 0 20) (mkBBox 0 0 100 100) = Ok 0%Q /\
  (exists r : Q,
     calculate_containment_ratio (mkXYWH 10 10 20 20) (mkBBox 0 0 100 100) = Ok r /\
     (r == 1)%Q) /\
  (exists r : Q,
     calculate_containment_ratio (mkXYWH 10 10 20 20) (mkBBox 50 0 100 100) = Ok r /\
     (r == 0)%Q).
Proof.
  split; [| split].
  - apply (containment_ratio_total_and_extremes
             (mkXYWH 10 10 0 20) (mkBBox 0 0 100 100)).
    vm_compute. discriminate.
  - apply (containment_ratio_total_and_extremes
             (mkXYWH 10 10 20 20) (mkBBox 0 0 100 100));
      vm_compute; try reflexivity; discriminate.
  - apply (containment_ratio_total_and_extremes
             (mkXYWH 10 10 20 20) (mkBBox 50 0 100 100)).
    left. vm_compute. discriminate.
Defined.

(** ** Disambiguation *)

(** C1.  On a frame processed while tracking (the tracker update, or the
    recovery after a failed update, yields the tracked box [tb]) on which
    exactly one face detection has containment ratio above one half against
    [tb], once the debugging overlay, if any, is drawn: the frame completes,
    [frames_without_faces] ends at 0, the anonymization set is drawn from
    this frame's detections and contains no detection whose ratio is above
    one half, so the target's detection is not anonymized.  Without
    [debugging] there is no overlay and the frame is the one that came. *)
Theorem single_in_region_face_is_spared {IM : Imaging} {CO : Collaborators}
    (cfg : Config) (st st1 st2 : TrackState) (frame cur : Frame)
    (pres : option (list PersonDet)) (tb : BBox) :
  acquire cfg st frame (centerface frame (threshold cfg)) = Ok (st1, pres) ->
  track_update st1 frame (centerface frame (threshold cfg)) = Ok (st2, Some tb) ->
  count_in_region tb (centerface frame (threshold cfg)) = 1%nat ->
  overlay_frame cfg st2 frame
    (filter (in_regionb tb) (centerface frame (threshold cfg))) tb = Ok cur ->
  (debugging cfg = false -> cur = frame) /\
  exists (st' : TrackState) (anon : list Det),
    frame_step cfg st frame = Ok (st', anon, cur) /\
    frames_without_faces st' = 0 /\
    incl anon (centerface frame (threshold cfg)) /\
    forall d : Det,
      In d (centerface frame (threshold cfg)) ->
      in_regionb tb d = true -> ~ In d anon.
Proof.
  intros Hacq Hupd Hone Hov. split.
  { intro Hd. rewrite (overlay_frame_off cfg st2 frame _ tb Hd) in Hov.
    now inversion Hov. }
  unfold frame_step. rewrite Hacq. cbn [bind]. rewrite Hupd. cbn [bind].
  rewrite (disambiguate_single cfg st2 frame cur _ pres tb Hone Hov).
  do 2 eexists. split; [reflexivity |].
  split; [reflexivity |].
  split.
  - intros d Hd. apply filter_In in Hd. tauto.
  - intros d _ Hin Hanon. apply filter_In in Hanon as [_ Hb].
    rewrite (in_region_not_below tb d Hin) in Hb. discriminate.
Qed.

(** X29.  On a frame processed while tracking on which more than one face
    detection is in region, once the debugging overlay, if any, is drawn,
    let [n] be the number that the loop computes with [boxes_intersect] over
    the person rows of class 0 and confidence at least 0.3.  The frame
    completes; if [n <= 1] no in-region detection is in the anonymization
    set; if [n > 1] every detection of the frame is, the in-region ones
    included. *)
Theorem multi_face_branch_follows_its_count {IM : Imaging} {CO : Collaborators}
    (cfg : Config) (st st1 st2 : TrackState) (frame cur : Frame)
    (pres : option (list PersonDet)) (tb : BBox) :
  acquire cfg st frame (centerface frame (threshold cfg)) = Ok (st1, pres) ->
  track_update st1 frame (centerface frame (threshold cfg)) = Ok (st2, Some tb) ->
  (1 < count_in_region tb (centerface frame (threshold cfg)))%nat ->
  overlay_frame cfg st2 frame
    (filter (in_regionb tb) (centerface frame (threshold cfg))) tb = Ok cur ->
  exists (n : Z) (st' : TrackState) (anon : list Det),
    count_intersecting (person_boxes_of (person_rows cur pres)) tb = Ok n /\
    frame_step cfg st frame = Ok (st', anon, cur) /\
    frames_without_faces st' = 0 /\
    (n <= 1 ->
     forall d : Det,
       In d anon <->
       In d (centerface frame (threshold cfg)) /\ below_regionb tb d = true) /\
    (1 < n -> anon = centerface frame (threshold cfg)).
Proof.
  intros Hacq Hupd Hmany Hov.
  set (dets := centerface frame (threshold cfg)) in *.
  destruct (count_intersecting_total (person_rows cur pres) tb) as [n Hn].
  exists n.
  unfold frame_step. fold dets. rewrite Hacq. cbn [bind]. rewrite Hupd. cbn [bind].
  rewrite (disambiguate_multi cfg st2 frame cur dets pres tb n Hmany Hov Hn).
  do 2 eexists. split; [exact Hn |]. split; [reflexivity |].
  split; [reflexivity |]. split.
  - intros Hle d. apply Z.leb_le in Hle. rewrite Hle. apply filter_In.
  - intros Hgt. destruct (n <=? 1) eqn:E; [apply Z.leb_le in E; lia | reflexivity].
Qed.

(** C2 (defect of the code).  In the crowd scene two faces are in the
    tracked region and exactly one person box shares a point with the
    tracked box; the box of the person to the left, with corners (100,100)
    and (300,500), does not.  The loop counts two intersecting persons, since
    [boxes_intersect] reads the corner boxes as corner and size, and hands
    both in-region faces to the anonymizer, the one of the target
    included. *)
Theorem lone_overlapping_person_is_counted_twice :
  count_in_region crowd_box [face_l; face_r] = 2%nat /\
  person_boxes_of [person_left; person_mid]
  = [[100; 100; 300; 500]%Q; [380; 160; 580; 400]%Q] /\
  ~ rect_share_point (mkBBox 100 100 300 500) crowd_box /\
  rect_share_point (mkBBox 380 160 580 400) crowd_box /\
  count_intersecting (person_boxes_of [person_left; person_mid]) crowd_box
  = Ok 2 /\
  exists st' : @TrackState crowd_collaborators,
    @frame_step demo_imaging crowd_collaborators crowd_config crowd_state
      (demo_frame 1)
    = Ok (st', [face_l; face_r], demo_frame 1) /\
    in_regionb crowd_box face_l = true /\ in_regionb crowd_box face_r = true.
Proof.
  split; [reflexivity |]. split; [reflexivity |]. split.
  { intros (px & py & H). simpl in H. lra. }
  split.
  { exists 400%Q, 200%Q. simpl. repeat split; lra. }
  split; [reflexivity |].
  eexists. repeat split; reflexivity.
Qed.

Lemma single_in_region_face_is_spared_witness :
  (debugging (demo_config 30 "solid") = false -> demo_frame 1 = demo_frame 1) /\
  exists (st' : @TrackState demo_collaborators) (anon : list Det),
    @frame_step demo_imaging demo_collaborators (demo_config 30 "solid")
      initial_state (demo_frame 1) = Ok (st', anon, demo_frame 1) /\
    frames_without_faces st' = 0 /\
    incl anon [face_a] /\
    forall d : Det, In d [face_a] -> in_regionb home_box d = true -> ~ In d anon.
Proof.
  apply (@single_in_region_face_is_spared demo_imaging demo_collaborators
           (demo_config 30 "solid") initial_state
           demo_acquired_state demo_acquired_state
           (demo_frame 1) (demo_frame 1) (Some [person_a]) home_box);
    reflexivity.
Defined.

Lemma multi_face_branch_follows_its_count_witness :
  exists (n : Z) (st' : @TrackState demo_collaborators) (anon : list Det),
    count_intersecting
      (person_boxes_of (@person_rows demo_collaborators (demo_frame 4) None))
      home_box = Ok n /\
    @frame_step demo_imaging demo_collaborators (demo_config 30 "solid")
      demo_tracking_state (demo_frame 4) = Ok (st', anon, demo_frame 4) /\
    frames_without_faces st' = 0 /\
    (n <= 1 ->
     forall d : Det,
       In d anon <-> In d [face_a; face_b] /\ below_regionb home_box d = true) /\
    (1 < n -> anon = [face_a; face_b]).
Proof.
  apply (@multi_face_branch_follows_its_count demo_imaging demo_collaborators
           (demo_config 30 "solid") demo_tracking_state
           demo_tracking_state demo_tracking_state
           (demo_frame 4) (demo_frame 4) None home_box).
  - reflexivity.
  - reflexivity.
  - vm_compute. lia.
  - reflexivity.
Defined.

(** ** Geometry: the intersection test *)

(** On a first box given as corner and size (of non-negative size) and a
    well-formed second box, [boxes_intersect] decides whether the two
    rectangles share a point. *)
Lemma boxes_intersect_xywh (x y w h : Q) (t : BBox) :
  (0 <= w)%Q -> (0 <= h)%Q -> (bx1 t <= bx2 t)%Q -> (by1 t <= by2 t)%Q ->
  exists b : bool,
    boxes_intersect [x; y; w; h] t = Ok b /\
    (b = true <-> rect_share_point (mkBBox x y (x + w) (y + h)) t).
Proof.
  intros Hw Hh Hx Hy. unfold boxes_intersect.
  eexists. split; [reflexivity |].
  rewrite negb_true_iff, !orb_false_iff, !Qltb_ge.
  unfold rect_share_point; simpl. split.
  - intros [[[H1 H2] H3] H4].
    exists (if Qltb x (bx1 t) then bx1 t else x),
           (if Qltb y (by1 t) then by1 t else y).
    destruct (Qltb_cases x (bx1 t)) as [[-> ?] | [-> ?]];
    destruct (Qltb_cases y (by1 t)) as [[-> ?] | [-> ?]];
    repeat split; lra.
  - intros (px & py & ?). repeat split; lra.
Qed.

(** C3 (defect of the code).  The person detector hands over boxes in corner
    format, [boxes_intersect] reads them as corner and size.  The person box
    with corners (100,100) and (300,500) shares no point with the tracked box
    with corners (350,150) and (600,400), and is counted as intersecting it. *)
Theorem corner_person_box_counted_without_overlap :
  person_boxes_of [mkPersonDet 100 100 300 500 (9 # 10) 0]
  = [[100; 100; 300; 500]%Q] /\
  boxes_intersect [100; 100; 300; 500]%Q (mkBBox 350 150 600 400) = Ok true /\
  count_intersecting (person_boxes_of [mkPersonDet 100 100 300 500 (9 # 10) 0])
    (mkBBox 350 150 600 400) = Ok 1 /\
  ~ rect_share_point (mkBBox 100 100 300 500) (mkBBox 350 150 600 400).
Proof.
  repeat split; try reflexivity.
  intros (px & py & H). simpl in H. lra.
Qed.

(** ** The frame counter *)

(** C4 (defect of the code).  From the tracking state, on the frame of scene 2
    no detection is in the tracked region, the recovery succeeds and the
    recovered detection is taken out of the anonymization set; the counter
    ends the frame at 1, not at 0. *)
Theorem recovered_frame_ends_with_counter_one :
  @frame_step demo_imaging demo_collaborators (demo_config 30 "solid")
    initial_state (demo_frame 1)
  = Ok (demo_tracking_state, [], demo_frame 1) /\
  count_in_region drifted_box [face_a] = 0%nat /\
  spec_recover_tracking home_box [face_a] = Some (mkBBox 10 10 50 50) /\
  exists st' : @TrackState demo_collaborators,
    @frame_step demo_imaging demo_collaborators (demo_config 30 "solid")
      demo_tracking_state (demo_frame 2) = Ok (st', [], demo_frame 2) /\
    face_tracker st' = Some tt /\
    frames_without_faces st' = 1.
Proof.
  repeat split; try reflexivity.
  eexists. repeat split; reflexivity.
Qed.

Section CounterFacts.
Context {IM : Imaging} {CO : Collaborators}.

Lemma counter_step_unchanged (cfg : Config) (st st' : TrackState) :
  fwf_writes st' = fwf_writes st ->
  frames_without_faces st' = frames_without_faces st ->
  counter_step cfg st st'.
Proof.
  intros Hw Hc. exists []. unfold counter_ok. simpl. rewrite Hc.
  repeat split; auto; try tauto; contradiction.
Qed.

Lemma acquire_counter (cfg : Config) (st st1 : TrackState) (frame : Frame)
    (dets : list Det) (pres : option (list PersonDet)) :
  acquire cfg st frame dets = Ok (st1, pres) ->
  fwf_writes st1 = fwf_writes st /\
  frames_without_faces st1 = frames_without_faces st.
Proof.
  unfold acquire, bind.
  repeat match goal with
         | |- context [if ?b then _ else _] => destruct b
         | |- context [match ?x with _ => _ end] => destruct x
         end; intro H; inversion H; subst; simpl; auto.
Qed.

Lemma track_update_counter (st st' : TrackState) (frame : Frame)
    (dets : list Det) (tb : option BBox) :
  track_update st frame dets = Ok (st', tb) ->
  fwf_writes st' = fwf_writes st /\
  frames_without_faces st' = frames_without_faces st.
Proof.
  unfold track_update, read_prev_bbox, bind.
  repeat match goal with
         | |- context [match ?x with _ => _ end] => destruct x
         end; intro H; inversion H; subst; simpl; auto.
Qed.

(** The increment followed by the reset test (main.py 677-683). *)
Lemma reset_policy_counter (cfg : Config) (st : TrackState) (c : Z) :
  disable_tracker_reset cfg = false ->
  let st' := reset_policy cfg (set_frames_without_faces (c + 1) st) in
  exists new : list Z,
    fwf_writes st' = new ++ fwf_writes st /\
    (forall v, In v new -> 0 < v -> max_frames_without_faces cfg <= v ->
               searching_reset st') /\
    (0 <= c -> counter_ok cfg st').
Proof.
  intros Hd st'. subst st'. unfold reset_policy, counter_ok, searching_reset.
  rewrite Hd. simpl.
  destruct (max_frames_without_faces cfg <=? c + 1) eqn:E.
  - apply Z.leb_le in E. exists [0; c + 1]. simpl.
    repeat split; auto; lia.
  - apply Z.leb_gt in E. exists [c + 1]. simpl.
    repeat split; auto; try lia.
Qed.

Lemma set_prev_bbox_counter_step (cfg : Config) (st st' : TrackState) (b : BBox) :
  counter_step cfg st st' -> counter_step cfg st (set_prev_bbox b st').
Proof.
  intros (new & Hw & Hreset & Hok). exists new.
  split; [exact Hw |]. split; [| exact Hok].
  intros v Hv Hpos Hge. exact (Hreset v Hv Hpos Hge).
Qed.

Lemma zero_counter_step (cfg : Config) (st : TrackState) :
  counter_step cfg st (set_frames_without_faces 0 st).
Proof.
  exists [0]. unfold counter_ok. simpl. repeat split; auto; lia.
Qed.

Lemma zero_face_branch_counter (cfg : Config) (st st' : TrackState)
    (frame : Frame) (dets anon : list Det) (tb tb' : BBox) :
  disable_tracker_reset cfg = false ->
  zero_face_branch cfg st frame dets tb = Ok (st', anon, tb') ->
  counter_step cfg st st'.
Proof.
  intros Hd. unfold zero_face_branch, read_prev_bbox.
  destruct (prev_bbox st) as [pv |]; [simpl | discriminate].
  destruct (recover_tracking frame pv dets) as [rb |].
  - destruct (init_face_tracker (cvt_rgb2bgr frame) rb) as [trk pv'].
    destruct (find_first _ dets) as [rd |]; [simpl | discriminate].
    intro H. inversion H; subst; clear H.
    match goal with
    | |- counter_step _ _ (reset_policy _ (set_frames_without_faces _ ?s)) =>
        destruct (reset_policy_counter cfg s 0 Hd) as (new & Hw & Hreset & Hok)
    end.
    exists (new ++ [0]). rewrite <- app_assoc. simpl in *.
    split; [exact Hw |]. split.
    + intros v Hv Hpos Hge. apply in_app_or in Hv as [Hv | [<- | []]].
      * apply (Hreset v Hv Hpos Hge).
      * lia.
    + intros _. apply Hok. lia.
  - simpl. intro H. inversion H; subst; clear H.
    destruct (reset_policy_counter cfg st (frames_without_faces st) Hd)
      as (new & Hw & Hreset & Hok).
    exists new. split; [exact Hw |]. split; [exact Hreset |].
    intros [Hc _]. apply Hok, Hc.
Qed.

(** On a successful recovery the frame ends with the counter at 1, or in
    the reset configuration when 1 reaches the maximum: never at 0 with the
    tracker kept. *)
Lemma zero_face_branch_recovered (cfg : Config) (st st' : TrackState)
    (frame : Frame) (dets anon : list Det) (tb tb' pv rb : BBox) :
  prev_bbox st = Some pv ->
  recover_tracking frame pv dets = Some rb ->
  zero_face_branch cfg st frame dets tb = Ok (st', anon, tb') ->
  frames_without_faces st' = 1 \/ searching_reset st'.
Proof.
  intros Hpv Hrec. unfold zero_face_branch, read_prev_bbox.
  rewrite Hpv. simpl. rewrite Hrec.
  destruct (init_face_tracker (cvt_rgb2bgr frame) rb) as [trk pv'].
  destruct (find_first _ dets) as [rd |]; [simpl | discriminate].
  intro H. inversion H; subst; clear H.
  unfold reset_policy, searching_reset.
  destruct (negb (disable_tracker_reset cfg) && _); simpl; auto.
Qed.

Lemma find_first_total {A : Type} (p : A -> result bool) (l : list A) :
  (forall a, exists b, p a = Ok b) -> exists r, find_first p l = Ok r.
Proof.
  intro Hp. induction l as [| a l IH]; simpl; [eauto |].
  destruct (Hp a) as [b ->]. simpl. destruct b; eauto.
Qed.

Lemma acquire_bound (cfg : Config) (st st1 : TrackState) (frame : Frame)
    (dets : list Det) (pres : option (list PersonDet)) :
  tracker_bound st -> acquire cfg st frame dets = Ok (st1, pres) ->
  tracker_bound st1.
Proof.
  unfold acquire, tracker_bound, bind. intro Hb.
  repeat match goal with
         | |- context [if ?b then _ else _] => destruct b
         | |- context [match ?x with _ => _ end] => destruct x eqn:?
         end; intro H; inversion H; subst; simpl; auto; intros _; discriminate.
Qed.

(** The tracker update never raises once [prev_bbox] is bound, and a
    tracked box comes with a bound [prev_bbox]. *)
Lemma track_update_total (st : TrackState) (frame : Frame) (dets : list Det) :
  tracker_bound st ->
  exists (st' : TrackState) (tb : option BBox),
    track_update st frame dets = Ok (st', tb) /\
    tracker_bound st' /\
    (tb <> None -> prev_bbox st' <> None).
Proof.
  unfold track_update, read_prev_bbox, tracker_bound. intro Hb.
  destruct (face_tracker st) as [trk |] eqn:Et.
  - destruct (prev_bbox st) as [pv |] eqn:Ep;
      [| exfalso; apply Hb; [discriminate | reflexivity]].
    cbn [bind].
    destruct (update_face_tracker (cvt_rgb2bgr frame) trk pv) as [trk' [tb |]].
    + do 2 eexists. split; [reflexivity |]. simpl. rewrite Ep.
      split; intros _; discriminate.
    + destruct (recover_tracking frame pv dets) as [rb |].
      * destruct (init_face_tracker (cvt_rgb2bgr frame) rb) as [trk2 pv2].
        do 2 eexists. split; [reflexivity |]. simpl.
        split; intros _; discriminate.
      * do 2 eexists. split; [reflexivity |]. simpl.
        split; [intro H; congruence | intro H; congruence].
  - do 2 eexists. split; [reflexivity |]. rewrite Et.
    split; [intro H; congruence | intro H; congruence].
Qed.

Lemma zero_face_branch_total (cfg : Config) (st : TrackState) (frame : Frame)
    (dets : list Det) (tb : BBox) :
  prev_bbox st <> None ->
  exists (st' : TrackState) (anon : list Det) (tb' : BBox),
    zero_face_branch cfg st frame dets tb = Ok (st', anon, tb').
Proof.
  intro Hp. unfold zero_face_branch, read_prev_bbox.
  destruct (prev_bbox st) as [pv |]; [| congruence]. cbn [bind].
  destruct (recover_tracking frame pv dets) as [rb |].
  - destruct (init_face_tracker (cvt_rgb2bgr frame) rb) as [trk pv'].
    match goal with
    | |- context [find_first ?p dets] =>
        destruct (find_first_total p dets) as [rd ->]
    end.
    + intro d.
      destruct (calculate_containment_ratio_total (det_xywh d) rb) as [r ->].
      simpl. eauto.
    + simpl. eauto.
  - simpl. eauto.
Qed.

Lemma disambiguate_total (cfg : Config) (st : TrackState) (frame : Frame)
    (dets : list Det) (pres : option (list PersonDet)) (tb : BBox) :
  debugging cfg = false ->
  prev_bbox st <> None ->
  exists (st' : TrackState) (anon : list Det),
    disambiguate cfg st frame dets pres tb = Ok (st', anon, frame).
Proof.
  intros Hdbg Hp. unfold disambiguate.
  destruct (containments_ok tb dets) as [rs ->]. simpl.
  rewrite dets_in_tracked_eq. simpl.
  rewrite (overlay_frame_off cfg st frame _ tb Hdbg). simpl.
  destruct (Z.of_nat (length (filter (in_regionb tb) dets)) =? 1).
  - unfold single_face_branch. rewrite dets_below_eq. simpl. eauto.
  - destruct (1 <? Z.of_nat (length (filter (in_regionb tb) dets))).
    + unfold multi_face_branch.
      match goal with
      | |- context [count_intersecting (person_boxes_of ?rows) tb] =>
          destruct (count_intersecting_total rows tb) as [n ->]
      end.
      simpl. destruct (n <=? 1).
      * rewrite dets_below_eq. simpl. eauto.
      * simpl. eauto.
    + destruct (zero_face_branch_total cfg st frame dets tb Hp)
        as (s & a & t & ->).
      simpl. eauto.
Qed.

(** A frame that leaves the disambiguation leaves it with [prev_bbox]
    bound. *)
Lemma disambiguate_prev (cfg : Config) (st st' : TrackState) (frame cur : Frame)
    (dets anon : list Det) (pres : option (list PersonDet)) (tb : BBox) :
  disambiguate cfg st frame dets pres tb = Ok (st', anon, cur) ->
  prev_bbox st' <> None.
Proof.
  unfold disambiguate.
  destruct (mapM _ dets); [cbn [bind] | discriminate].
  destruct (filterM _ dets) as [inr |]; [cbn [bind] | discriminate].
  destruct (overlay_frame cfg st frame inr tb) as [c |]; [cbn [bind] | discriminate].
  match goal with
  | |- bind ?c _ = _ -> _ =>
      destruct c as [[[s1 a1] t1] |]; [cbn [bind] | discriminate]
  end.
  intro H. inversion H; subst. simpl. discriminate.
Qed.

(** A frame that completes keeps [prev_bbox] bound whenever a tracker is
    held. *)
Lemma frame_step_bound (cfg : Config) (st st' : TrackState) (frame cur : Frame)
    (anon : list Det) :
  tracker_bound st ->
  frame_step cfg st frame = Ok (st', anon, cur) ->
  tracker_bound st'.
Proof.
  intros Hb. unfold frame_step.
  destruct (acquire cfg st frame (centerface frame (threshold cfg)))
    as [[st1 pres] |] eqn:Ea; [cbn [bind] | discriminate].
  pose proof (acquire_bound cfg st st1 frame _ pres Hb Ea) as Hb1.
  destruct (track_update_total st1 frame (centerface frame (threshold cfg)) Hb1)
    as (st2 & tb & -> & Hb2 & Hp2).
  cbn [bind]. destruct tb as [tb |].
  - intro H. apply disambiguate_prev in H. intros _. exact H.
  - intro H. inversion H; subst. exact Hb2.
Qed.

(** Without [debugging], one iteration of the tracking logic never raises
    from a state in which a held tracker comes with a bound [prev_bbox], and
    it leaves the frame as it came. *)
Lemma frame_step_total (cfg : Config) (st : TrackState) (frame : Frame) :
  debugging cfg = false ->
  tracker_bound st ->
  exists (st' : TrackState) (anon : list Det),
    frame_step cfg st frame = Ok (st', anon, frame) /\ tracker_bound st'.
Proof.
  intros Hdbg Hb.
  assert (Hex : exists (st' : TrackState) (anon : list Det),
             frame_step cfg st frame = Ok (st', anon, frame)).
  { unfold frame_step.
    destruct (acquire_off cfg st frame (centerface frame (threshold cfg)) Hdbg)
      as [[st1 pres] Ea].
    rewrite Ea. cbn [bind].
    pose proof (acquire_bound cfg st st1 frame _ pres Hb Ea) as Hb1.
    destruct (track_update_total st1 frame (centerface frame (threshold cfg)) Hb1)
      as (st2 & tb & -> & Hb2 & Hp2).
    cbn [bind]. destruct tb as [tb |].
    - apply (disambiguate_total cfg st2 frame _ pres tb Hdbg).
      apply Hp2. discriminate.
    - eauto. }
  destruct Hex as (st' & anon & Hstep).
  exists st', anon. split; [exact Hstep |].
  apply (frame_step_bound cfg st st' frame frame anon Hb Hstep).
Qed.

Lemma run_frames_bound (cfg : Config) (frames : list Frame)
    (st st' : TrackState) :
  tracker_bound st -> run_frames cfg st frames = Ok st' -> tracker_bound st'.
Proof.
  revert st. induction frames as [| f frames IH]; intros st Hb; simpl.
  - intro H. inversion H; subst. exact Hb.
  - unfold process_frame.
    destruct (frame_step cfg st f) as [[[s a] c] |] eqn:E;
      [cbn [bind] | discriminate].
    destruct (anonymize_frame a c _ _ _ _ _ _) as [out |]; [simpl | discriminate].
    apply IH. apply (frame_step_bound cfg st s f c a Hb E).
Qed.

Lemma disambiguate_counter (cfg : Config) (st st' : TrackState) (frame cur : Frame)
    (dets anon : list Det) (pres : option (list PersonDet)) (tb : BBox) :
  disable_tracker_reset cfg = false ->
  disambiguate cfg st frame dets pres tb = Ok (st', anon, cur) ->
  counter_step cfg st st'.
Proof.
  intros Hd. unfold disambiguate.
  destruct (containments_ok tb dets) as [rs ->]. simpl.
  rewrite dets_in_tracked_eq. simpl.
  destruct (overlay_frame cfg st frame _ tb) as [ov |]; [simpl | discriminate].
  destruct (Z.of_nat (length (filter (in_regionb tb) dets)) =? 1).
  - unfold single_face_branch. rewrite dets_below_eq. simpl.
    intro H. inversion H; subst.
    apply set_prev_bbox_counter_step, zero_counter_step.
  - destruct (1 <? Z.of_nat (length (filter (in_regionb tb) dets))).
    + unfold multi_face_branch.
      destruct (count_intersecting _ tb) as [n |]; [simpl | discriminate].
      destruct (n <=? 1).
      * rewrite dets_below_eq. simpl. intro H. inversion H; subst.
        apply set_prev_bbox_counter_step, zero_counter_step.
      * simpl. intro H. inversion H; subst.
        apply set_prev_bbox_counter_step, zero_counter_step.
    + destruct (zero_face_branch cfg st _ dets tb) as [[[s a] t] |] eqn:E;
        [simpl | discriminate].
      intro H. inversion H; subst.
      apply set_prev_bbox_counter_step.
      apply (zero_face_branch_counter cfg st s _ dets anon tb t Hd E).
Qed.

Lemma frame_step_counter (cfg : Config) (st st' : TrackState) (frame cur : Frame)
    (anon : list Det) :
  disable_tracker_reset cfg = false ->
  frame_step cfg st frame = Ok (st', anon, cur) ->
  counter_step cfg st st'.
Proof.
  intros Hd. unfold frame_step.
  destruct (acquire cfg st frame (centerface frame (threshold cfg)))
    as [[st1 pres] |] eqn:Ea; [cbn [bind] | discriminate].
  destruct (acquire_counter cfg st st1 frame _ pres Ea) as [Hw1 Hc1].
  destruct (track_update st1 frame _) as [[st2 tb] |] eqn:E; [simpl | discriminate].
  apply track_update_counter in E as [Hw2 Hc2].
  assert (Hpre : forall s, counter_step cfg st2 s -> counter_step cfg st s).
  { intros s (new & Hw & Hreset & Hok). exists new.
    rewrite Hw, Hw2, Hw1. split; [reflexivity |]. split; [exact Hreset |].
    intro H. apply Hok. unfold counter_ok in *. rewrite Hc2, Hc1. exact H. }
  destruct tb as [tb |].
  - intro H. apply Hpre. apply (disambiguate_counter _ _ _ _ _ _ _ _ _ Hd H).
  - intro H. inversion H; subst. apply Hpre.
    apply counter_step_unchanged; reflexivity.
Qed.

(** Along a run the counter stays a count that is at 0 or below the
    maximum at the end of every frame. *)
Lemma run_frames_counter_ok (cfg : Config) (frames : list Frame)
    (st st' : TrackState) :
  disable_tracker_reset cfg = false ->
  counter_ok cfg st ->
  run_frames cfg st frames = Ok st' ->
  counter_ok cfg st'.
Proof.
  intros Hd. revert st.
  induction frames as [| f frames IH]; intros st Hr; simpl.
  - intro H. inversion H; subst. exact Hr.
  - unfold process_frame.
    destruct (frame_step cfg st f) as [[[s a] c] |] eqn:E; [simpl | discriminate].
    destruct (anonymize_frame a c _ _ _ _ _ _) as [out |]; [simpl | discriminate].
    apply IH.
    destruct (frame_step_counter cfg st s f c a Hd E) as (_ & _ & _ & Hok).
    apply Hok, Hr.
Qed.

End CounterFacts.

(** C5.  With auto-reset enabled, on every frame of a run from the initial
    state whose tracking logic completes: whenever a count assigned to
    [frames_without_faces] during the frame (a positive value) reaches the
    maximum, the frame ends with the tracker discarded, the target no longer
    marked as found and the counter at 0; at the end of the frame the counter
    is at 0 or below the maximum, so no later frame starts with a count at
    the maximum.  Without [debugging] the tracking logic of the frame does
    complete. *)
Theorem counter_reaching_maximum_resets_tracker {IM : Imaging} {CO : Collaborators}
    (cfg : Config) (earlier : list Frame) (st : TrackState) (frame : Frame) :
  disable_tracker_reset cfg = false ->
  run_frames cfg initial_state earlier = Ok st ->
  (debugging cfg = false ->
   exists (st' : TrackState) (anon : list Det),
     frame_step cfg st frame = Ok (st', anon, frame)) /\
  forall (st' : TrackState) (anon : list Det) (cur : Frame),
    frame_step cfg st frame = Ok (st', anon, cur) ->
    (exists new : list Z,
       fwf_writes st' = new ++ fwf_writes st /\
       forall v : Z,
         In v new -> 0 < v -> max_frames_without_faces cfg <= v ->
         face_tracker st' = None /\ target_person_found st' = false /\
         frames_without_faces st' = 0) /\
    0 <= frames_without_faces st' /\
    (frames_without_faces st' = 0 \/
     frames_without_faces st' < max_frames_without_faces cfg).
Proof.
  intros Hd Hrun.
  assert (Hb : tracker_bound st).
  { apply (run_frames_bound cfg earlier initial_state st); [| exact Hrun].
    intro H. exfalso. apply H. reflexivity. }
  split.
  { intro Hdbg.
    destruct (frame_step_total cfg st frame Hdbg Hb) as (st' & anon & Hstep & _).
    eauto. }
  intros st' anon cur Hstep.
  destruct (frame_step_counter cfg st st' frame cur anon Hd Hstep)
    as (new & Hw & Hreset & Hok).
  split.
  - exists new. split; [exact Hw | exact Hreset].
  - apply Hok.
    apply (run_frames_counter_ok cfg earlier initial_state st Hd);
      [unfold counter_ok; simpl; lia | exact Hrun].
Qed.

Lemma counter_reaching_maximum_resets_tracker_witness :
  (debugging (demo_config 1 "solid") = false ->
   exists (st' : @TrackState demo_collaborators) (anon : list Det),
     @frame_step demo_imaging demo_collaborators (demo_config 1 "solid")
       demo_tracking_state (demo_frame 5) = Ok (st', anon, demo_frame 5)) /\
  forall (st' : @TrackState demo_collaborators) (anon : list Det) (cur : Frame),
    @frame_step demo_imaging demo_collaborators (demo_config 1 "solid")
      demo_tracking_state (demo_frame 5) = Ok (st', anon, cur) ->
    (exists new : list Z,
       fwf_writes st' = new ++ fwf_writes demo_tracking_state /\
       forall v : Z,
         In v new -> 0 < v -> 1 <= v ->
         face_tracker st' = None /\ target_person_found st' = false /\
         frames_without_faces st' = 0) /\
    0 <= frames_without_faces st' /\
    (frames_without_faces st' = 0 \/ frames_without_faces st' < 1).
Proof.
  apply (@counter_reaching_maximum_resets_tracker demo_imaging demo_collaborators
           (demo_config 1 "solid") [demo_frame 1] demo_tracking_state
           (demo_frame 5)).
  - reflexivity.
  - reflexivity.
Defined.

(** With a maximum of 1, a frame without any face drives the counter to 1
    and the tracker is discarded at once. *)
Example counter_reaches_one_and_resets :
  @frame_step demo_imaging demo_collaborators (demo_config 1 "solid")
    demo_tracking_state (demo_frame 5)
  = Ok (demo_reset_state, [], demo_frame 5).
Proof. reflexivity. Qed.

(** ** The effect log *)

Lemma written_app (a b : list Event) : written (a ++ b) = written a ++ written b.
Proof.
  induction a as [| e a IH]; simpl; [reflexivity |].
  destruct e; simpl; rewrite IH; reflexivity.
Qed.

Lemma frames_begun_app (a b : list Event) :
  frames_begun (a ++ b) = (frames_begun a + frames_begun b)%nat.
Proof.
  induction a as [| e a IH]; simpl; [reflexivity |].
  destruct e; simpl; rewrite IH; reflexivity.
Qed.

Section PipelineFacts.
Context {IM : Imaging} {CO : Collaborators}.

Lemma run_outputs_length (cfg : Config) (frames : list Frame)
    (st st' : TrackState) (outs : list Frame) :
  run_outputs cfg st frames = Ok (st', outs) -> length outs = length frames.
Proof.
  revert st st' outs.
  induction frames as [| f frames IH]; intros st st' outs; simpl.
  - intro H. inversion H. reflexivity.
  - destruct (process_frame cfg st f) as [[s o] |]; [simpl | discriminate].
    destruct (run_outputs cfg s frames) as [[s' os] |] eqn:E; [simpl | discriminate].
    intro H. inversion H; subst. simpl. f_equal. apply (IH _ _ _ E).
Qed.

(** The output at a position is the frame at that position, processed in
    the state the earlier frames led to. *)
Lemma run_outputs_nth (cfg : Config) (pre post : list Frame) (frame : Frame)
    (st st' : TrackState) (outs : list Frame) :
  run_outputs cfg st (pre ++ frame :: post) = Ok (st', outs) ->
  exists sti sti' : TrackState,
    run_frames cfg st pre = Ok sti /\
    process_frame cfg sti frame = Ok (sti', nth (length pre) outs frame).
Proof.
  revert st st' outs.
  induction pre as [| f pre IH]; intros st st' outs; simpl.
  - destruct (process_frame cfg st frame) as [[s o] |] eqn:E; [simpl | discriminate].
    destruct (run_outputs cfg s post) as [[s' os] |]; [simpl | discriminate].
    intro H. inversion H; subst. simpl. exists st, s. split; [reflexivity | exact E].
  - destruct (process_frame cfg st f) as [[s o] |]; [simpl | discriminate].
    destruct (run_outputs cfg s (pre ++ frame :: post)) as [[s' os] |] eqn:E;
      [simpl | discriminate].
    intro H. inversion H; subst. simpl. apply (IH _ _ _ E).
Qed.

(** A loop that runs to its end without an exception and without a quit key
    appends the outputs of [run_outputs], one per frame. *)
Lemma frame_loop_written (w : World) (cfg : Config) (op : string)
    (frames : list Frame) (st : TrackState) (n : nat) (log log' : list Event) :
  (enable_preview cfg = false \/ forall k, quit_key (wait_key w k) = false) ->
  frame_loop w cfg (Some op) frames st n log = (log', Ok tt) ->
  exists (st' : TrackState) (outs : list Frame),
    run_outputs cfg st frames = Ok (st', outs) /\
    written log' = written log ++ outs.
Proof.
  intro Hq. revert st n log.
  induction frames as [| f frames IH]; intros st n log; simpl.
  - unfold io_ret. intro H. inversion H; subst.
    exists st, []. rewrite app_nil_r. auto.
  - unfold io_bind, emit, io_lift.
    destruct (process_frame cfg st f) as [[s o] |]; [simpl | discriminate].
    assert (Hgo : enable_preview cfg && quit_key (wait_key w n) = false).
    { destruct Hq as [-> | Hk]; [reflexivity | rewrite Hk; apply andb_false_r]. }
    rewrite Hgo. intro H.
    destruct (IH _ _ _ H) as (st' & outs & -> & Hw). simpl.
    exists st', (o :: outs). split; [reflexivity |].
    rewrite Hw, !written_app. simpl. rewrite <- !app_assoc. reflexivity.
Qed.

(** When the container cannot be opened, [video_detect] logs the attempt and
    returns normally. *)
Lemma video_detect_unreadable (w : World) (cfg : Config) (ipath : string)
    (opath : option string) (e : exn) (log : list Event) :
  open_reader w cfg ipath = Raise e ->
  video_detect w cfg ipath opath log = (log ++ [EvOpenReader ipath], Ok tt).
Proof.
  intro H. unfold video_detect, io_bind, emit. rewrite H. reflexivity.
Qed.

Lemma load_target_embeddings_none (w : World) (dir : string) (dbg : bool)
    (imgs : list string) (acc : list Embedding) (log : list Event) :
  Forall (yields_no_embedding w dir dbg) imgs ->
  exists log' : list Event,
    load_target_embeddings w dir dbg imgs acc log = (log', Ok acc) /\
    frames_begun log' = frames_begun log.
Proof.
  intro Hall. revert acc log.
  induction Hall as [| f imgs Hf _ IH]; intros acc log; simpl.
  - unfold io_ret. eauto.
  - unfold io_bind, emit. unfold yields_no_embedding in Hf.
    assert (Hlog : frames_begun (log ++ [EvImread (path_join dir f)])
                   = frames_begun log).
    { rewrite frames_begun_app. simpl. lia. }
    destruct (imread w (path_join dir f)) as [image |].
    + destruct (get_person_embeddings_from_image w image dbg) as [[| e es] | ex];
        try contradiction.
      * rewrite app_nil_r.
        destruct (IH acc (log ++ [EvImread (path_join dir f)])) as (l & -> & Hl).
        exists l. split; [reflexivity | congruence].
      * destruct (IH acc (log ++ [EvImread (path_join dir f)])) as (l & -> & Hl).
        exists l. split; [reflexivity | congruence].
    + destruct (IH acc (log ++ [EvImread (path_join dir f)])) as (l & -> & Hl).
      exists l. split; [reflexivity | congruence].
Qed.

End PipelineFacts.

(** ** The entry point *)

(** C6 (defect of the code).  The container of [corrupt.mp4] cannot be
    opened.  No frame is processed, and the entry point nevertheless returns
    normally with [success] set: [video_detect] swallows the failure and the
    caller cannot tell it from a completed run. *)
Theorem unreadable_video_is_reported_as_success :
  @open_reader demo_imaging demo_collaborators demo_world
     (demo_config 30 "blur"%string) "corrupt.mp4"%string = Raise OSError /\
  @process_video_with_selective_blurring demo_imaging demo_collaborators
     demo_world "corrupt.mp4"%string "target"%string "out.mp4"%string default_options []
  = ([EvCreateModel "yolo11x.pt"%string; EvCreateModel "osnet_x1_0"%string;
      EvCreateModel "centerface"%string; EvImread "target/a.JPG"%string;
      EvImread "target/b.png"%string; EvOpenReader "corrupt.mp4"%string],
     Ok (mkProcessResult true "corrupt.mp4"%string "out.mp4"%string 1 tt)).
Proof.
  split; reflexivity.
Qed.

(** C7.  A missing video path or target directory makes the entry point
    raise [FileNotFoundError] with the log untouched: no model was created
    and no tracker state exists.  When both exist, the models load and the
    directory can be listed, a directory in which no image file yields an
    embedding (in particular one without image files) makes it raise
    [ValueError] before the first iteration of the frame loop. *)
Theorem invalid_inputs_are_rejected_before_any_frame
    {IM : Imaging} {CO : Collaborators} (w : World)
    (video_path target_person_dir output_path : string) (o : Options)
    (log : list Event) :
  ((path_exists w video_path = false \/ path_exists w target_person_dir = false) ->
   process_video_with_selective_blurring w video_path target_person_dir
     output_path o log = (log, Raise FileNotFoundError)) /\
  (path_exists w video_path = true ->
   path_exists w target_person_dir = true ->
   (forall name, create_model w name = Ok tt) ->
   forall names : list string,
     listdir w target_person_dir = Ok names ->
     Forall (yields_no_embedding w target_person_dir (opt_debugging o))
            (filter is_image_file names) ->
     exists log' : list Event,
       process_video_with_selective_blurring w video_path target_person_dir
         output_path o log = (log', Raise ValueError) /\
       frames_begun log' = frames_begun log).
Proof.
  split.
  - intros [H | H]; unfold process_video_with_selective_blurring.
    + rewrite H. reflexivity.
    + destruct (path_exists w video_path); simpl; [rewrite H |]; reflexivity.
  - intros Hv Hd Hm names Hls Hall.
    unfold process_video_with_selective_blurring.
    rewrite Hv, Hd. simpl.
    unfold io_bind, emit, io_lift. rewrite !Hm, Hls.
    assert (Hlog : forall l,
               frames_begun l = frames_begun log ->
               frames_begun l = frames_begun log) by auto.
    match goal with
    | |- context [match filter is_image_file names with _ => _ end ?l] =>
        assert (Hl : frames_begun l = frames_begun log)
          by (rewrite !frames_begun_app; simpl; lia);
        generalize dependent l
    end.
    intros l Hl.
    destruct (filter is_image_file names) as [| f fs] eqn:E.
    + exists l. split; [reflexivity | exact Hl].
    + destruct (load_target_embeddings_none w target_person_dir (opt_debugging o)
                  (f :: fs) [] l Hall) as (l' & -> & Hl').
      exists l'. split; [reflexivity | congruence].
Qed.

Lemma invalid_inputs_are_rejected_before_any_frame_witness :
  @process_video_with_selective_blurring demo_imaging demo_collaborators
    demo_world "missing.mp4"%string "target"%string "out.mp4"%string default_options []
  = ([], Raise FileNotFoundError) /\
  exists log' : list Event,
    @process_video_with_selective_blurring demo_imaging demo_collaborators
      demo_world "clip.mp4"%string "empty_dir"%string "out.mp4"%string default_options []
    = (log', Raise ValueError) /\
    frames_begun log' = frames_begun [].
Proof.
  split.
  - apply (@invalid_inputs_are_rejected_before_any_frame
             demo_imaging demo_collaborators demo_world
             "missing.mp4"%string "target"%string "out.mp4"%string default_options []).
    left. reflexivity.
  - apply (@invalid_inputs_are_rejected_before_any_frame
             demo_imaging demo_collaborators demo_world
             "clip.mp4"%string "empty_dir"%string "out.mp4"%string default_options [])
      with (names := ["notes.txt"%string]).
    + reflexivity.
    + reflexivity.
    + reflexivity.
    + reflexivity.
    + simpl. constructor.
Defined.

(** C8.  When the container opens, the run returns normally and the preview
    does not end it early, the writer received exactly one frame per input
    frame: the frames appended during the run are the outputs of the
    per-frame processing, as many as the input has, and the output at each
    position is the input frame at that position processed in the state the
    earlier frames led to. *)
Theorem output_has_one_frame_per_input_frame
    {IM : Imaging} {CO : Collaborators} (w : World) (cfg : Config)
    (ipath opath : string) (reader : Reader) (meta : Meta)
    (log log' : list Event) :
  open_reader w cfg ipath = Ok (reader, meta) ->
  (enable_preview cfg = false \/ forall k, quit_key (wait_key w k) = false) ->
  video_detect w cfg ipath (Some opath) log = (log', Ok tt) ->
  exists (st : TrackState) (outs : list Frame),
    run_outputs cfg initial_state (iter_data reader) = Ok (st, outs) /\
    written log' = written log ++ outs /\
    length outs = length (iter_data reader) /\
    forall (pre post : list Frame) (frame : Frame),
      iter_data reader = pre ++ frame :: post ->
      exists sti sti' : TrackState,
        run_frames cfg initial_state pre = Ok sti /\
        process_frame cfg sti frame = Ok (sti', nth (length pre) outs frame).
Proof.
  intros Hopen Hq. unfold video_detect, io_bind, emit, io_lift.
  rewrite Hopen.
  destruct (get_writer w opath) as [[] | e]; [| discriminate].
  destruct (frame_loop w cfg (Some opath) (iter_data reader) initial_state 0 _)
    as [l [[] | e]] eqn:E; [| discriminate].
  intro H. inversion H; subst; clear H.
  destruct (frame_loop_written w cfg opath _ _ _ _ _ Hq E) as (st & outs & Hrun & Hw).
  exists st, outs. split; [exact Hrun |]. split; [| split].
  - rewrite !written_app, Hw, !written_app. simpl. rewrite !app_nil_r. reflexivity.
  - apply (run_outputs_length _ _ _ _ _ Hrun).
  - intros pre post frame Hsplit. rewrite Hsplit in Hrun.
    apply (run_outputs_nth _ _ _ _ _ _ _ Hrun).
Qed.

(** ** Frames as pixel functions *)

Lemma mapi_from_length {A B : Type} (g : Z -> A -> B) (l : list A) (i : Z) :
  length (mapi_from i g l) = length l.
Proof.
  revert i. induction l as [| a l IH]; intro i; simpl; [reflexivity |].
  now rewrite IH.
Qed.

Lemma nth_mapi_from {A B : Type} (g : Z -> A -> B) (l : list A) (i : Z)
    (n : nat) (d : A) (d' : B) :
  (n < length l)%nat ->
  nth n (mapi_from i g l) d' = g (i + Z.of_nat n) (nth n l d).
Proof.
  revert i n. induction l as [| a l IH]; intros i n Hn; simpl in *; [lia |].
  destruct n as [| n].
  - simpl. f_equal. lia.
  - rewrite IH by lia. f_equal. lia.
Qed.

Lemma mapi_from_twice {A : Type} (g : Z -> A -> A) (l : list A) (i : Z) :
  (forall k a, g k (g k a) = g k a) ->
  mapi_from i g (mapi_from i g l) = mapi_from i g l.
Proof.
  intro Hg. revert i. induction l as [| a l IH]; intro i; simpl; [reflexivity |].
  now rewrite Hg, IH.
Qed.

Lemma mapi_from_ext {A B : Type} (g h : Z -> A -> B) (l : list A) (i : Z) :
  (forall k a, g k a = h k a) -> mapi_from i g l = mapi_from i h l.
Proof.
  intro Hgh. revert i. induction l as [| a l IH]; intro i; simpl; [reflexivity |].
  now rewrite Hgh, IH.
Qed.

Lemma mapi_from_compose {A : Type} (g h : Z -> A -> A) (l : list A) (i : Z) :
  mapi_from i g (mapi_from i h l) = mapi_from i (fun k a => g k (h k a)) l.
Proof.
  revert i. induction l as [| a l IH]; intro i; simpl; [reflexivity |].
  now rewrite IH.
Qed.

(** Filling the same rectangle with the same colour a second time changes
    nothing, whatever the frame and the corners. *)
Lemma fill_span_twice (f : Frame) (pt1 pt2 : Z * Z) (c : Pixel) :
  fill_span (fill_span f pt1 pt2 c) pt1 pt2 c
  = fill_span f pt1 pt2 c.
Proof.
  unfold fill_span, mapi.
  rewrite mapi_from_compose. apply mapi_from_ext. intros y row.
  rewrite mapi_from_compose. apply mapi_from_ext. intros x p.
  destruct (in_span (snd pt1) (snd pt2) y && in_span (fst pt1) (fst pt2) x);
    reflexivity.
Qed.

Lemma frame_rect_row (f : Frame) (n : nat) :
  frame_rect f -> (n < length f)%nat ->
  Z.of_nat (length (nth n f [])) = frame_width f.
Proof.
  unfold frame_rect. intros Hwf Hn.
  rewrite Forall_forall in Hwf. apply Hwf. now apply nth_In.
Qed.

Lemma fill_span_height (f : Frame) (pt1 pt2 : Z * Z) (c : Pixel) :
  frame_height (fill_span f pt1 pt2 c) = frame_height f.
Proof.
  unfold frame_height, fill_span, mapi. now rewrite mapi_from_length.
Qed.

Lemma fill_span_width (f : Frame) (pt1 pt2 : Z * Z) (c : Pixel) :
  frame_width (fill_span f pt1 pt2 c) = frame_width f.
Proof.
  unfold frame_width, fill_span, mapi.
  destruct f as [| row f]; simpl; [reflexivity |].
  now rewrite mapi_from_length.
Qed.

Lemma fill_span_wf (f : Frame) (pt1 pt2 : Z * Z) (c : Pixel) :
  frame_rect f -> frame_rect (fill_span f pt1 pt2 c).
Proof.
  intro Hwf. unfold frame_rect. rewrite fill_span_width.
  apply Forall_forall. intros row Hrow.
  apply (In_nth _ _ []) in Hrow as (n & Hn & <-).
  unfold fill_span, mapi in *. rewrite mapi_from_length in Hn.
  rewrite (nth_mapi_from _ f 0 n [] [] Hn), mapi_from_length.
  now apply frame_rect_row.
Qed.

Lemma pix_fill_span (f : Frame) (pt1 pt2 : Z * Z) (c : Pixel) (p : Z * Z) :
  frame_rect f -> in_bounds f p ->
  pix (fill_span f pt1 pt2 c) (fst p) (snd p)
  = if in_span (snd pt1) (snd pt2) (fst p) && in_span (fst pt1) (fst pt2) (snd p)
    then c else pix f (fst p) (snd p).
Proof.
  intros Hwf [Hy Hx]. unfold frame_height in Hy.
  unfold pix, fill_span, mapi.
  assert (Hn : (Z.to_nat (fst p) < length f)%nat) by lia.
  rewrite (nth_mapi_from _ f 0 _ [] [] Hn).
  pose proof (frame_rect_row f _ Hwf Hn) as Hrow.
  rewrite (nth_mapi_from _ _ 0 _ (0, 0, 0) (0, 0, 0));
    [| unfold Pixel in *; lia].
  rewrite !Z.add_0_l, !Z2Nat.id by lia. reflexivity.
Qed.

Lemma np_index_in_range {A : Type} (l : list A) (i : Z) (d : A) :
  0 <= i < Z.of_nat (length l) -> np_index l i = Ok (nth (Z.to_nat i) l d).
Proof.
  intro Hi. unfold np_index.
  destruct (i <? 0) eqn:E; [apply Z.ltb_lt in E; lia |].
  destruct ((0 <=? i) && (i <? Z.of_nat (length l))) eqn:E2.
  - rewrite (nth_error_nth' l d) by lia. reflexivity.
  - apply andb_false_iff in E2 as [E2 | E2];
      [apply Z.leb_gt in E2 | apply Z.ltb_ge in E2]; lia.
Qed.

Lemma frame_get_in_bounds (f : Frame) (p : Z * Z) :
  frame_rect f -> in_bounds f p ->
  frame_get f (fst p) (snd p) = Ok (pix f (fst p) (snd p)).
Proof.
  intros Hwf [Hy Hx]. unfold frame_height in Hy. unfold frame_get, pix.
  rewrite (np_index_in_range f _ []) by lia. simpl.
  apply np_index_in_range.
  rewrite (frame_rect_row f _ Hwf) by lia. exact Hx.
Qed.

(** Two well-formed frames of the same shape with the same pixels are the
    same frame. *)
Lemma frame_ext (f g : Frame) :
  frame_rect f -> frame_rect g ->
  frame_height f = frame_height g -> frame_width f = frame_width g ->
  (forall p, in_bounds f p -> pix f (fst p) (snd p) = pix g (fst p) (snd p)) ->
  f = g.
Proof.
  intros Hf Hg Hh Hw Hpix. unfold frame_height in Hh.
  apply (nth_ext f g [] []); [lia |].
  intros n Hn.
  assert (Hn' : (n < length g)%nat) by lia.
  pose proof (frame_rect_row f n Hf Hn) as Hrf.
  pose proof (frame_rect_row g n Hg Hn') as Hrg.
  apply (nth_ext _ _ (0, 0, 0) (0, 0, 0)); [unfold Pixel in *; lia |].
  intros m Hm.
  specialize (Hpix (Z.of_nat n, Z.of_nat m)).
  unfold pix in Hpix. simpl in Hpix. rewrite !Nat2Z.id in Hpix.
  apply Hpix. unfold in_bounds, frame_height. simpl. unfold Pixel in *. lia.
Qed.

(** ** Painting cells *)

Section Painting.
Variable rect : Z * Z -> Z * Z -> bool.

Lemma paint_ext (P : Z * Z -> Prop) (cells : list (Z * Z)) :
  Forall P cells ->
  forall phi psi : Z * Z -> Pixel,
    (forall q, P q -> phi q = psi q) ->
    forall p, P p -> paint rect cells phi p = paint rect cells psi p.
Proof.
  induction 1 as [| o cells Ho _ IH]; intros phi psi Heq p Hp; simpl.
  - now apply Heq.
  - apply IH; [| exact Hp].
    intros q Hq. rewrite (Heq o Ho), (Heq q Hq). reflexivity.
Qed.

(** When every point lies in the rectangle of at most one origin, named by
    [key], and every origin lies in its own rectangle, painting gives each
    covered point the original colour of the origin of its cell. *)
Lemma paint_key (key : Z * Z -> option (Z * Z)) (cells : list (Z * Z)) :
  (forall o, In o cells -> rect o o = true) ->
  (forall o, In o cells -> forall p, rect o p = true <-> key p = Some o) ->
  forall (phi : Z * Z -> Pixel) (p : Z * Z),
    paint rect cells phi p =
    match key p with
    | Some o => if in_dec cell_eq_dec o cells then phi o else phi p
    | None => phi p
    end.
Proof.
  induction cells as [| o cells IH]; intros Hown Hkey phi p.
  - simpl. destruct (key p); reflexivity.
  - cbn [paint].
    rewrite IH;
      [| intros o' Ho'; apply Hown; now right
       | intros o' Ho'; apply Hkey; now right].
    assert (Hrect : forall q, rect o q = true <-> key q = Some o)
      by (apply Hkey; now left).
    destruct (key p) as [o' |] eqn:Ek.
    + destruct (in_dec cell_eq_dec o' cells) as [Hin | Hnin].
      * assert (Ko' : key o' = Some o').
        { apply (Hkey o' (or_intror Hin)), Hown. now right. }
        destruct (in_dec cell_eq_dec o' (o :: cells)) as [_ | Hn];
          [| exfalso; apply Hn; now right].
        destruct (rect o o') eqn:Er; [| reflexivity].
        apply Hrect in Er. congruence.
      * destruct (rect o p) eqn:Er.
        -- apply Hrect in Er. assert (o' = o) by congruence. subst o'.
           destruct (in_dec cell_eq_dec o (o :: cells)) as [_ | Hn];
             [reflexivity | exfalso; apply Hn; now left].
        -- destruct (in_dec cell_eq_dec o' (o :: cells)) as [[Heq | Hin] | _];
             [| contradiction | reflexivity].
           subst o'. apply Hrect in Ek. congruence.
    + destruct (rect o p) eqn:Er; [| reflexivity].
      apply Hrect in Er. congruence.
Qed.

Lemma paint_twice_key (key : Z * Z -> option (Z * Z)) (cells : list (Z * Z)) :
  (forall o, In o cells -> rect o o = true) ->
  (forall o, In o cells -> forall p, rect o p = true <-> key p = Some o) ->
  forall (phi : Z * Z -> Pixel) (p : Z * Z),
    paint rect cells (paint rect cells phi) p = paint rect cells phi p.
Proof.
  intros Hown Hkey phi p.
  rewrite (paint_key key cells Hown Hkey (paint rect cells phi) p).
  destruct (key p) as [o |] eqn:Ek; [| reflexivity].
  destruct (in_dec cell_eq_dec o cells) as [Hin | Hnin]; [| reflexivity].
  rewrite (paint_key key cells Hown Hkey phi o).
  rewrite (paint_key key cells Hown Hkey phi p).
  assert (Ko : key o = Some o) by (apply (Hkey o Hin), Hown, Hin).
  rewrite Ko, Ek.
  destruct (in_dec cell_eq_dec o cells); [reflexivity | contradiction].
Qed.

(** When all origins carry the same colour, painting spreads that colour
    over the covered points. *)
Lemma paint_uniform (cells : list (Z * Z)) :
  forall (psi : Z * Z -> Pixel) (v : Pixel),
    Forall (fun o => psi o = v) cells ->
    forall p,
      paint rect cells psi p =
      if existsb (fun o => rect o p) cells then v else psi p.
Proof.
  induction cells as [| o cells IH]; intros psi v Hall p; simpl.
  - reflexivity.
  - inversion Hall as [| ? ? Ho Hrest]; subst.
    rewrite (IH _ (psi o)).
    + destruct (existsb (fun o' => rect o' p) cells);
        [now rewrite orb_true_r |].
      rewrite orb_false_r. reflexivity.
    + apply Forall_forall. intros o' Ho'.
      rewrite Forall_forall in Hrest.
      destruct (rect o o'); [reflexivity | now apply Hrest].
Qed.

(** When the rectangle of the first cell holds every origin, painting a
    second time changes nothing. *)
Lemma paint_twice_nested (o : Z * Z) (cells : list (Z * Z)) :
  Forall (fun o' => rect o o' = true) (o :: cells) ->
  forall (phi : Z * Z -> Pixel) (p : Z * Z),
    paint rect (o :: cells) (paint rect (o :: cells) phi) p
    = paint rect (o :: cells) phi p.
Proof.
  intros Hall phi p.
  inversion Hall as [| ? ? Hoo Hrest]; subst.
  assert (Hone : forall q,
             paint rect (o :: cells) phi q =
             if existsb (fun o' => rect o' q) (o :: cells) then phi o else phi q).
  { intro q. cbn [paint].
    rewrite (paint_uniform cells _ (phi o)).
    - simpl. destruct (existsb (fun o' => rect o' q) cells);
        [now rewrite orb_true_r |].
      rewrite orb_false_r. reflexivity.
    - apply Forall_forall. intros o' Ho'.
      rewrite Forall_forall in Hrest. now rewrite (Hrest o' Ho'). }
  assert (Hoc : paint rect (o :: cells) phi o = phi o).
  { rewrite Hone. simpl. now rewrite Hoo. }
  remember (paint rect (o :: cells) phi) as F eqn:HF.
  cbn [paint].
  rewrite (paint_uniform cells _ (phi o)).
  - rewrite Hoc, !Hone. simpl.
    destruct (rect o p); simpl;
      destruct (existsb (fun o' => rect o' p) cells); reflexivity.
  - apply Forall_forall. intros o' Ho'.
    rewrite Forall_forall in Hrest. rewrite (Hrest o' Ho'). exact Hoc.
Qed.

End Painting.

(** ** Ranges and loops *)

Lemma for_each_app {A S : Type} (a b : list A) (body : A -> S -> result S) (s : S) :
  for_each (a ++ b) body s = (s' <- for_each a body s ;; for_each b body s').
Proof.
  revert s. induction a as [| x a IH]; intro s; simpl; [reflexivity |].
  destruct (body x s) as [s1 |]; simpl; [apply IH | reflexivity].
Qed.

Lemma for_each_map {A B S : Type} (h : A -> B) (l : list A)
    (body : B -> S -> result S) (s : S) :
  for_each (map h l) body s = for_each l (fun a => body (h a)) s.
Proof.
  revert s. induction l as [| x l IH]; intro s; simpl; [reflexivity |].
  destruct (body (h x) s) as [s1 |]; simpl; [apply IH | reflexivity].
Qed.

(** Two nested loops are one loop over the pairs, rows first. *)
Lemma for_each_prod {A B S : Type} (ys : list A) (xs : list B)
    (g : A -> B -> S -> result S) (s : S) :
  for_each ys (fun y s' => for_each xs (g y) s') s
  = for_each (list_prod ys xs) (fun o => g (fst o) (snd o)) s.
Proof.
  revert s. induction ys as [| y ys IH]; intro s; simpl; [reflexivity |].
  rewrite for_each_app, for_each_map. simpl.
  change (fun a : B => g y a) with (g y).
  destruct (for_each xs (g y) s) as [s1 |]; simpl; [apply IH | reflexivity].
Qed.

Lemma div_between (d s k : Z) :
  0 < s -> k * s <= d < k * s + s -> d / s = k.
Proof.
  intros Hs Hd. symmetry. apply (Z.div_unique d s k (d - k * s)); lia.
Qed.

Lemma div_floor_bounds (d s : Z) :
  0 < s -> d / s * s <= d < d / s * s + s.
Proof.
  intro Hs. pose proof (Z.div_mod d s ltac:(lia)) as H.
  pose proof (Z.mod_pos_bound d s Hs). lia.
Qed.

Lemma py_range_nonzero (a b s : Z) :
  s <> 0 -> exists l, py_range a b s = Ok l.
Proof.
  intro Hs. unfold py_range.
  destruct (s =? 0) eqn:E; [apply Z.eqb_eq in E; contradiction | eauto].
Qed.

Lemma py_range_zero (a b : Z) : py_range a b 0 = Raise ValueError.
Proof. reflexivity. Qed.

(** The elements of a range with a positive step. *)
Lemma py_range_pos_In (a b s : Z) (l : list Z) (x : Z) :
  0 < s -> py_range a b s = Ok l -> In x l ->
  a <= x < b /\ exists k, 0 <= k /\ x = a + k * s.
Proof.
  intros Hs. unfold py_range, range_len.
  destruct (s =? 0) eqn:E; [apply Z.eqb_eq in E; lia |].
  destruct (0 <? s) eqn:E2; [| apply Z.ltb_ge in E2; lia].
  intro H. inversion H; subst; clear H.
  intro Hx. apply in_map_iff in Hx as (k & <- & Hk). apply in_seq in Hk.
  pose proof (div_floor_bounds (b - a + s - 1) s Hs) as Hq.
  split; [| exists (Z.of_nat k); lia].
  nia.
Qed.

(** The elements of a range with a negative step. *)
Lemma py_range_neg_In (a b s : Z) (l : list Z) (x : Z) :
  s < 0 -> py_range a b s = Ok l -> In x l -> b < x <= a.
Proof.
  intros Hs. unfold py_range, range_len.
  destruct (s =? 0) eqn:E; [apply Z.eqb_eq in E; lia |].
  destruct (0 <? s) eqn:E2; [apply Z.ltb_lt in E2; lia |].
  intro H. inversion H; subst; clear H.
  intro Hx. apply in_map_iff in Hx as (k & <- & Hk). apply in_seq in Hk.
  pose proof (div_floor_bounds (a - b - s - 1) (- s) ltac:(lia)) as Hq.
  nia.
Qed.

(** A range that is not empty begins at its start. *)
Lemma py_range_head (a b s x : Z) (t : list Z) :
  py_range a b s = Ok (x :: t) -> x = a.
Proof.
  unfold py_range. destruct (s =? 0); [discriminate |].
  intro H. inversion H as [H1]; clear H.
  destruct (Z.to_nat (range_len a b s)); simpl in H1; [discriminate |].
  inversion H1. lia.
Qed.

(** ** The mosaic as a painting *)

Lemma in_bounds_same_shape (f g : Frame) (p : Z * Z) :
  frame_height g = frame_height f -> frame_width g = frame_width f ->
  in_bounds f p -> in_bounds g p.
Proof.
  unfold in_bounds. intros -> ->. tauto.
Qed.

(** Running the cell bodies over a list of in-bounds origins succeeds, keeps
    the shape of the frame, and leaves the pixels that [paint] computes. *)
Lemma mosaic_cells_spec (x2 y2 ms : Z) (cells : list (Z * Z)) :
  forall f : Frame,
    frame_rect f -> Forall (in_bounds f) cells ->
    exists F : Frame,
      for_each cells (fun o => mosaic_cell_px x2 y2 ms (fst o) (snd o)) f = Ok F /\
      frame_rect F /\
      frame_height F = frame_height f /\
      frame_width F = frame_width f /\
      forall p, in_bounds f p ->
        pix F (fst p) (snd p)
        = paint (cell_rect x2 y2 ms) cells (fun q => pix f (fst q) (snd q)) p.
Proof.
  induction cells as [| o cells IH]; intros f Hwf Hall.
  - exists f. simpl. repeat split; auto.
  - inversion Hall as [| ? ? Ho Hrest]; subst.
    cbn [for_each]. unfold mosaic_cell_px at 1.
    rewrite (frame_get_in_bounds f o Hwf Ho). cbn [bind].
    set (f1 := fill_span f (snd o, fst o)
                 (Z.min x2 (snd o + ms - 1), Z.min y2 (fst o + ms - 1))
                 (pix f (fst o) (snd o))).
    assert (Hwf1 : frame_rect f1) by (apply fill_span_wf, Hwf).
    assert (Hh1 : frame_height f1 = frame_height f)
      by apply fill_span_height.
    assert (Hw1 : frame_width f1 = frame_width f)
      by apply fill_span_width.
    assert (Hall1 : Forall (in_bounds f1) cells).
    { apply Forall_forall. intros q Hq. rewrite Forall_forall in Hrest.
      apply (in_bounds_same_shape f f1 q Hh1 Hw1), Hrest, Hq. }
    destruct (IH f1 Hwf1 Hall1) as (F & HF & HwfF & HhF & HwF & Hpix).
    exists F. split; [exact HF |]. split; [exact HwfF |].
    split; [congruence |]. split; [congruence |].
    intros p Hp. rewrite (Hpix p (in_bounds_same_shape f f1 p Hh1 Hw1 Hp)).
    cbn [paint].
    apply (paint_ext (cell_rect x2 y2 ms) (in_bounds f) cells Hrest); [| exact Hp].
    intros q Hq. unfold f1.
    rewrite (pix_fill_span f _ _ _ q Hwf Hq). reflexivity.
Qed.

Lemma in_span_left (a b : Z) : in_span a b a = true.
Proof.
  unfold in_span. apply andb_true_iff. split; apply Z.leb_le; lia.
Qed.

Lemma cell_rect_own (x2 y2 ms : Z) (o : Z * Z) : cell_rect x2 y2 ms o o = true.
Proof.
  unfold cell_rect. now rewrite !in_span_left.
Qed.

(** Along one axis, with a positive step: a point lies in the span of a cell
    exactly when the cell's origin is the one computed from the point. *)
Lemma span_key (a b s y py : Z) :
  0 < s -> a <= y < b -> (exists k, 0 <= k /\ y = a + k * s) ->
  in_span y (Z.min b (y + s - 1)) py = true
  <-> (a <= py /\ py <= b /\ a + (py - a) / s * s = y).
Proof.
  intros Hs Hy (k & Hk & Hyk). unfold in_span.
  rewrite andb_true_iff, !Z.leb_le. split.
  - intros [H1 H2]. repeat split; try lia.
    rewrite (div_between (py - a) s k Hs); lia.
  - intros (H1 & H2 & H3).
    pose proof (div_floor_bounds (py - a) s Hs). lia.
Qed.

Lemma list_prod_nil_right {A B : Type} (l : list A) : list_prod l (@nil B) = [].
Proof. induction l; simpl; auto. Qed.

Section MosaicCells.
Variables x1 y1 x2 y2 ms : Z.
Variables ys xs : list Z.
Hypothesis Hys : py_range y1 y2 ms = Ok ys.
Hypothesis Hxs : py_range x1 x2 ms = Ok xs.

Lemma mosaic_loops_cells (f : Frame) :
  mosaic_loops_px x1 y1 x2 y2 ms f
  = for_each (list_prod ys xs)
      (fun o => mosaic_cell_px x2 y2 ms (fst o) (snd o)) f.
Proof.
  unfold mosaic_loops_px. rewrite Hys, Hxs. cbn [bind].
  apply (for_each_prod ys xs (mosaic_cell_px x2 y2 ms) f).
Qed.

Lemma mosaic_cells_in_bounds (f : Frame) :
  in_bounds f (y1, x1) -> in_bounds f (y2, x2) ->
  Forall (in_bounds f) (list_prod ys xs).
Proof.
  unfold in_bounds. simpl. intros [Hy1 Hx1] [Hy2 Hx2].
  apply Forall_forall. intros [y x] Hin. apply in_prod_iff in Hin as [Hy Hx].
  simpl.
  destruct (Z.lt_trichotomy ms 0) as [Hneg | [Hz | Hpos]].
  - pose proof (py_range_neg_In _ _ _ _ _ Hneg Hys Hy).
    pose proof (py_range_neg_In _ _ _ _ _ Hneg Hxs Hx). lia.
  - subst ms. rewrite py_range_zero in Hys. discriminate.
  - destruct (py_range_pos_In _ _ _ _ _ Hpos Hys Hy) as [? _].
    destruct (py_range_pos_In _ _ _ _ _ Hpos Hxs Hx) as [? _]. lia.
Qed.

Lemma mosaic_cells_key (o p : Z * Z) :
  0 < ms -> In o (list_prod ys xs) ->
  cell_rect x2 y2 ms o p = true <-> cell_key x1 y1 x2 y2 ms p = Some o.
Proof.
  intros Hpos Hin. destruct o as [y x]. apply in_prod_iff in Hin as [Hy Hx].
  destruct (py_range_pos_In _ _ _ _ _ Hpos Hys Hy) as [Hyb Hyk].
  destruct (py_range_pos_In _ _ _ _ _ Hpos Hxs Hx) as [Hxb Hxk].
  unfold cell_rect, cell_key. simpl.
  rewrite andb_true_iff.
  rewrite (span_key y1 y2 ms y (fst p) Hpos Hyb Hyk).
  rewrite (span_key x1 x2 ms x (snd p) Hpos Hxb Hxk).
  destruct ((y1 <=? fst p) && (fst p <=? y2) && (x1 <=? snd p) && (snd p <=? x2))
    eqn:E.
  - rewrite !andb_true_iff, !Z.leb_le in E. split.
    + intros [(_ & _ & <-) (_ & _ & <-)]. reflexivity.
    + intro H. inversion H. lia.
  - split; [| discriminate].
    intros [(? & ? & _) (? & ? & _)].
    rewrite !andb_false_iff, !Z.leb_gt in E. lia.
Qed.

(** With a negative step the first cell holds every origin. *)
Lemma mosaic_cells_nested (o : Z * Z) (rest : list (Z * Z)) :
  ms < 0 -> list_prod ys xs = o :: rest ->
  Forall (fun o' => cell_rect x2 y2 ms o o' = true) (o :: rest).
Proof.
  intros Hneg Hprod. rewrite <- Hprod.
  assert (Ho : o = (y1, x1)).
  { destruct ys as [| y ys']; [discriminate |].
    destruct xs as [| x xs'];
      [rewrite list_prod_nil_right in Hprod; discriminate |].
    simpl in Hprod. inversion Hprod.
    rewrite (py_range_head _ _ _ _ _ Hys), (py_range_head _ _ _ _ _ Hxs).
    reflexivity. }
  subst o. apply Forall_forall. intros [y x] Hin.
  apply in_prod_iff in Hin as [Hy Hx].
  pose proof (py_range_neg_In _ _ _ _ _ Hneg Hys Hy).
  pose proof (py_range_neg_In _ _ _ _ _ Hneg Hxs Hx).
  unfold cell_rect, in_span. simpl.
  rewrite !andb_true_iff, !Z.leb_le. lia.
Qed.

(** Painting the cells of the mosaic a second time changes nothing. *)
Lemma mosaic_cells_paint_twice (phi : Z * Z -> Pixel) (p : Z * Z) :
  paint (cell_rect x2 y2 ms) (list_prod ys xs)
    (paint (cell_rect x2 y2 ms) (list_prod ys xs) phi) p
  = paint (cell_rect x2 y2 ms) (list_prod ys xs) phi p.
Proof.
  destruct (Z.lt_trichotomy ms 0) as [Hneg | [Hz | Hpos]].
  - destruct (list_prod ys xs) as [| o rest] eqn:E; [reflexivity |].
    apply paint_twice_nested, (mosaic_cells_nested o rest Hneg E).
  - subst ms. rewrite py_range_zero in Hys. discriminate.
  - apply (paint_twice_key _ (cell_key x1 y1 x2 y2 ms)).
    + intros o _. apply cell_rect_own.
    + intros o Ho q. apply (mosaic_cells_key o q Hpos Ho).
Qed.

End MosaicCells.

(** On a well-formed frame and corners inside it, the mosaic loops with a
    non-zero cell size succeed, and running them again on their own output
    returns that output. *)
Lemma mosaic_loops_twice (x1 y1 x2 y2 ms : Z) (f : Frame) :
  frame_rect f -> in_bounds f (y1, x1) -> in_bounds f (y2, x2) -> ms <> 0 ->
  exists F : Frame,
    mosaic_loops_px x1 y1 x2 y2 ms f = Ok F /\
    mosaic_loops_px x1 y1 x2 y2 ms F = Ok F.
Proof.
  intros Hwf Hb1 Hb2 Hms.
  destruct (py_range_nonzero y1 y2 ms Hms) as [ys Hys].
  destruct (py_range_nonzero x1 x2 ms Hms) as [xs Hxs].
  rewrite (mosaic_loops_cells x1 y1 x2 y2 ms ys xs Hys Hxs f).
  pose proof (mosaic_cells_in_bounds x1 y1 x2 y2 ms ys xs Hys Hxs f Hb1 Hb2)
    as Hcells.
  destruct (mosaic_cells_spec x2 y2 ms _ f Hwf Hcells)
    as (F & HF & HwfF & HhF & HwF & HpixF).
  exists F. split; [exact HF |].
  rewrite (mosaic_loops_cells x1 y1 x2 y2 ms ys xs Hys Hxs F).
  assert (HcellsF : Forall (in_bounds F) (list_prod ys xs)).
  { apply Forall_forall. intros q Hq. rewrite Forall_forall in Hcells.
    apply (in_bounds_same_shape f F q HhF HwF), Hcells, Hq. }
  destruct (mosaic_cells_spec x2 y2 ms _ F HwfF HcellsF)
    as (G & HG & HwfG & HhG & HwG & HpixG).
  rewrite HG. f_equal.
  apply frame_ext; auto.
  intros p Hp.
  assert (HpF : in_bounds F p) by (apply (in_bounds_same_shape G F p); auto).
  assert (Hpf : in_bounds f p)
    by (apply (in_bounds_same_shape F f p); [symmetry | symmetry |]; auto).
  rewrite (HpixG p HpF), (HpixF p Hpf).
  rewrite <- (mosaic_cells_paint_twice x1 y1 x2 y2 ms ys xs Hys Hxs
                (fun q => pix f (fst q) (snd q)) p).
  apply (paint_ext (cell_rect x2 y2 ms) (in_bounds f) _ Hcells); [| exact Hpf].
  intros q Hq. apply (HpixF q Hq).
Qed.

(** ** Coordinates as C ints *)

Lemma fits_int_iff (z : Z) : fits_int z = true <-> INT_MIN <= z <= INT_MAX.
Proof.
  unfold fits_int. rewrite andb_true_iff, !Z.leb_le. tauto.
Qed.

Lemma point_fits_iff (pt : Z * Z) :
  point_fits pt = true <->
  INT_MIN <= fst pt <= INT_MAX /\ INT_MIN <= snd pt <= INT_MAX.
Proof.
  unfold point_fits. rewrite andb_true_iff, !fits_int_iff. tauto.
Qed.

Lemma cv2_rectangle_filled_fits (f : Frame) (pt1 pt2 : Z * Z) (c : Pixel) :
  point_fits pt1 = true -> point_fits pt2 = true ->
  cv2_rectangle_filled f pt1 pt2 c = Ok (fill_span f pt1 pt2 c).
Proof.
  intros H1 H2. unfold cv2_rectangle_filled. now rewrite H1, H2.
Qed.

Lemma frame_wf_shape (f0 f : Frame) :
  frame_height f = frame_height f0 -> frame_width f = frame_width f0 ->
  frame_rect f -> frame_wf f0 -> frame_wf f.
Proof.
  intros Hh Hw Hr (_ & H1 & H2). unfold frame_wf. rewrite Hh, Hw. auto.
Qed.

Lemma for_each_ext_in {A S : Type} (body body' : A -> S -> result S)
    (l : list A) :
  (forall a s, In a l -> body a s = body' a s) ->
  forall s, for_each l body s = for_each l body' s.
Proof.
  induction l as [| a l IH]; intros H s; simpl; [reflexivity |].
  rewrite (H a s (or_introl eq_refl)).
  destruct (body' a s) as [s1 |]; simpl; [| reflexivity].
  apply IH. intros b t Hb. apply H. now right.
Qed.

(** When the corners of every cell fit a C [int], the mosaic loops are the
    pixel operations. *)
Lemma mosaic_loops_fits (x1 y1 x2 y2 ms : Z) (ys xs : list Z) :
  py_range y1 y2 ms = Ok ys -> py_range x1 x2 ms = Ok xs ->
  (forall y x, In y ys -> In x xs ->
     point_fits (x, y) = true /\
     point_fits (Z.min x2 (x + ms - 1), Z.min y2 (y + ms - 1)) = true) ->
  forall f, mosaic_loops x1 y1 x2 y2 ms f = mosaic_loops_px x1 y1 x2 y2 ms f.
Proof.
  intros Hys Hxs Hfit f. unfold mosaic_loops, mosaic_loops_px.
  rewrite Hys, Hxs. cbn [bind].
  apply for_each_ext_in. intros y fr Hy.
  apply for_each_ext_in. intros x fr' Hx.
  destruct (Hfit y x Hy Hx) as [H1 H2].
  unfold mosaic_cell, mosaic_cell_px.
  destruct (frame_get fr' y x) as [c |]; [cbn [bind] | reflexivity].
  apply cv2_rectangle_filled_fits; assumption.
Qed.

Lemma for_each_ok_mono {A S : Type} (body body' : A -> S -> result S)
    (l : list A) :
  (forall a s s', In a l -> body a s = Ok s' -> body' a s = Ok s') ->
  forall s r, for_each l body s = Ok r -> for_each l body' s = Ok r.
Proof.
  induction l as [| a l IH]; intros H s r; simpl; [auto |].
  destruct (body a s) as [s1 |] eqn:E; [cbn [bind] | discriminate].
  rewrite (H a s s1 (or_introl eq_refl) E). cbn [bind].
  apply IH. intros b t t' Hb. apply H. now right.
Qed.

(** When the mosaic loops return, they return what the pixel operations
    give. *)
Lemma mosaic_loops_ok_px (x1 y1 x2 y2 ms : Z) (f F : Frame) :
  mosaic_loops x1 y1 x2 y2 ms f = Ok F ->
  mosaic_loops_px x1 y1 x2 y2 ms f = Ok F.
Proof.
  unfold mosaic_loops, mosaic_loops_px.
  destruct (py_range y1 y2 ms) as [ys |]; [cbn [bind] | discriminate].
  apply for_each_ok_mono. intros y fr fr' _.
  destruct (py_range x1 x2 ms) as [xs |]; [cbn [bind] | discriminate].
  apply for_each_ok_mono. intros x g g' _.
  unfold mosaic_cell, mosaic_cell_px, cv2_rectangle_filled.
  destruct (frame_get g y x) as [c |]; [cbn [bind] | discriminate].
  destruct (point_fits _ && point_fits _); [auto | discriminate].
Qed.

(** Inside an image the cells of a mosaic have corners that fit: with a
    positive cell size they lie in the box, with a negative one the far
    corner of a cell is at least the cell size. *)
Lemma mosaic_cells_fit (x1 y1 x2 y2 ms : Z) (ys xs : list Z) (f : Frame) :
  py_range y1 y2 ms = Ok ys -> py_range x1 x2 ms = Ok xs ->
  frame_wf f -> in_bounds f (y1, x1) -> in_bounds f (y2, x2) ->
  fits_int ms = true ->
  forall y x, In y ys -> In x xs ->
    point_fits (x, y) = true /\
    point_fits (Z.min x2 (x + ms - 1), Z.min y2 (y + ms - 1)) = true.
Proof.
  intros Hys Hxs (_ & Hh & Hw) [Hy1 Hx1] [Hy2 Hx2] Hms y x Hy Hx.
  simpl in *. apply fits_int_iff in Hms.
  rewrite !point_fits_iff. simpl. unfold INT_MIN, INT_MAX in *.
  destruct (Z.lt_trichotomy ms 0) as [Hneg | [Hz | Hpos]].
  - pose proof (py_range_neg_In _ _ _ _ _ Hneg Hys Hy).
    pose proof (py_range_neg_In _ _ _ _ _ Hneg Hxs Hx). lia.
  - subst ms. rewrite py_range_zero in Hys. discriminate.
  - destruct (py_range_pos_In _ _ _ _ _ Hpos Hys Hy) as [? _].
    destruct (py_range_pos_In _ _ _ _ _ Hpos Hxs Hx) as [? _]. lia.
Qed.

(** With a positive cell size the corners of the box need not lie in the
    image: it is enough that the box is clipped to it. *)
Lemma mosaic_cells_fit_clipped (x1 y1 x2 y2 ms : Z) (ys xs : list Z) (f : Frame) :
  py_range y1 y2 ms = Ok ys -> py_range x1 x2 ms = Ok xs ->
  frame_wf f -> 0 < ms ->
  0 <= y1 -> y2 < frame_height f -> 0 <= x1 -> x2 < frame_width f ->
  forall y x, In y ys -> In x xs ->
    point_fits (x, y) = true /\
    point_fits (Z.min x2 (x + ms - 1), Z.min y2 (y + ms - 1)) = true.
Proof.
  intros Hys Hxs (_ & Hh & Hw) Hpos Hy1 Hy2 Hx1 Hx2 y x Hy Hx.
  rewrite !point_fits_iff. simpl. unfold INT_MIN, INT_MAX in *.
  destruct (py_range_pos_In _ _ _ _ _ Hpos Hys Hy) as [? _].
  destruct (py_range_pos_In _ _ _ _ _ Hpos Hxs Hx) as [? _]. lia.
Qed.

Lemma point_fits_in_bounds (f : Frame) (y x : Z) :
  frame_wf f -> in_bounds f (y, x) -> point_fits (x, y) = true.
Proof.
  intros (_ & Hh & Hw) [Hy Hx]. simpl in *.
  apply point_fits_iff. simpl. unfold INT_MIN, INT_MAX in *. lia.
Qed.

Section DrawFacts.
Context {IM : Imaging}.

Lemma draw_det_solid (frame : Frame) (score : Q) (det_idx : nat)
    (x1 y1 x2 y2 : Z) (ellipse : bool) (ovcolor : Pixel)
    (replaceimg : option ReplaceImg) (mosaicsize : Z) :
  draw_det frame score det_idx x1 y1 x2 y2 "solid" ellipse false ovcolor
    replaceimg mosaicsize
  = if point_fits (x1, y1) && point_fits (x2, y2)
    then Ok (fill_span frame (x1, y1) (x2, y2) ovcolor)
    else Raise Cv2Error.
Proof.
  unfold draw_det, cv2_rectangle_filled. simpl.
  destruct (point_fits (x1, y1) && point_fits (x2, y2)); reflexivity.
Qed.

Lemma draw_det_mosaic (frame : Frame) (score : Q) (det_idx : nat)
    (x1 y1 x2 y2 : Z) (ellipse : bool) (ovcolor : Pixel)
    (replaceimg : option ReplaceImg) (mosaicsize : Z) :
  draw_det frame score det_idx x1 y1 x2 y2 "mosaic" ellipse false ovcolor
    replaceimg mosaicsize
  = mosaic_loops x1 y1 x2 y2 mosaicsize frame.
Proof.
  unfold draw_det. simpl.
  destruct (mosaic_loops x1 y1 x2 y2 mosaicsize frame); reflexivity.
Qed.

End DrawFacts.

(** C9.  On an image and a box whose corners lie inside it, without the
    score overlay: the ['solid'] fill succeeds and applying it again to its
    own output returns that output; the ['mosaic'] with a non-zero cell size
    that is a C [int] succeeds and applying it again to its own output
    returns that output; with a cell size of zero the mosaic raises before
    any pixel is written.  [draw_det] is a function of the frame, the box
    and the parameters alone, so a single application is deterministic. *)
Theorem solid_and_mosaic_are_idempotent {IM : Imaging}
    (frame : Frame) (score : Q) (det_idx : nat) (x1 y1 x2 y2 : Z)
    (ellipse : bool) (ovcolor : Pixel) (replaceimg : option ReplaceImg)
    (mosaicsize : Z) :
  frame_wf frame -> in_bounds frame (y1, x1) -> in_bounds frame (y2, x2) ->
  (exists f1 : Frame,
     draw_det frame score det_idx x1 y1 x2 y2 "solid" ellipse false ovcolor
       replaceimg mosaicsize = Ok f1 /\
     draw_det f1 score det_idx x1 y1 x2 y2 "solid" ellipse false ovcolor
       replaceimg mosaicsize = Ok f1) /\
  (mosaicsize <> 0 -> fits_int mosaicsize = true ->
   exists f1 : Frame,
     draw_det frame score det_idx x1 y1 x2 y2 "mosaic" ellipse false ovcolor
       replaceimg mosaicsize = Ok f1 /\
     draw_det f1 score det_idx x1 y1 x2 y2 "mosaic" ellipse false ovcolor
       replaceimg mosaicsize = Ok f1) /\
  (mosaicsize = 0 ->
   draw_det frame score det_idx x1 y1 x2 y2 "mosaic" ellipse false ovcolor
     replaceimg mosaicsize = Raise ValueError).
Proof.
  intros Hwf Hb1 Hb2. split; [| split].
  - eexists. rewrite !draw_det_solid.
    rewrite (point_fits_in_bounds frame y1 x1 Hwf Hb1).
    rewrite (point_fits_in_bounds frame y2 x2 Hwf Hb2). simpl.
    split; [reflexivity |].
    now rewrite fill_span_twice.
  - intros Hms Hfit. setoid_rewrite draw_det_mosaic.
    destruct (py_range_nonzero y1 y2 mosaicsize Hms) as [ys Hys].
    destruct (py_range_nonzero x1 x2 mosaicsize Hms) as [xs Hxs].
    pose proof (mosaic_cells_fit x1 y1 x2 y2 mosaicsize ys xs frame Hys Hxs
                  Hwf Hb1 Hb2 Hfit) as Hcells.
    setoid_rewrite (mosaic_loops_fits x1 y1 x2 y2 mosaicsize ys xs Hys Hxs Hcells).
    destruct Hwf as (Hrect & _).
    apply (mosaic_loops_twice x1 y1 x2 y2 mosaicsize frame Hrect Hb1 Hb2 Hms).
  - intros ->. rewrite draw_det_mosaic. reflexivity.
Qed.

Lemma solid_and_mosaic_are_idempotent_witness :
  (exists f1 : Frame,
     @draw_det demo_imaging demo_picture (9 # 10) 0 0 0 3 3 "solid" true false
       (0, 0, 0) None 2 = Ok f1 /\
     @draw_det demo_imaging f1 (9 # 10) 0 0 0 3 3 "solid" true false
       (0, 0, 0) None 2 = Ok f1) /\
  (exists f1 : Frame,
     @draw_det demo_imaging demo_picture (9 # 10) 0 0 0 3 3 "mosaic" true false
       (0, 0, 0) None 2 = Ok f1 /\
     @draw_det demo_imaging f1 (9 # 10) 0 0 0 3 3 "mosaic" true false
       (0, 0, 0) None 2 = Ok f1).
Proof.
  destruct (@solid_and_mosaic_are_idempotent demo_imaging demo_picture
              (9 # 10) 0%nat 0 0 3 3 true (0, 0, 0) None 2)
    as (Hsolid & Hmosaic & _).
  - split; [repeat constructor | vm_compute; split; discriminate].
  - vm_compute. repeat split; discriminate.
  - vm_compute. repeat split; try discriminate; reflexivity.
  - split; [exact Hsolid | apply Hmosaic; [discriminate | reflexivity]].
Defined.

Lemma output_has_one_frame_per_input_frame_witness :
  exists (st : @TrackState demo_collaborators) (outs : list Frame),
    @run_outputs demo_imaging demo_collaborators (demo_config 30 "solid")
      initial_state (iter_data demo_reader) = Ok (st, outs) /\
    written demo_run_log = written [] ++ outs /\
    length outs = length (iter_data demo_reader) /\
    forall (pre post : list Frame) (frame : Frame),
      iter_data demo_reader = pre ++ frame :: post ->
      exists sti sti' : @TrackState demo_collaborators,
        @run_frames demo_imaging demo_collaborators (demo_config 30 "solid")
          initial_state pre = Ok sti /\
        @process_frame demo_imaging demo_collaborators (demo_config 30 "solid")
          sti frame = Ok (sti', nth (length pre) outs frame).
Proof.
  apply (@output_has_one_frame_per_input_frame demo_imaging demo_collaborators
           demo_world (demo_config 30 "solid") "clip.mp4" "out.mp4"
           demo_reader (mkMeta (Some (3, 2)) 25 None) [] demo_run_log).
  - reflexivity.
  - left. reflexivity.
  - reflexivity.
Defined.

(** * Further properties of the code *)

(** ** Geometry *)

(** X1.  The containment ratio is a fraction: on every pair of boxes the
    value returned lies between 0 and 1. *)
Theorem containment_ratio_is_a_fraction (d : XYWH) (t : BBox) (r : Q) :
  calculate_containment_ratio d t = Ok r -> (0 <= r <= 1)%Q.
Proof.
  unfold calculate_containment_ratio.
  match goal with
  | |- context [Qltb 0 ?a] => destruct (Qltb_cases 0 a) as [[-> Ha] | [-> Ha]]
  end.
  2: { intro H. inversion H. lra. }
  rewrite (py_div_ok _ _ Ha). intro H. inversion H; subst; clear H.
  assert (Hwh : (0 < bw d * bh d)%Q).
  { setoid_replace (bw d * bh d)%Q
      with ((bx d + bw d - bx d) * (by_ d + bh d - by_ d))%Q by ring.
    exact Ha. }
  match goal with
  | |- (0 <= ?ia / ?da <= 1)%Q =>
      assert (Hia : (0 <= ia /\ ia <= da)%Q)
  end.
  { destruct (py_max_cases (bx d) (bx1 t)) as [[-> ?] | [-> ?]];
    destruct (py_max_cases (by_ d) (by1 t)) as [[-> ?] | [-> ?]];
    destruct (py_min_cases (bx d + bw d) (bx2 t)) as [[-> ?] | [-> ?]];
    destruct (py_min_cases (by_ d + bh d) (by2 t)) as [[-> ?] | [-> ?]];
    match goal with
    | |- (0 <= py_max 0 ?u * py_max 0 ?v /\ _)%Q =>
        destruct (py_max_cases 0 u) as [[-> ?] | [-> ?]];
        destruct (py_max_cases 0 v) as [[-> ?] | [-> ?]]
    end;
    split; nra. }
  destruct Hia as [H0 H1]. split.
  - apply Qle_shift_div_l; [exact Ha | lra].
  - apply Qle_shift_div_r; [exact Ha | lra].
Qed.

Lemma containment_ratio_is_a_fraction_witness :
  (0 <= 900 # 1600 <= 1)%Q.
Proof.
  apply (containment_ratio_is_a_fraction
           (mkXYWH 10 10 40 40) (mkBBox 20 20 100 100) (900 # 1600)).
  reflexivity.
Defined.

(** X2.  The intersection test never misses a person: for a person box in
    corner format with non-negative top-left corner, whenever the person's
    rectangle and the tracked box share a point, [boxes_intersect] answers
    [True]. *)
Theorem boxes_intersect_never_misses_overlap (p t : BBox) :
  (0 <= bx1 p)%Q -> (0 <= by1 p)%Q ->
  rect_share_point p t ->
  boxes_intersect [bx1 p; by1 p; bx2 p; by2 p] t = Ok true.
Proof.
  intros Hx Hy (qx & qy & H). unfold boxes_intersect. f_equal.
  rewrite negb_true_iff, !orb_false_iff, !Qltb_ge. lra.
Qed.

Lemma boxes_intersect_never_misses_overlap_witness :
  boxes_intersect [100; 100; 300; 500]%Q (mkBBox 250 150 600 400) = Ok true.
Proof.
  apply (boxes_intersect_never_misses_overlap
           (mkBBox 100 100 300 500) (mkBBox 250 150 600 400)).
  - vm_compute. discriminate.
  - vm_compute. discriminate.
  - exists 260%Q, 200%Q. simpl. repeat split; vm_compute; discriminate.
Defined.

(** X3.  On a first box given as corner and size, of non-negative size, and a
    well-formed second box, [boxes_intersect] answers [True] exactly when
    the two rectangles share a point. *)
Theorem boxes_intersect_decides_overlap_of_sized_box (x y w h : Q) (t : BBox) :
  (0 <= w)%Q -> (0 <= h)%Q -> (bx1 t <= bx2 t)%Q -> (by1 t <= by2 t)%Q ->
  exists b : bool,
    boxes_intersect [x; y; w; h] t = Ok b /\
    (b = true <-> rect_share_point (mkBBox x y (x + w) (y + h)) t).
Proof. apply boxes_intersect_xywh. Qed.

Lemma boxes_intersect_decides_overlap_of_sized_box_witness :
  exists b : bool,
    boxes_intersect [10; 10; 20; 20]%Q (mkBBox 25 25 100 100) = Ok b /\
    (b = true <->
     rect_share_point (mkBBox 10 10 (10 + 20) (10 + 20)) (mkBBox 25 25 100 100)).
Proof.
  apply (boxes_intersect_decides_overlap_of_sized_box 10 10 20 20
           (mkBBox 25 25 100 100));
    vm_compute; discriminate.
Defined.

(** The extent of the intersection along one axis does not change when
    both boxes move by the same offset. *)
Lemma extent_shift (a w b c e : Q) :
  (py_max 0 (py_min (a + e + w) (b + e) - py_max (a + e) (c + e))
   == py_max 0 (py_min (a + w) b - py_max a c))%Q.
Proof.
  destruct (py_min_cases (a + e + w) (b + e)) as [[-> ?] | [-> ?]];
  destruct (py_max_cases (a + e) (c + e)) as [[-> ?] | [-> ?]];
  destruct (py_min_cases (a + w) b) as [[-> ?] | [-> ?]];
  destruct (py_max_cases a c) as [[-> ?] | [-> ?]];
  try lra;
  match goal with
  | |- (py_max 0 ?u == py_max 0 ?v)%Q =>
      destruct (py_max_cases 0 u) as [[-> ?] | [-> ?]];
      destruct (py_max_cases 0 v) as [[-> ?] | [-> ?]]
  end; lra.
Qed.

(** X4.  The containment ratio depends on the relative position of the two
    boxes only: moving both by the same offset gives the same ratio. *)
Theorem containment_ratio_is_translation_invariant
    (d : XYWH) (t : BBox) (dx dy : Q) :
  exists r r' : Q,
    calculate_containment_ratio d t = Ok r /\
    calculate_containment_ratio
      (mkXYWH (bx d + dx) (by_ d + dy) (bw d) (bh d))
      (mkBBox (bx1 t + dx) (by1 t + dy) (bx2 t + dx) (by2 t + dy)) = Ok r' /\
    (r == r')%Q.
Proof.
  unfold calculate_containment_ratio. simpl.
  set (ix := py_max 0 (py_min (bx d + bw d) (bx2 t) - py_max (bx d) (bx1 t))).
  set (iy := py_max 0 (py_min (by_ d + bh d) (by2 t) - py_max (by_ d) (by1 t))).
  set (ix' := py_max 0 (py_min (bx d + dx + bw d) (bx2 t + dx)
                        - py_max (bx d + dx) (bx1 t + dx))).
  set (iy' := py_max 0 (py_min (by_ d + dy + bh d) (by2 t + dy)
                        - py_max (by_ d + dy) (by1 t + dy))).
  assert (Hx : (ix' == ix)%Q) by apply extent_shift.
  assert (Hy : (iy' == iy)%Q) by apply extent_shift.
  set (a := ((bx d + bw d - bx d) * (by_ d + bh d - by_ d))%Q).
  set (a' := ((bx d + dx + bw d - (bx d + dx))
              * (by_ d + dy + bh d - (by_ d + dy)))%Q).
  assert (Ha : (a' == a)%Q) by (unfold a, a'; ring).
  destruct (Qltb_cases 0 a) as [[-> H] | [-> H]];
  destruct (Qltb_cases 0 a') as [[-> H'] | [-> H']]; try lra.
  - rewrite (py_div_ok _ _ H), (py_div_ok _ _ H').
    do 2 eexists. split; [reflexivity |]. split; [reflexivity |].
    rewrite Hx, Hy, Ha. reflexivity.
  - do 2 eexists. split; [reflexivity |]. split; reflexivity.
Qed.

(** ** Scaling of boxes *)

Lemma np_round_floor_or_next (q : Q) :
  np_round q = Qfloor q \/
  (np_round q = Qfloor q + 1 /\ (inject_Z (Qfloor q) < q)%Q).
Proof.
  unfold np_round.
  destruct (Qltb_cases (q - inject_Z (Qfloor q)) (1 # 2)) as [[-> H] | [-> H]];
    [now left |].
  destruct (Qltb_cases (1 # 2) (q - inject_Z (Qfloor q))) as [[-> H'] | [-> H']].
  - right. split; [reflexivity | lra].
  - destruct (Z.even (Qfloor q)); [now left |].
    right. split; [reflexivity | lra].
Qed.

(** Rounding does not cross an integer: a value at or below an integer
    rounds to at most that integer, a value at or above it to at least it. *)
Lemma np_round_le_int (q : Q) (z : Z) : (q <= inject_Z z)%Q -> np_round q <= z.
Proof.
  intro H.
  pose proof (Qfloor_resp_le _ _ H) as Hf. rewrite Qfloor_Z in Hf.
  destruct (np_round_floor_or_next q) as [-> | [-> Hlt]]; [exact Hf |].
  assert (Hz : (inject_Z (Qfloor q) < inject_Z z)%Q) by lra.
  rewrite <- Zlt_Qlt in Hz. lia.
Qed.

Lemma np_round_ge_int (q : Q) (z : Z) : (inject_Z z <= q)%Q -> z <= np_round q.
Proof.
  intro H.
  pose proof (Qfloor_resp_le _ _ H) as Hf. rewrite Qfloor_Z in Hf.
  destruct (np_round_floor_or_next q) as [-> | [-> _]]; lia.
Qed.

Lemma np_round_int (q : Q) (z : Z) : (q == inject_Z z)%Q -> np_round q = z.
Proof.
  intro H. apply Z.le_antisymm.
  - apply np_round_le_int. lra.
  - apply np_round_ge_int. lra.
Qed.

(** X5.  A mask scale of 1 leaves the box as it is. *)
Theorem scale_bb_one_is_identity (x1 y1 x2 y2 : Z) :
  scale_bb x1 y1 x2 y2 1 = (x1, y1, x2, y2).
Proof.
  unfold scale_bb.
  rewrite (np_round_int _ x1), (np_round_int _ y1),
          (np_round_int _ x2), (np_round_int _ y2); [reflexivity | | | |]; ring.
Qed.

(** X6.  With a mask scale of at least 1, the scaled box of an ordered box
    contains the box: no side moves inward. *)
Theorem scale_bb_grows_the_box (x1 y1 x2 y2 : Z) (mask_scale : Q) :
  (1 <= mask_scale)%Q -> x1 <= x2 -> y1 <= y2 ->
  let '(x1', y1', x2', y2') := scale_bb x1 y1 x2 y2 mask_scale in
  x1' <= x1 /\ y1' <= y1 /\ x2 <= x2' /\ y2 <= y2'.
Proof.
  intros Hs Hx Hy. unfold scale_bb.
  assert (Hw : (0 <= inject_Z (x2 - x1) * (mask_scale - 1))%Q).
  { apply Qmult_le_0_compat; [| lra].
    change 0%Q with (inject_Z 0). rewrite <- Zle_Qle. lia. }
  assert (Hh : (0 <= inject_Z (y2 - y1) * (mask_scale - 1))%Q).
  { apply Qmult_le_0_compat; [| lra].
    change 0%Q with (inject_Z 0). rewrite <- Zle_Qle. lia. }
  repeat split.
  - apply np_round_le_int. lra.
  - apply np_round_le_int. lra.
  - apply np_round_ge_int. lra.
  - apply np_round_ge_int. lra.
Qed.

Lemma scale_bb_grows_the_box_witness :
  let '(x1', y1', x2', y2') := scale_bb 100 100 200 200 (13 # 10) in
  x1' <= 100 /\ y1' <= 100 /\ 200 <= x2' /\ 200 <= y2'.
Proof.
  apply (scale_bb_grows_the_box 100 100 200 200 (13 # 10)).
  - vm_compute. discriminate.
  - lia.
  - lia.
Defined.

(** ** The anonymizer on whole frames *)

Lemma for_each_invariant {A S : Type} (P : S -> Prop) (body : A -> S -> result S)
    (l : list A) :
  (forall a s, In a l -> P s -> exists s', body a s = Ok s' /\ P s') ->
  forall s, P s -> exists s', for_each l body s = Ok s' /\ P s'.
Proof.
  induction l as [| a l IH]; intros Hbody s Hs; simpl.
  - eauto.
  - destruct (Hbody a s (or_introl eq_refl) Hs) as (s1 & -> & Hs1). simpl.
    apply IH; [| exact Hs1].
    intros b t Hb. apply Hbody. now right.
Qed.

Lemma for_each_fixed {A S : Type} (body : A -> S -> result S) (l : list A) (s : S) :
  (forall a, In a l -> body a s = Ok s) -> for_each l body s = Ok s.
Proof.
  induction l as [| a l IH]; intro H; simpl; [reflexivity |].
  rewrite (H a (or_introl eq_refl)). simpl.
  apply IH. intros b Hb. apply H. now right.
Qed.

Lemma shaped_like_refl (f : Frame) : shaped_like f f.
Proof. unfold shaped_like. auto. Qed.

Lemma shaped_like_fill (f0 f : Frame) (pt1 pt2 : Z * Z) (c : Pixel) :
  shaped_like f0 f -> shaped_like f0 (fill_span f pt1 pt2 c).
Proof.
  intros (Hh & Hw & Hwf). unfold shaped_like.
  rewrite fill_span_height, fill_span_width.
  repeat split; auto. intro H. apply fill_span_wf, Hwf, H.
Qed.

(** With a positive step the origins of the cells of a clipped box lie in
    the frame. *)
Lemma mosaic_cells_in_frame (x1 y1 x2 y2 ms : Z) (ys xs : list Z) (f : Frame) :
  0 < ms ->
  py_range y1 y2 ms = Ok ys -> py_range x1 x2 ms = Ok xs ->
  0 <= y1 -> y2 < frame_height f -> 0 <= x1 -> x2 < frame_width f ->
  Forall (in_bounds f) (list_prod ys xs).
Proof.
  intros Hpos Hys Hxs Hy1 Hy2 Hx1 Hx2.
  apply Forall_forall. intros [y x] Hin. apply in_prod_iff in Hin as [Hy Hx].
  destruct (py_range_pos_In _ _ _ _ _ Hpos Hys Hy) as [? _].
  destruct (py_range_pos_In _ _ _ _ _ Hpos Hxs Hx) as [? _].
  unfold in_bounds. simpl. lia.
Qed.

(** The pixels after the mosaic loops with a positive cell size on a clipped
    box: a point whose cell has its origin among the cells visited takes the
    original colour of that origin, every other point keeps its colour. *)
Lemma mosaic_loops_pixels (x1 y1 x2 y2 ms : Z) (ys xs : list Z) (f : Frame) :
  frame_rect f -> 0 < ms ->
  py_range y1 y2 ms = Ok ys -> py_range x1 x2 ms = Ok xs ->
  0 <= y1 -> y2 < frame_height f -> 0 <= x1 -> x2 < frame_width f ->
  exists F : Frame,
    mosaic_loops_px x1 y1 x2 y2 ms f = Ok F /\
    shaped_like f F /\
    forall p, in_bounds f p ->
      pix F (fst p) (snd p) =
      match cell_key x1 y1 x2 y2 ms p with
      | Some o =>
          if in_dec cell_eq_dec o (list_prod ys xs)
          then pix f (fst o) (snd o) else pix f (fst p) (snd p)
      | None => pix f (fst p) (snd p)
      end.
Proof.
  intros Hwf Hpos Hys Hxs Hy1 Hy2 Hx1 Hx2.
  rewrite (mosaic_loops_cells x1 y1 x2 y2 ms ys xs Hys Hxs f).
  pose proof (mosaic_cells_in_frame x1 y1 x2 y2 ms ys xs f Hpos Hys Hxs
                Hy1 Hy2 Hx1 Hx2) as Hcells.
  destruct (mosaic_cells_spec x2 y2 ms _ f Hwf Hcells)
    as (F & HF & HwfF & HhF & HwF & Hpix).
  exists F. split; [exact HF |]. split; [unfold shaped_like; auto |].
  intros p Hp. rewrite (Hpix p Hp).
  apply (paint_key _ (cell_key x1 y1 x2 y2 ms)).
  - intros o _. apply cell_rect_own.
  - intros o Ho q. apply (mosaic_cells_key x1 y1 x2 y2 ms ys xs Hys Hxs o q Hpos Ho).
Qed.

(** ** The solid anonymizer on whole frames *)

Lemma fill_span_comm (f : Frame) (a b a' b' : Z * Z) (c : Pixel) :
  fill_span (fill_span f a b c) a' b' c
  = fill_span (fill_span f a' b' c) a b c.
Proof.
  unfold fill_span, mapi.
  rewrite !mapi_from_compose. apply mapi_from_ext. intros y row.
  rewrite !mapi_from_compose. apply mapi_from_ext. intros x p.
  destruct (in_span (snd a) (snd b) y && in_span (fst a) (fst b) x);
  destruct (in_span (snd a') (snd b') y && in_span (fst a') (fst b') x);
  reflexivity.
Qed.

Lemma solid_fills_cons (h w : Z) (ms : Q) (d : Det) (dets : list Det)
    (f : Frame) :
  solid_fills h w ms (d :: dets) f
  = solid_fills h w ms dets
      (fill_span f (fst (clipped_box h w ms d))
         (snd (clipped_box h w ms d)) (0, 0, 0)).
Proof. reflexivity. Qed.

Lemma solid_fills_shape (h w : Z) (ms : Q) (dets : list Det) (f : Frame) :
  frame_height (solid_fills h w ms dets f) = frame_height f /\
  frame_width (solid_fills h w ms dets f) = frame_width f.
Proof.
  revert f. induction dets as [| d dets IH]; intro f; [split; reflexivity |].
  rewrite solid_fills_cons.
  destruct (IH (fill_span f (fst (clipped_box h w ms d))
                  (snd (clipped_box h w ms d)) (0, 0, 0))) as [Hh Hw].
  rewrite Hh, Hw.
  now rewrite fill_span_height, fill_span_width.
Qed.

Lemma solid_fills_push (h w : Z) (ms : Q) (dets : list Det) (f : Frame)
    (a b : Z * Z) :
  solid_fills h w ms dets (fill_span f a b (0, 0, 0))
  = fill_span (solid_fills h w ms dets f) a b (0, 0, 0).
Proof.
  revert f. induction dets as [| d dets IH]; intro f; [reflexivity |].
  rewrite !solid_fills_cons, fill_span_comm. apply IH.
Qed.

Lemma solid_fills_permutation (h w : Z) (ms : Q) (dets dets' : list Det) :
  Permutation dets dets' ->
  forall f, solid_fills h w ms dets f = solid_fills h w ms dets' f.
Proof.
  induction 1 as [| d l l' _ IH | d d' l | l l' l'' _ IH1 _ IH2]; intro f.
  - reflexivity.
  - rewrite !solid_fills_cons. apply IH.
  - rewrite !solid_fills_cons. now rewrite fill_span_comm.
  - now rewrite IH1, IH2.
Qed.

Lemma solid_fills_twice (h w : Z) (ms : Q) (dets : list Det) :
  forall f,
    solid_fills h w ms dets (solid_fills h w ms dets f)
    = solid_fills h w ms dets f.
Proof.
  induction dets as [| d dets IH]; intro f; [reflexivity |].
  rewrite !solid_fills_cons, !solid_fills_push, IH.
  now rewrite fill_span_twice.
Qed.

Lemma solid_fills_rect (h w : Z) (ms : Q) (dets : list Det) (f : Frame) :
  frame_rect f -> frame_rect (solid_fills h w ms dets f).
Proof.
  revert f. induction dets as [| d dets IH]; intros f Hf; [exact Hf |].
  rewrite solid_fills_cons. apply IH, fill_span_wf, Hf.
Qed.

Lemma forallb_permutation {A : Type} (p : A -> bool) (l l' : list A) :
  Permutation l l' -> forallb p l = forallb p l'.
Proof.
  induction 1 as [| a l l' _ IH | a b l | l l' l'' _ IH1 _ IH2]; simpl.
  - reflexivity.
  - now rewrite IH.
  - destruct (p a), (p b); reflexivity.
  - congruence.
Qed.

Section SolidFrames.
Context {IM : Imaging}.

Lemma anonymize_det_solid (mask_scale : Q) (ellipse : bool)
    (replaceimg : option ReplaceImg) (mosaicsize : Z) (idet : nat * Det)
    (f : Frame) :
  anonymize_det mask_scale "solid" ellipse false replaceimg mosaicsize idet f
  = if box_fits (frame_height f) (frame_width f) mask_scale (snd idet)
    then Ok (fill_span f
               (fst (clipped_box (frame_height f) (frame_width f) mask_scale
                       (snd idet)))
               (snd (clipped_box (frame_height f) (frame_width f) mask_scale
                       (snd idet)))
               (0, 0, 0))
    else Raise Cv2Error.
Proof.
  unfold anonymize_det, box_fits, clipped_box.
  destruct (scale_bb _ _ _ _ mask_scale) as [[[a b] c] d].
  rewrite draw_det_solid. reflexivity.
Qed.

(** The solid anonymizer raises [cv2.error] when the clipped box of a
    detection has a corner that does not fit a C [int]; otherwise it is the
    sequence of the black fills of the clipped boxes, computed from the
    shape of the frame it starts from. *)
Lemma anonymize_frame_solid_fills (dets : list Det) (frame : Frame)
    (mask_scale : Q) (ellipse : bool) (replaceimg : option ReplaceImg)
    (mosaicsize : Z) :
  anonymize_frame dets frame mask_scale "solid" ellipse false replaceimg mosaicsize
  = if forallb (box_fits (frame_height frame) (frame_width frame) mask_scale) dets
    then Ok (solid_fills (frame_height frame) (frame_width frame) mask_scale
               dets frame)
    else Raise Cv2Error.
Proof.
  unfold anonymize_frame.
  set (h := frame_height frame). set (w := frame_width frame).
  assert (Hgen : forall (idx : list nat) f,
            length idx = length dets ->
            frame_height f = h -> frame_width f = w ->
            for_each (combine idx dets)
              (anonymize_det mask_scale "solid" ellipse false replaceimg mosaicsize) f
            = if forallb (box_fits h w mask_scale) dets
              then Ok (solid_fills h w mask_scale dets f)
              else Raise Cv2Error).
  { induction dets as [| d dets IH]; intros idx f Hlen Hh Hw.
    - destruct idx; reflexivity.
    - destruct idx as [| i idx]; [discriminate |].
      cbn [combine for_each forallb]. rewrite anonymize_det_solid. cbn [snd].
      rewrite Hh, Hw.
      destruct (box_fits h w mask_scale d); [cbn [bind andb] | reflexivity].
      rewrite solid_fills_cons. apply IH.
      + simpl in Hlen. lia.
      + now rewrite fill_span_height.
      + now rewrite fill_span_width. }
  apply Hgen; [apply length_seq | reflexivity | reflexivity].
Qed.

(** X8.  The ['solid'] anonymizer returns, and keeps the shape of the frame,
    exactly when the clipped box of every detection has corners that fit a
    C [int]: the clipping bounds the left and top sides from below and the
    right and bottom sides from above only, and a detection far outside the
    frame makes OpenCV raise [cv2.error]. *)
Theorem anonymize_frame_solid_is_safe
    (dets : list Det) (frame : Frame) (mask_scale : Q)
    (ellipse : bool) (replaceimg : option ReplaceImg) (mosaicsize : Z) :
  (forallb (box_fits (frame_height frame) (frame_width frame) mask_scale) dets
   = true ->
   exists out : Frame,
     anonymize_frame dets frame mask_scale "solid" ellipse false replaceimg
       mosaicsize = Ok out /\
     frame_height out = frame_height frame /\
     frame_width out = frame_width frame /\
     (frame_wf frame -> frame_wf out)) /\
  (forallb (box_fits (frame_height frame) (frame_width frame) mask_scale) dets
   = false ->
   anonymize_frame dets frame mask_scale "solid" ellipse false replaceimg
     mosaicsize = Raise Cv2Error).
Proof.
  rewrite anonymize_frame_solid_fills. split; intros ->; [| reflexivity].
  eexists. split; [reflexivity |].
  destruct (solid_fills_shape (frame_height frame) (frame_width frame)
              mask_scale dets frame) as [Hh Hw].
  split; [exact Hh |]. split; [exact Hw |].
  intro Hwf. apply (frame_wf_shape frame _ Hh Hw); [| exact Hwf].
  apply solid_fills_rect. apply Hwf.
Qed.

(** X26.  The solid anonymizer does not depend on the order of the
    detections: two lists with the same detections give the same frame, or
    both raise. *)
Theorem solid_anonymizer_ignores_the_order (dets dets' : list Det)
    (frame : Frame) (mask_scale : Q) (ellipse : bool)
    (replaceimg : option ReplaceImg) (mosaicsize : Z) :
  Permutation dets dets' ->
  anonymize_frame dets frame mask_scale "solid" ellipse false replaceimg mosaicsize
  = anonymize_frame dets' frame mask_scale "solid" ellipse false replaceimg
      mosaicsize.
Proof.
  intro Hperm. rewrite !anonymize_frame_solid_fills.
  rewrite (forallb_permutation _ _ _ Hperm).
  now rewrite (solid_fills_permutation _ _ _ _ _ Hperm).
Qed.

(** X27.  The solid anonymizer is idempotent on whole frames: when it
    returns, running it again with the same detections on its own output
    returns that output. *)
Theorem solid_anonymizer_is_idempotent_on_frames (dets : list Det)
    (frame out : Frame) (mask_scale : Q) (ellipse : bool)
    (replaceimg : option ReplaceImg) (mosaicsize : Z) :
  anonymize_frame dets frame mask_scale "solid" ellipse false replaceimg
    mosaicsize = Ok out ->
  anonymize_frame dets out mask_scale "solid" ellipse false replaceimg
    mosaicsize = Ok out.
Proof.
  rewrite !anonymize_frame_solid_fills.
  destruct (forallb _ dets) eqn:Hfit; [| discriminate].
  intro H. inversion H; subst; clear H.
  destruct (solid_fills_shape (frame_height frame) (frame_width frame)
              mask_scale dets frame) as [-> ->].
  rewrite Hfit. now rewrite solid_fills_twice.
Qed.

End SolidFrames.

Lemma anonymize_frame_solid_is_safe_witness :
  (exists out : Frame,
     @anonymize_frame demo_imaging [face_a; face_b] demo_picture (13 # 10)
       "solid" true false None 20 = Ok out /\
     frame_height out = frame_height demo_picture /\
     frame_width out = frame_width demo_picture /\
     (frame_wf demo_picture -> frame_wf out)) /\
  @anonymize_frame demo_imaging [far_face] demo_picture (13 # 10)
    "solid" true false None 20 = Raise Cv2Error.
Proof.
  split.
  - apply (@anonymize_frame_solid_is_safe demo_imaging [face_a; face_b]
             demo_picture (13 # 10) true None 20).
    reflexivity.
  - apply (@anonymize_frame_solid_is_safe demo_imaging [far_face]
             demo_picture (13 # 10) true None 20).
    reflexivity.
Defined.

Lemma solid_anonymizer_ignores_the_order_witness :
  @anonymize_frame demo_imaging [face_a; face_b] demo_picture (13 # 10) "solid"
    true false None 20
  = @anonymize_frame demo_imaging [face_b; face_a] demo_picture (13 # 10) "solid"
      true false None 20.
Proof.
  apply (@solid_anonymizer_ignores_the_order demo_imaging).
  apply perm_swap.
Defined.

Lemma solid_anonymizer_is_idempotent_on_frames_witness :
  @anonymize_frame demo_imaging [face_a; face_b]
    (solid_fills 4 4 (13 # 10) [face_a; face_b] demo_picture) (13 # 10)
    "solid" true false None 20
  = Ok (solid_fills 4 4 (13 # 10) [face_a; face_b] demo_picture).
Proof.
  apply (@solid_anonymizer_is_idempotent_on_frames demo_imaging
           [face_a; face_b] demo_picture).
  reflexivity.
Defined.

Section AnonymizerFacts.
Context {IM : Imaging}.

Lemma draw_det_other_mode (frame : Frame) (score : Q) (det_idx : nat)
    (x1 y1 x2 y2 : Z) (mode : string) (ellipse : bool) (ovcolor : Pixel)
    (replaceimg : option ReplaceImg) (mosaicsize : Z) :
  ~ In mode ["solid"; "blur"; "img"; "mosaic"]%string ->
  draw_det frame score det_idx x1 y1 x2 y2 mode ellipse false ovcolor
    replaceimg mosaicsize = Ok frame.
Proof.
  intro Hmode. unfold draw_det.
  repeat match goal with
         | |- context [String.eqb mode ?m] =>
             destruct (String.eqb_spec mode m) as [-> | _];
             [exfalso; apply Hmode; simpl; tauto |]
         end.
  reflexivity.
Qed.

(** X7.  With the mode ['none'], or any string that names no mode, and
    without the score overlay, [anonymize_frame] returns the frame as it
    received it, whatever the detections. *)
Theorem anonymize_frame_without_mode_changes_nothing
    (dets : list Det) (frame : Frame) (mask_scale : Q) (mode : string)
    (ellipse : bool) (replaceimg : option ReplaceImg) (mosaicsize : Z) :
  ~ In mode ["solid"; "blur"; "img"; "mosaic"]%string ->
  anonymize_frame dets frame mask_scale mode ellipse false replaceimg mosaicsize
  = Ok frame.
Proof.
  intro Hmode. unfold anonymize_frame.
  apply for_each_fixed. intros idet _. unfold anonymize_det.
  destruct (scale_bb _ _ _ _ mask_scale) as [[[a b] c] d].
  apply draw_det_other_mode, Hmode.
Qed.

(** X9.  With a positive cell size the ['mosaic'] anonymizer never raises on
    an image, whatever the detections: the clipping keeps every pixel it
    reads and every corner it draws inside the frame.  The shape of the
    frame is kept. *)
Theorem anonymize_frame_mosaic_is_safe
    (dets : list Det) (frame : Frame) (mask_scale : Q)
    (ellipse : bool) (replaceimg : option ReplaceImg) (mosaicsize : Z) :
  frame_wf frame -> 0 < mosaicsize ->
  exists out : Frame,
    anonymize_frame dets frame mask_scale "mosaic" ellipse false replaceimg
      mosaicsize = Ok out /\
    frame_height out = frame_height frame /\
    frame_width out = frame_width frame /\
    frame_wf out.
Proof.
  intros Hwf Hpos.
  assert (H : exists out,
             anonymize_frame dets frame mask_scale "mosaic" ellipse false
               replaceimg mosaicsize = Ok out /\ shaped_like frame out).
  { unfold anonymize_frame.
    apply (for_each_invariant (shaped_like frame)); [| apply shaped_like_refl].
    intros idet f _ (Hh & Hw & Hf). unfold anonymize_det.
    destruct (scale_bb _ _ _ _ mask_scale) as [[[a b] c] d].
    rewrite draw_det_mosaic.
    assert (Hrf : frame_rect f) by (apply Hf, Hwf).
    assert (Hwff : frame_wf f) by (apply (frame_wf_shape frame f Hh Hw Hrf Hwf)).
    destruct (py_range_nonzero (Z.max 0 b) (Z.min (frame_height f - 1) d)
                mosaicsize ltac:(lia)) as [ys Hys].
    destruct (py_range_nonzero (Z.max 0 a) (Z.min (frame_width f - 1) c)
                mosaicsize ltac:(lia)) as [xs Hxs].
    rewrite (mosaic_loops_fits _ _ _ _ mosaicsize ys xs Hys Hxs
               (mosaic_cells_fit_clipped _ _ _ _ mosaicsize ys xs f Hys Hxs Hwff
                  Hpos ltac:(lia) ltac:(lia) ltac:(lia) ltac:(lia))).
    destruct (mosaic_loops_pixels _ _ _ _ mosaicsize ys xs f Hrf Hpos
                Hys Hxs ltac:(lia) ltac:(lia) ltac:(lia) ltac:(lia))
      as (F & HF & (HhF & HwF & HwfF) & _).
    exists F. split; [exact HF |].
    unfold shaped_like. repeat split; try congruence.
    intros _. apply HwfF, Hrf. }
  destruct H as (out & Hout & Hh & Hw & Hf).
  exists out. repeat split; auto.
  - apply Hf, Hwf.
  - rewrite Hh. apply Hwf.
  - rewrite Hw. apply Hwf.
Qed.

(** X10.  With a cell size of 0 the ['mosaic'] anonymizer raises
    [ValueError] as soon as there is one detection. *)
Theorem anonymize_frame_mosaic_zero_raises
    (det : Det) (dets : list Det) (frame : Frame) (mask_scale : Q)
    (ellipse draw_scores : bool) (replaceimg : option ReplaceImg) :
  anonymize_frame (det :: dets) frame mask_scale "mosaic" ellipse draw_scores
    replaceimg 0 = Raise ValueError.
Proof.
  unfold anonymize_frame. cbn [length seq combine for_each].
  unfold anonymize_det at 1. cbn [snd fst].
  destruct (scale_bb _ _ _ _ mask_scale) as [[[a b] c] d].
  unfold draw_det, mosaic_loops. rewrite py_range_zero. reflexivity.
Qed.

End AnonymizerFacts.

Lemma anonymize_frame_without_mode_changes_nothing_witness :
  @anonymize_frame demo_imaging [face_a; face_b] demo_picture (13 # 10) "none"
    true false None 20 = Ok demo_picture.
Proof.
  apply (@anonymize_frame_without_mode_changes_nothing demo_imaging).
  simpl. intros [H | [H | [H | [H | []]]]]; discriminate.
Defined.

Lemma anonymize_frame_mosaic_is_safe_witness :
  exists out : Frame,
    @anonymize_frame demo_imaging [mkDet (-5) 1 2 9 (9 # 10)] demo_picture
      (13 # 10) "mosaic" true false None 2 = Ok out /\
    frame_height out = frame_height demo_picture /\
    frame_width out = frame_width demo_picture /\
    frame_wf out.
Proof.
  apply (@anonymize_frame_mosaic_is_safe demo_imaging).
  - split; [repeat constructor | vm_compute; split; discriminate].
  - lia.
Defined.

(** ** What the fill and the mosaic do to the pixels *)

Lemma cell_key_outside (x1 y1 x2 y2 ms : Z) (p : Z * Z) :
  in_span y1 y2 (fst p) && in_span x1 x2 (snd p) = false ->
  cell_key x1 y1 x2 y2 ms p = None.
Proof.
  unfold cell_key, in_span. intro H.
  destruct ((y1 <=? fst p) && (fst p <=? y2) && (x1 <=? snd p) && (snd p <=? x2))
    eqn:E; [| reflexivity].
  rewrite !andb_true_iff, !Z.leb_le in E.
  rewrite !andb_false_iff, !Z.leb_gt in H. lia.
Qed.

Section PixelFacts.
Context {IM : Imaging}.

(** X11.  The ['solid'] fill and the ['mosaic'] with a positive cell size
    change no pixel outside the rectangle spanned by the corners of the
    box. *)
Theorem solid_and_mosaic_leave_the_outside_unchanged
    (frame out : Frame) (score : Q) (det_idx : nat) (x1 y1 x2 y2 : Z)
    (mode : string) (ellipse : bool) (ovcolor : Pixel)
    (replaceimg : option ReplaceImg) (mosaicsize : Z) (p : Z * Z) :
  frame_rect frame -> 0 < mosaicsize ->
  0 <= y1 -> y2 < frame_height frame -> 0 <= x1 -> x2 < frame_width frame ->
  mode = "solid"%string \/ mode = "mosaic"%string ->
  draw_det frame score det_idx x1 y1 x2 y2 mode ellipse false ovcolor
    replaceimg mosaicsize = Ok out ->
  in_bounds frame p ->
  in_span y1 y2 (fst p) && in_span x1 x2 (snd p) = false ->
  pix out (fst p) (snd p) = pix frame (fst p) (snd p).
Proof.
  intros Hwf Hpos Hy1 Hy2 Hx1 Hx2 [-> | ->] Hdraw Hp Hout.
  - rewrite draw_det_solid in Hdraw.
    destruct (point_fits (x1, y1) && point_fits (x2, y2)); [| discriminate].
    inversion Hdraw; subst.
    rewrite (pix_fill_span frame _ _ _ p Hwf Hp). simpl.
    now rewrite Hout.
  - rewrite draw_det_mosaic in Hdraw. apply mosaic_loops_ok_px in Hdraw.
    destruct (py_range_nonzero y1 y2 mosaicsize ltac:(lia)) as [ys Hys].
    destruct (py_range_nonzero x1 x2 mosaicsize ltac:(lia)) as [xs Hxs].
    destruct (mosaic_loops_pixels x1 y1 x2 y2 mosaicsize ys xs frame Hwf Hpos
                Hys Hxs Hy1 Hy2 Hx1 Hx2) as (F & HF & _ & Hpix).
    rewrite HF in Hdraw. inversion Hdraw; subst.
    rewrite (Hpix p Hp), (cell_key_outside _ _ _ _ _ p Hout). reflexivity.
Qed.

(** X12.  After the ['mosaic'] with a positive cell size every cell is of
    one colour, the colour its top-left pixel had before: for an origin
    [(y, x)] of the two ranges, every pixel from [(y, x)] to
    [(min(y2, y + size - 1), min(x2, x + size - 1))] has the original
    colour of [(y, x)]. *)
Theorem mosaic_cells_take_their_top_left_colour
    (frame out : Frame) (score : Q) (det_idx : nat) (x1 y1 x2 y2 : Z)
    (ellipse : bool) (ovcolor : Pixel) (replaceimg : option ReplaceImg)
    (mosaicsize : Z) (ys xs : list Z) (y x py px : Z) :
  frame_rect frame -> 0 < mosaicsize ->
  0 <= y1 -> y2 < frame_height frame -> 0 <= x1 -> x2 < frame_width frame ->
  py_range y1 y2 mosaicsize = Ok ys -> py_range x1 x2 mosaicsize = Ok xs ->
  draw_det frame score det_idx x1 y1 x2 y2 "mosaic" ellipse false ovcolor
    replaceimg mosaicsize = Ok out ->
  In y ys -> In x xs ->
  y <= py <= Z.min y2 (y + mosaicsize - 1) ->
  x <= px <= Z.min x2 (x + mosaicsize - 1) ->
  pix out py px = pix frame y x.
Proof.
  intros Hwf Hpos Hy1 Hy2 Hx1 Hx2 Hys Hxs Hdraw Hy Hx Hpy Hpx.
  rewrite draw_det_mosaic in Hdraw. apply mosaic_loops_ok_px in Hdraw.
  destruct (mosaic_loops_pixels x1 y1 x2 y2 mosaicsize ys xs frame Hwf Hpos
              Hys Hxs Hy1 Hy2 Hx1 Hx2) as (F & HF & _ & Hpix).
  rewrite HF in Hdraw. inversion Hdraw; subst.
  destruct (py_range_pos_In _ _ _ _ _ Hpos Hys Hy) as [Hyb _].
  destruct (py_range_pos_In _ _ _ _ _ Hpos Hxs Hx) as [Hxb _].
  assert (Hp : in_bounds frame (py, px)) by (unfold in_bounds; simpl; lia).
  assert (Hin : In (y, x) (list_prod ys xs)) by (apply in_prod_iff; auto).
  assert (Hkey : cell_key x1 y1 x2 y2 mosaicsize (py, px) = Some (y, x)).
  { apply (mosaic_cells_key x1 y1 x2 y2 mosaicsize ys xs Hys Hxs (y, x) (py, px)
             Hpos Hin).
    unfold cell_rect, in_span. simpl.
    rewrite !andb_true_iff, !Z.leb_le. lia. }
  specialize (Hpix (py, px) Hp). simpl in Hpix. rewrite Hpix, Hkey.
  destruct (in_dec cell_eq_dec (y, x) (list_prod ys xs)); [reflexivity | contradiction].
Qed.

End PixelFacts.

Lemma solid_and_mosaic_leave_the_outside_unchanged_witness :
  pix [[(10, 0, 0); (10, 0, 0); (12, 0, 0); (13, 0, 0)];
       [(10, 0, 0); (10, 0, 0); (22, 0, 0); (23, 0, 0)];
       [(30, 0, 0); (31, 0, 0); (32, 0, 0); (33, 0, 0)];
       [(40, 0, 0); (41, 0, 0); (42, 0, 0); (43, 0, 0)]] 2 3
  = pix demo_picture 2 3.
Proof.
  apply (@solid_and_mosaic_leave_the_outside_unchanged demo_imaging
           demo_picture _ (9 # 10) 0%nat 0 0 1 1 "mosaic" true (0, 0, 0) None 2
           (2, 3)).
  - repeat constructor.
  - lia.
  - lia.
  - vm_compute. reflexivity.
  - lia.
  - vm_compute. reflexivity.
  - right. reflexivity.
  - reflexivity.
  - vm_compute. repeat split; discriminate.
  - reflexivity.
Defined.

Lemma mosaic_cells_take_their_top_left_colour_witness :
  pix [[(10, 0, 0); (10, 0, 0); (12, 0, 0); (12, 0, 0)];
       [(10, 0, 0); (10, 0, 0); (12, 0, 0); (12, 0, 0)];
       [(30, 0, 0); (30, 0, 0); (32, 0, 0); (32, 0, 0)];
       [(30, 0, 0); (30, 0, 0); (32, 0, 0); (32, 0, 0)]] 3 3
  = pix demo_picture 2 2.
Proof.
  apply (@mosaic_cells_take_their_top_left_colour demo_imaging
           demo_picture _ (9 # 10) 0%nat 0 0 3 3 true (0, 0, 0) None 2
           [0; 2] [0; 2] 2 2 3 3).
  - repeat constructor.
  - lia.
  - lia.
  - vm_compute. reflexivity.
  - lia.
  - vm_compute. reflexivity.
  - reflexivity.
  - reflexivity.
  - reflexivity.
  - simpl. tauto.
  - simpl. tauto.
  - lia.
  - lia.
Defined.

(** ** The tracking logic of the frame loop *)

Section TrackingFacts.
Context {IM : Imaging} {CO : Collaborators}.

(** X13.  Without [debugging], on every run from the initial state the
    tracking logic of the next frame returns, and leaves the frame as it
    came: [prev_bbox] is bound whenever it is read, no ratio divides by zero
    and every person box has four coordinates.  (With [debugging] the
    overlay and the print of the score can raise.) *)
Theorem tracking_logic_never_raises (cfg : Config) (earlier : list Frame)
    (st : TrackState) (frame : Frame) :
  debugging cfg = false ->
  run_frames cfg initial_state earlier = Ok st ->
  exists (st' : TrackState) (anon : list Det),
    frame_step cfg st frame = Ok (st', anon, frame).
Proof.
  intros Hdbg Hrun.
  assert (Hb : tracker_bound st).
  { apply (run_frames_bound cfg earlier initial_state st); [| exact Hrun].
    intro H. exfalso. apply H. reflexivity. }
  destruct (frame_step_total cfg st frame Hdbg Hb) as (st' & anon & H & _).
  eauto.
Qed.

Lemma zero_face_branch_incl (cfg : Config) (st st' : TrackState) (frame : Frame)
    (dets anon : list Det) (tb tb' : BBox) :
  zero_face_branch cfg st frame dets tb = Ok (st', anon, tb') -> incl anon dets.
Proof.
  unfold zero_face_branch, read_prev_bbox.
  destruct (prev_bbox st) as [pv |]; [simpl | discriminate].
  destruct (recover_tracking frame pv dets) as [rb |].
  - destruct (init_face_tracker (cvt_rgb2bgr frame) rb) as [trk pv'].
    destruct (find_first _ dets) as [[rd |] |]; simpl; try discriminate;
      intro H; inversion H; subst.
    + intros d Hd. apply filter_In in Hd. tauto.
    + apply incl_refl.
  - simpl. intro H. inversion H; subst. apply incl_refl.
Qed.

Lemma disambiguate_incl (cfg : Config) (st st' : TrackState) (frame cur : Frame)
    (dets anon : list Det) (pres : option (list PersonDet)) (tb : BBox) :
  disambiguate cfg st frame dets pres tb = Ok (st', anon, cur) -> incl anon dets.
Proof.
  unfold disambiguate.
  destruct (containments_ok tb dets) as [rs ->]. simpl.
  rewrite dets_in_tracked_eq. simpl.
  destruct (overlay_frame cfg st frame _ tb) as [ov |]; [simpl | discriminate].
  destruct (Z.of_nat (length (filter (in_regionb tb) dets)) =? 1).
  - unfold single_face_branch. rewrite dets_below_eq. simpl.
    intro H. inversion H; subst. intros d Hd. apply filter_In in Hd. tauto.
  - destruct (1 <? Z.of_nat (length (filter (in_regionb tb) dets))).
    + unfold multi_face_branch.
      destruct (count_intersecting _ tb) as [n |]; [simpl | discriminate].
      destruct (n <=? 1).
      * rewrite dets_below_eq. simpl. intro H. inversion H; subst.
        intros d Hd. apply filter_In in Hd. tauto.
      * simpl. intro H. inversion H; subst. apply incl_refl.
    + destruct (zero_face_branch cfg st _ dets tb) as [[[s a] t] |] eqn:E;
        [simpl | discriminate].
      intro H. inversion H; subst.
      apply (zero_face_branch_incl _ _ _ _ _ _ _ _ E).
Qed.

Lemma frame_step_incl (cfg : Config)
    (st st' : TrackState) (frame cur : Frame) (anon : list Det) :
  frame_step cfg st frame = Ok (st', anon, cur) ->
  incl anon (centerface frame (threshold cfg)).
Proof.
  unfold frame_step.
  destruct (acquire cfg st frame (centerface frame (threshold cfg)))
    as [[st1 pres] |]; [cbn [bind] | discriminate].
  destruct (track_update st1 frame _) as [[st2 [tb |]] |]; simpl;
    try discriminate.
  - apply disambiguate_incl.
  - intro H. inversion H; subst. apply incl_refl.
Qed.

(** X14.  The anonymization set of a frame is drawn from the detections of
    that frame: the loop never hands the anonymizer a box the face detector
    did not report. *)
Theorem anonymization_set_is_drawn_from_the_detections (cfg : Config)
    (st st' : TrackState) (frame cur : Frame) (anon : list Det) :
  frame_step cfg st frame = Ok (st', anon, cur) ->
  incl anon (centerface frame (threshold cfg)).
Proof. apply frame_step_incl. Qed.

(** X15.  While no tracker is held and the matcher, if it is run on the
    frame, finds nobody, the state stays as it is and every detection of the
    frame goes to the anonymizer, on the frame as it came. *)
Theorem searching_without_match_anonymizes_everything (cfg : Config)
    (st : TrackState) (frame : Frame) :
  face_tracker st = None ->
  fst (fst (fst (find_person_in_frame frame (target_embeddings cfg)
                   (reid_threshold cfg) (person_detector frame)
                   (centerface frame (threshold cfg))))) = None ->
  frame_step cfg st frame = Ok (st, centerface frame (threshold cfg), frame).
Proof.
  intros Ht Hnone. unfold frame_step, acquire.
  destruct ((negb (target_person_found st)
             || match face_tracker st with None => true | Some _ => false end)
            && (0 <? Z.of_nat (length (centerface frame (threshold cfg))))).
  - destruct (find_person_in_frame frame _ _ _ _) as [[[pb fi] sc] pi].
    simpl in Hnone. subst pb. cbn [bind].
    unfold track_update. rewrite Ht. reflexivity.
  - cbn [bind]. unfold track_update. rewrite Ht. reflexivity.
Qed.

Lemma acquire_found (cfg : Config) (st st1 : TrackState) (frame : Frame)
    (dets : list Det) (pres : option (list PersonDet)) :
  found_iff_tracker st -> acquire cfg st frame dets = Ok (st1, pres) ->
  found_iff_tracker st1.
Proof.
  unfold acquire, found_iff_tracker, bind. intro Hi.
  repeat match goal with
         | |- context [if ?b then _ else _] => destruct b
         | |- context [match ?x with _ => _ end] => destruct x eqn:?
         end; intro H; inversion H; subst; simpl; auto; split; intro; congruence.
Qed.

Lemma track_update_found (st st' : TrackState) (frame : Frame)
    (dets : list Det) (tb : option BBox) :
  found_iff_tracker st ->
  track_update st frame dets = Ok (st', tb) ->
  found_iff_tracker st' /\ (tb <> None -> face_tracker st' <> None).
Proof.
  unfold track_update, read_prev_bbox, found_iff_tracker. intros [Hi1 Hi2].
  destruct (face_tracker st) as [trk |] eqn:Et.
  - assert (Hf : target_person_found st = true)
      by (apply Hi2; discriminate).
    destruct (prev_bbox st) as [pv |]; [cbn [bind] | discriminate].
    destruct (update_face_tracker (cvt_rgb2bgr frame) trk pv) as [trk' [b |]].
    + intro H. inversion H; subst. simpl.
      repeat split; auto; intros; discriminate.
    + destruct (recover_tracking frame pv dets) as [rb |].
      * destruct (init_face_tracker (cvt_rgb2bgr frame) rb) as [trk2 pv2].
        intro H. inversion H; subst. simpl.
        repeat split; auto; intros; discriminate.
      * intro H. inversion H; subst. simpl.
        repeat split; intros; congruence.
  - intro H. inversion H; subst. rewrite Et.
    repeat split; auto; intros; congruence.
Qed.

Lemma zero_face_branch_found (cfg : Config) (st st' : TrackState) (frame : Frame)
    (dets anon : list Det) (tb tb' : BBox) :
  found_iff_tracker st -> face_tracker st <> None ->
  zero_face_branch cfg st frame dets tb = Ok (st', anon, tb') ->
  found_iff_tracker st'.
Proof.
  unfold found_iff_tracker. intros [Hi1 Hi2] Ht.
  assert (Hf : target_person_found st = true) by (apply Hi2, Ht).
  unfold zero_face_branch, read_prev_bbox.
  destruct (prev_bbox st) as [pv |]; [simpl | discriminate].
  destruct (recover_tracking frame pv dets) as [rb |].
  - destruct (init_face_tracker (cvt_rgb2bgr frame) rb) as [trk pv'].
    destruct (find_first _ dets) as [rd |]; [simpl | discriminate].
    intro H. inversion H; subst; clear H.
    unfold reset_policy.
    destruct (negb (disable_tracker_reset cfg) && _); simpl;
      split; intros; congruence.
  - simpl. intro H. inversion H; subst; clear H.
    unfold reset_policy.
    destruct (negb (disable_tracker_reset cfg) && _); simpl;
      split; intros; congruence.
Qed.

Lemma disambiguate_found (cfg : Config) (st st' : TrackState) (frame cur : Frame)
    (dets anon : list Det) (pres : option (list PersonDet)) (tb : BBox) :
  found_iff_tracker st -> face_tracker st <> None ->
  disambiguate cfg st frame dets pres tb = Ok (st', anon, cur) ->
  found_iff_tracker st'.
Proof.
  intros Hi Ht. unfold disambiguate.
  destruct (containments_ok tb dets) as [rs ->]. simpl.
  rewrite dets_in_tracked_eq. simpl.
  destruct (overlay_frame cfg st frame _ tb) as [ov |]; [simpl | discriminate].
  destruct (Z.of_nat (length (filter (in_regionb tb) dets)) =? 1).
  - unfold single_face_branch. rewrite dets_below_eq. simpl.
    intro H. inversion H; subst. exact Hi.
  - destruct (1 <? Z.of_nat (length (filter (in_regionb tb) dets))).
    + unfold multi_face_branch.
      destruct (count_intersecting _ tb) as [n |]; [simpl | discriminate].
      destruct (n <=? 1).
      * rewrite dets_below_eq. simpl. intro H. inversion H; subst. exact Hi.
      * simpl. intro H. inversion H; subst. exact Hi.
    + destruct (zero_face_branch cfg st _ dets tb) as [[[s a] t] |] eqn:E;
        [simpl | discriminate].
      intro H. inversion H; subst.
      apply (zero_face_branch_found _ _ _ _ _ _ _ _ Hi Ht E).
Qed.

Lemma frame_step_found (cfg : Config) (st st' : TrackState) (frame cur : Frame)
    (anon : list Det) :
  found_iff_tracker st ->
  frame_step cfg st frame = Ok (st', anon, cur) ->
  found_iff_tracker st'.
Proof.
  intro Hi. unfold frame_step.
  destruct (acquire cfg st frame (centerface frame (threshold cfg)))
    as [[st1 pres] |] eqn:Ea; [cbn [bind] | discriminate].
  pose proof (acquire_found cfg st st1 frame _ pres Hi Ea) as Hi1.
  destruct (track_update st1 frame _) as [[st2 tb] |] eqn:E; [simpl | discriminate].
  destruct (track_update_found _ _ _ _ _ Hi1 E) as [Hi2 Ht2].
  destruct tb as [tb |].
  - apply (disambiguate_found _ _ _ _ _ _ _ _ _ Hi2). apply Ht2. discriminate.
  - intro H. inversion H; subst. exact Hi2.
Qed.

(** X16.  After every run from the initial state the two flags of the loop
    agree: [target_person_found] is set exactly when a tracker is held. *)
Theorem found_flag_agrees_with_tracker (cfg : Config) (frames : list Frame)
    (st : TrackState) :
  run_frames cfg initial_state frames = Ok st ->
  (target_person_found st = true <-> face_tracker st <> None).
Proof.
  assert (Hgen : forall s, found_iff_tracker s ->
                           run_frames cfg s frames = Ok st -> found_iff_tracker st).
  { induction frames as [| f frames IH]; intros s Hs; simpl.
    - intro H. inversion H; subst. exact Hs.
    - unfold process_frame.
      destruct (frame_step cfg s f) as [[[s1 a] c] |] eqn:E; [simpl | discriminate].
      destruct (anonymize_frame a c _ _ _ _ _ _) as [out |]; [simpl | discriminate].
      apply IH. apply (frame_step_found _ _ _ _ _ _ Hs E). }
  apply Hgen. unfold found_iff_tracker. simpl. split; intro; congruence.
Qed.

(** X17.  When the tracker update fails and the recovery finds nothing, the
    frame ends without tracker and with the target unmarked, every detection
    of the frame goes to the anonymizer, and [frames_without_faces] keeps
    the value it had. *)
Theorem failed_update_and_recovery_returns_to_searching (cfg : Config)
    (st : TrackState) (frame : Frame) (trk trk' : Tracker) (pv : BBox) :
  face_tracker st = Some trk -> target_person_found st = true ->
  prev_bbox st = Some pv ->
  update_face_tracker (cvt_rgb2bgr frame) trk pv = (trk', None) ->
  recover_tracking frame pv (centerface frame (threshold cfg)) = None ->
  exists st' : TrackState,
    frame_step cfg st frame = Ok (st', centerface frame (threshold cfg), frame) /\
    face_tracker st' = None /\ target_person_found st' = false /\
    frames_without_faces st' = frames_without_faces st /\
    prev_bbox st' = Some pv.
Proof.
  intros Ht Hf Hp Hu Hr. unfold frame_step, acquire.
  rewrite Hf, Ht. simpl.
  unfold track_update, read_prev_bbox. rewrite Ht, Hp. simpl.
  rewrite Hu, Hr. simpl.
  eexists. split; [reflexivity |]. simpl. auto.
Qed.

End TrackingFacts.

Lemma tracking_logic_never_raises_witness :
  exists (st' : @TrackState demo_collaborators) (anon : list Det),
    @frame_step demo_imaging demo_collaborators (demo_config 30 "solid")
      demo_tracking_state (demo_frame 2) = Ok (st', anon, demo_frame 2).
Proof.
  apply (@tracking_logic_never_raises demo_imaging demo_collaborators
           (demo_config 30 "solid") [demo_frame 1]).
  - reflexivity.
  - reflexivity.
Defined.

Lemma anonymization_set_is_drawn_from_the_detections_witness :
  incl [face_a; face_b] [face_a; face_b].
Proof.
  apply (@anonymization_set_is_drawn_from_the_detections demo_imaging
           demo_collaborators (demo_config 30 "solid") demo_tracking_state
           (set_prev_bbox home_box
              (set_frames_without_faces 0 demo_tracking_state))
           (demo_frame 4) (demo_frame 4) [face_a; face_b]).
  reflexivity.
Defined.

Lemma searching_without_match_anonymizes_everything_witness :
  @frame_step demo_imaging nobody_collaborators nobody_config
    initial_state (demo_frame 3)
  = Ok (initial_state, [face_a; face_b], demo_frame 3).
Proof.
  apply (@searching_without_match_anonymizes_everything demo_imaging
           nobody_collaborators nobody_config initial_state (demo_frame 3)).
  - reflexivity.
  - reflexivity.
Defined.

Lemma found_flag_agrees_with_tracker_witness :
  target_person_found demo_tracking_state = true
  <-> face_tracker demo_tracking_state <> None.
Proof.
  apply (@found_flag_agrees_with_tracker demo_imaging demo_collaborators
           (demo_config 30 "solid") [demo_frame 1] demo_tracking_state).
  reflexivity.
Defined.

Lemma failed_update_and_recovery_returns_to_searching_witness :
  exists st' : @TrackState demo_collaborators,
    @frame_step demo_imaging demo_collaborators (demo_config 30 "solid")
      demo_tracking_state (demo_frame 6) = Ok (st', [], demo_frame 6) /\
    face_tracker st' = None /\ target_person_found st' = false /\
    frames_without_faces st' = frames_without_faces demo_tracking_state /\
    prev_bbox st' = Some home_box.
Proof.
  apply (@failed_update_and_recovery_returns_to_searching demo_imaging
           demo_collaborators (demo_config 30 "solid") demo_tracking_state
           (demo_frame 6) tt tt home_box); reflexivity.
Defined.

Section BranchFacts.
Context {IM : Imaging} {CO : Collaborators}.

Lemma below_regionb_spec (tb : BBox) (d : Det) :
  below_regionb tb d = true <->
  exists r : Q, containment tb d = Ok r /\ (r < 1 # 2)%Q.
Proof.
  unfold below_regionb, CONTAINMENT_THRESHOLD.
  destruct (containment tb d) as [r | e].
  - rewrite Qltb_lt. split.
    + intro H. exists r. auto.
    + intros (r' & Hr & Hlt). inversion Hr; subst. exact Hlt.
  - split; [discriminate | intros (r' & Hr & _); discriminate].
Qed.

(** X18.  On a frame with exactly one face in the tracked region, once the
    debugging overlay, if any, is drawn, the frame completes and the
    anonymization set is exactly the detections whose ratio is strictly
    below one half.  A detection whose ratio is exactly one half is
    therefore left out as well, although it does not count as in region.
    When the overlay raises, so does the frame. *)
Theorem single_face_frame_anonymizes_exactly_the_low_ratios
    (cfg : Config) (st st1 st2 : TrackState) (frame : Frame)
    (pres : option (list PersonDet)) (tb : BBox) :
  acquire cfg st frame (centerface frame (threshold cfg)) = Ok (st1, pres) ->
  track_update st1 frame (centerface frame (threshold cfg)) = Ok (st2, Some tb) ->
  count_in_region tb (centerface frame (threshold cfg)) = 1%nat ->
  (forall cur : Frame,
     overlay_frame cfg st2 frame
       (filter (in_regionb tb) (centerface frame (threshold cfg))) tb = Ok cur ->
     exists (st' : TrackState) (anon : list Det),
       frame_step cfg st frame = Ok (st', anon, cur) /\
       (forall d : Det,
          In d anon <->
          In d (centerface frame (threshold cfg)) /\
          exists r : Q, containment tb d = Ok r /\ (r < 1 # 2)%Q) /\
       (forall (d : Det) (r : Q),
          containment tb d = Ok r -> (r == 1 # 2)%Q ->
          ~ In d anon /\ in_regionb tb d = false)) /\
  (forall e : exn,
     overlay_frame cfg st2 frame
       (filter (in_regionb tb) (centerface frame (threshold cfg))) tb = Raise e ->
     frame_step cfg st frame = Raise e).
Proof.
  intros Hacq Hupd Hone. split.
  2: { intros e Hov. unfold frame_step. rewrite Hacq. cbn [bind].
       rewrite Hupd. cbn [bind].
       apply (disambiguate_overlay_raises cfg st2 frame _ pres tb e Hov). }
  intros cur Hov.
  unfold frame_step. rewrite Hacq. cbn [bind]. rewrite Hupd. cbn [bind].
  rewrite (disambiguate_single cfg st2 frame cur _ pres tb Hone Hov).
  do 2 eexists. split; [reflexivity |]. split.
  - intro d. rewrite filter_In, below_regionb_spec. reflexivity.
  - intros d r Hr Heq. split.
    + rewrite filter_In, below_regionb_spec.
      intros (_ & r' & Hr' & Hlt). rewrite Hr in Hr'. inversion Hr'; subst. lra.
    + unfold in_regionb, CONTAINMENT_THRESHOLD. rewrite Hr.
      apply Qltb_ge. lra.
Qed.

Lemma count_in_region_zero (tb : BBox) (dets : list Det) :
  count_in_region tb dets = 0%nat -> filter (in_regionb tb) dets = [].
Proof.
  unfold count_in_region. intro H. now apply length_zero_iff_nil.
Qed.

(** One frame on which the target is lost: the counter goes up by one, and
    the tracker is discarded when that reaches the maximum. *)
Lemma lost_frame_step (cfg : Config) (st : TrackState) (frame : Frame) :
  disable_tracker_reset cfg = false ->
  lost_frame cfg st frame ->
  exists (st' : TrackState) (cur : Frame),
    frame_step cfg st frame = Ok (st', centerface frame (threshold cfg), cur) /\
    (max_frames_without_faces cfg <= frames_without_faces st + 1 ->
     searching_reset st') /\
    (frames_without_faces st + 1 < max_frames_without_faces cfg ->
     frames_without_faces st' = frames_without_faces st + 1 /\
     face_tracker st' <> None).
Proof.
  intros Hd (trk & trk' & pv & tb & cur & Ht & Hf & Hp & Hu & Hz & Hov & Hr).
  unfold frame_step, acquire. rewrite Hf, Ht. simpl.
  unfold track_update, read_prev_bbox. rewrite Ht, Hp. simpl. rewrite Hu. simpl.
  unfold disambiguate.
  destruct (containments_ok tb (centerface frame (threshold cfg))) as [rs ->].
  simpl. rewrite dets_in_tracked_eq. simpl.
  rewrite (count_in_region_zero _ _ Hz). rewrite Hov. simpl.
  unfold zero_face_branch, read_prev_bbox. simpl. rewrite Hp. simpl.
  rewrite Hr. simpl.
  do 2 eexists. split; [reflexivity |].
  unfold reset_policy, searching_reset. rewrite Hd. simpl.
  destruct (max_frames_without_faces cfg <=? frames_without_faces st + 1) eqn:E.
  - apply Z.leb_le in E. simpl. split; [auto | lia].
  - apply Z.leb_gt in E. simpl. split; [lia |].
    intros _. split; [reflexivity | discriminate].
Qed.

Lemma lost_run_counts (cfg : Config) (frames : list Frame) :
  disable_tracker_reset cfg = false ->
  forall st : TrackState,
    face_tracker st <> None ->
    lost_run cfg st frames ->
    (frames_without_faces st + Z.of_nat (length frames)
     < max_frames_without_faces cfg ->
     exists st' : TrackState,
       track_run cfg st frames = Ok st' /\
       frames_without_faces st'
       = frames_without_faces st + Z.of_nat (length frames) /\
       face_tracker st' <> None) /\
    (frames <> [] ->
     frames_without_faces st + Z.of_nat (length frames)
     = max_frames_without_faces cfg ->
     exists st' : TrackState,
       track_run cfg st frames = Ok st' /\ searching_reset st').
Proof.
  intro Hd. induction frames as [| f fs IH]; intros st Ht Hrun.
  - split.
    + intros _. exists st. simpl. repeat split; auto; lia.
    + intro H. contradiction.
  - destruct Hrun as [Hlost Hrest].
    destruct (lost_frame_step cfg st f Hd Hlost) as (st1 & cur & Hstep & Hreset & Hcount).
    specialize (Hrest st1 _ cur Hstep).
    cbn [track_run length]. rewrite Hstep. cbn [bind].
    rewrite Nat2Z.inj_succ. split.
    + intro Hlt.
      destruct (Hcount ltac:(lia)) as [Hc1 Ht1].
      destruct (IH st1 Ht1 Hrest) as [IH1 _].
      destruct (IH1 ltac:(lia)) as (st' & Hr & Hc & Ht').
      exists st'. repeat split; auto. lia.
    + intros _ Heq.
      destruct fs as [| f2 fs2].
      * simpl in *. exists st1. split; [reflexivity |]. apply Hreset. lia.
      * destruct (Hcount ltac:(simpl in Heq; lia)) as [Hc1 Ht1].
        destruct (IH st1 Ht1 Hrest) as [_ IH2].
        apply IH2; [discriminate | lia].
Qed.

(** X19.  With auto-reset enabled, from a state that holds a tracker with
    the counter at 0, over consecutive frames on which the target is lost
    (the tracker keeps a box, no detection is in region, the debugging
    overlay, if any, is drawn and the recovery finds nothing): after fewer
    such frames than the maximum the counter equals their number and the
    tracker is still held; after exactly as many as the maximum (at least
    one) the tracker is discarded, the target unmarked and the counter back
    at 0. *)
Theorem consecutive_lost_frames_reset_the_tracker
    (cfg : Config) (st : TrackState) (frames : list Frame) :
  disable_tracker_reset cfg = false ->
  face_tracker st <> None ->
  frames_without_faces st = 0 ->
  lost_run cfg st frames ->
  (Z.of_nat (length frames) < max_frames_without_faces cfg ->
   exists st' : TrackState,
     track_run cfg st frames = Ok st' /\
     frames_without_faces st' = Z.of_nat (length frames) /\
     face_tracker st' <> None) /\
  (frames <> [] ->
   Z.of_nat (length frames) = max_frames_without_faces cfg ->
   exists st' : TrackState,
     track_run cfg st frames = Ok st' /\
     face_tracker st' = None /\ target_person_found st' = false /\
     frames_without_faces st' = 0).
Proof.
  intros Hd Ht Hc Hrun.
  destruct (lost_run_counts cfg frames Hd st Ht Hrun) as [H1 H2].
  rewrite Hc in H1, H2. simpl in H1, H2. split.
  - intro Hlt. apply H1, Hlt.
  - intros Hne Heq. apply (H2 Hne Heq).
Qed.

End BranchFacts.

Lemma single_face_frame_anonymizes_exactly_the_low_ratios_witness :
  exists (st' : @TrackState demo_collaborators) (anon : list Det),
    @frame_step demo_imaging demo_collaborators (demo_config 30 "solid")
      initial_state (demo_frame 1) = Ok (st', anon, demo_frame 1) /\
    (forall d : Det,
       In d anon <->
       In d [face_a] /\
       exists r : Q, containment home_box d = Ok r /\ (r < 1 # 2)%Q) /\
    (forall (d : Det) (r : Q),
       containment home_box d = Ok r -> (r == 1 # 2)%Q ->
       ~ In d anon /\ in_regionb home_box d = false).
Proof.
  apply (@single_face_frame_anonymizes_exactly_the_low_ratios demo_imaging
           demo_collaborators (demo_config 30 "solid") initial_state
           demo_acquired_state demo_acquired_state
           (demo_frame 1) (Some [person_a]) home_box);
    reflexivity.
Defined.

Lemma demo_lost_frame (st : @TrackState demo_collaborators) :
  face_tracker st = Some tt -> target_person_found st = true ->
  prev_bbox st = Some home_box ->
  @lost_frame demo_imaging demo_collaborators (demo_config 2 "solid") st
    (demo_frame 5).
Proof.
  intros Ht Hf Hp. exists tt, tt, home_box, home_box, (demo_frame 5).
  repeat split; auto.
Defined.

Lemma consecutive_lost_frames_reset_the_tracker_witness :
  exists st' : @TrackState demo_collaborators,
    @track_run demo_imaging demo_collaborators (demo_config 2 "solid")
      demo_tracking_state [demo_frame 5; demo_frame 5] = Ok st' /\
    face_tracker st' = None /\ target_person_found st' = false /\
    frames_without_faces st' = 0.
Proof.
  apply (@consecutive_lost_frames_reset_the_tracker demo_imaging
           demo_collaborators (demo_config 2 "solid") demo_tracking_state
           [demo_frame 5; demo_frame 5]).
  - reflexivity.
  - discriminate.
  - reflexivity.
  - split; [apply demo_lost_frame; reflexivity |].
    intros st' anon cur H.
    assert (E : @frame_step demo_imaging demo_collaborators
                  (demo_config 2 "solid") demo_tracking_state (demo_frame 5)
                = Ok (@mkTrackState demo_collaborators (Some tt) 1 true (Some tt)
                        (Some tt) (Some (9 # 10)) (Some home_box) [1; 0; 0],
                      [], demo_frame 5)) by reflexivity.
    pose proof (eq_trans (eq_sym E) H) as HE. inversion HE; subst.
    split; [apply demo_lost_frame; reflexivity |].
    intros st'' anon' cur' H'. exact I.
  - discriminate.
  - reflexivity.
Defined.

(** ** What a run leaves in the log *)

Section LogFacts.
Context {IM : Imaging} {CO : Collaborators}.

(** The loop only appends loop events, at most one written frame per
    iteration begun and at most one iteration per input frame; without an
    output path it writes nothing. *)
Lemma frame_loop_log (w : World) (cfg : Config) (opath : option string)
    (frames : list Frame) :
  forall (st : TrackState) (n : nat) (log : list Event),
  exists new : list Event,
    fst (frame_loop w cfg opath frames st n log) = log ++ new /\
    Forall loop_event new /\
    (length (written new) <= frames_begun new)%nat /\
    (frames_begun new <= length frames)%nat /\
    (opath = None -> written new = []).
Proof.
  induction frames as [| f frames IH]; intros st n log.
  - exists []. simpl. rewrite app_nil_r. repeat split; auto.
  - cbn [frame_loop]. unfold io_bind at 1. unfold emit at 1.
    unfold io_bind at 1. unfold io_lift at 1.
    destruct (process_frame cfg st f) as [[s o] | e].
    + unfold io_bind at 1.
      destruct opath as [op |].
      * unfold emit at 1.
        destruct (enable_preview cfg && quit_key (wait_key w n)).
        -- exists [EvFrame n; EvAppend o]. unfold io_ret. simpl.
           rewrite <- app_assoc. simpl.
           repeat split; auto; try lia; try discriminate.
           repeat constructor.
        -- destruct (IH s (S n) ((log ++ [EvFrame n]) ++ [EvAppend o]))
             as (new & Hnew & Hall & Hw & Hb & Hnone).
           exists (EvFrame n :: EvAppend o :: new). rewrite Hnew.
           rewrite <- !app_assoc. simpl.
           repeat split; auto; try lia; try discriminate.
           repeat constructor. exact Hall.
      * unfold io_ret at 1.
        destruct (enable_preview cfg && quit_key (wait_key w n)).
        -- exists [EvFrame n]. unfold io_ret. simpl.
           repeat split; auto; try lia. repeat constructor.
        -- destruct (IH s (S n) (log ++ [EvFrame n]))
             as (new & Hnew & Hall & Hw & Hb & Hnone).
           exists (EvFrame n :: new). rewrite Hnew.
           rewrite <- !app_assoc. simpl.
           repeat split; auto; try lia;
             try (intros _; apply Hnone; reflexivity).
           repeat constructor. exact Hall.
    + exists [EvFrame n]. simpl.
      repeat split; auto; try lia. repeat constructor.
Qed.

Lemma loop_events_no_close (new : list Event) :
  Forall loop_event new ->
  ~ In EvCloseReader new /\ ~ In EvCloseWriter new.
Proof.
  intro H. rewrite Forall_forall in H.
  split; intro Hin; apply H in Hin; exact Hin.
Qed.

(** X20.  When [video_detect] raises, the reader had been opened and neither
    the reader nor the writer is closed: nothing on the exceptional paths
    releases them. *)
Theorem video_detect_raising_closes_nothing (w : World) (cfg : Config)
    (ipath : string) (opath : option string) (log log' : list Event) (e : exn) :
  video_detect w cfg ipath opath log = (log', Raise e) ->
  exists (reader : Reader) (meta : Meta) (new : list Event),
    open_reader w cfg ipath = Ok (reader, meta) /\
    log' = log ++ EvOpenReader ipath :: new /\
    ~ In EvCloseReader new /\ ~ In EvCloseWriter new.
Proof.
  unfold video_detect. unfold io_bind at 1. unfold emit at 1.
  destruct (open_reader w cfg ipath) as [[reader meta] | e0];
    [| unfold io_ret; discriminate].
  unfold io_bind at 1.
  assert (Hloop : forall l l',
            (io_bind (frame_loop w cfg opath (iter_data reader) initial_state 0)
               (fun _ => io_bind (emit EvCloseReader)
                  (fun _ => match opath with
                            | Some _ => emit EvCloseWriter
                            | None => io_ret tt
                            end))) l = (l', Raise e) ->
            exists new, l' = l ++ new /\
                        ~ In EvCloseReader new /\ ~ In EvCloseWriter new).
  { intros l l'. unfold io_bind at 1.
    destruct (frame_loop_log w cfg opath (iter_data reader) initial_state 0%nat l)
      as (new & Hnew & Hall & _).
    destruct (frame_loop w cfg opath (iter_data reader) initial_state 0 l)
      as [l1 [[] | e1]]; simpl in Hnew.
    - unfold io_bind, emit. destruct opath; unfold emit, io_ret; discriminate.
    - intro H. inversion H; subst. exists new.
      split; [reflexivity | apply loop_events_no_close, Hall]. }
  destruct opath as [op |].
  - unfold io_bind at 1. unfold emit at 1. unfold io_lift at 1.
    destruct (get_writer w op) as [[] | e1].
    + intro H. apply Hloop in H as (new & -> & Hr & Hw).
      exists reader, meta, (EvOpenWriter op :: new).
      split; [reflexivity |]. rewrite <- !app_assoc. simpl.
      split; [reflexivity |].
      split; intros [Hd | Hin]; try discriminate; contradiction.
    + intro H. inversion H; subst.
      exists reader, meta, [EvOpenWriter op].
      split; [reflexivity |]. rewrite <- !app_assoc. simpl.
      split; [reflexivity |].
      split; intros [Hd | []]; discriminate.
  - unfold io_ret at 1. intro H. apply Hloop in H as (new & -> & Hr & Hw).
    exists reader, meta, new.
    split; [reflexivity |]. rewrite <- !app_assoc. simpl. auto.
Qed.

(** Whatever its outcome, [video_detect] only appends to the log; the
    attempt to open the reader is logged, and the counts of the loop hold. *)
Lemma video_detect_log (w : World) (cfg : Config)
    (ipath : string) (opath : option string) (log : list Event) :
  exists new : list Event,
    fst (video_detect w cfg ipath opath log) = log ++ new /\
    In (EvOpenReader ipath) new /\
    (length (written new) <= frames_begun new)%nat /\
    (forall reader meta,
       open_reader w cfg ipath = Ok (reader, meta) ->
       (frames_begun new <= length (iter_data reader))%nat) /\
    (forall e, open_reader w cfg ipath = Raise e -> frames_begun new = 0%nat) /\
    (opath = None -> written new = []).
Proof.
  unfold video_detect. unfold io_bind at 1. unfold emit at 1.
  destruct (open_reader w cfg ipath) as [[reader meta] | e0].
  2: { exists [EvOpenReader ipath]. unfold io_ret. simpl.
       repeat split; auto; try lia; discriminate. }
  unfold io_bind at 1.
  assert (Hloop : forall l,
            exists new,
              fst ((io_bind
                      (frame_loop w cfg opath (iter_data reader) initial_state 0)
                      (fun _ => io_bind (emit EvCloseReader)
                         (fun _ => match opath with
                                   | Some _ => emit EvCloseWriter
                                   | None => io_ret tt
                                   end))) l) = l ++ new /\
              (length (written new) <= frames_begun new)%nat /\
              (frames_begun new <= length (iter_data reader))%nat /\
              (opath = None -> written new = [])).
  { intro l. unfold io_bind at 1.
    destruct (frame_loop_log w cfg opath (iter_data reader) initial_state 0%nat l)
      as (new & Hnew & _ & Hw & Hb & Hnone).
    destruct (frame_loop w cfg opath (iter_data reader) initial_state 0 l)
      as [l1 [[] | e1]]; simpl in Hnew; subst l1.
    - unfold io_bind, emit.
      destruct opath as [op |]; unfold emit, io_ret; simpl.
      + exists (new ++ [EvCloseReader; EvCloseWriter]).
        rewrite <- !app_assoc, written_app, frames_begun_app. simpl.
        rewrite app_nil_r, Nat.add_0_r.
        repeat split; auto; discriminate.
      + exists (new ++ [EvCloseReader]).
        rewrite <- !app_assoc, written_app, frames_begun_app. simpl.
        rewrite app_nil_r, Nat.add_0_r.
        repeat split; auto.
    - exists new. simpl. auto. }
  assert (Hrd : forall r m,
            Ok (reader, meta) = Ok (r, m) -> iter_data r = iter_data reader).
  { intros r m H. inversion H. reflexivity. }
  destruct opath as [op |].
  - unfold io_bind at 1. unfold emit at 1. unfold io_lift at 1.
    destruct (get_writer w op) as [[] | e1].
    + destruct (Hloop ((log ++ [EvOpenReader ipath]) ++ [EvOpenWriter op]))
        as (new & Hnew & Hw & Hb & Hnone).
      exists (EvOpenReader ipath :: EvOpenWriter op :: new).
      rewrite Hnew, <- !app_assoc. simpl.
      repeat split; auto; try discriminate.
      intros r m H. rewrite (Hrd r m H). exact Hb.
    + exists [EvOpenReader ipath; EvOpenWriter op]. simpl.
      rewrite <- !app_assoc. simpl.
      repeat split; auto; try lia; discriminate.
  - unfold io_ret at 1.
    destruct (Hloop (log ++ [EvOpenReader ipath])) as (new & Hnew & Hw & Hb & Hnone).
    exists (EvOpenReader ipath :: new).
    rewrite Hnew, <- !app_assoc. simpl.
    repeat split; auto; try discriminate.
    intros r m H. rewrite (Hrd r m H). exact Hb.
Qed.


(** X21.  Whatever the outcome of [video_detect], it only appends to the
    log, it writes at most one frame per iteration begun, it begins at most
    one iteration per frame of the container and none when the container
    cannot be opened, and it writes no frame without an output path. *)
Theorem video_detect_never_writes_more_than_it_reads (w : World) (cfg : Config)
    (ipath : string) (opath : option string) (log : list Event) :
  exists new : list Event,
    fst (video_detect w cfg ipath opath log) = log ++ new /\
    In (EvOpenReader ipath) new /\
    (length (written new) <= frames_begun new)%nat /\
    (forall reader meta,
       open_reader w cfg ipath = Ok (reader, meta) ->
       (frames_begun new <= length (iter_data reader))%nat) /\
    (forall e, open_reader w cfg ipath = Raise e -> frames_begun new = 0%nat) /\
    (opath = None -> written new = []).
Proof. apply video_detect_log. Qed.

End LogFacts.

Lemma video_detect_raising_closes_nothing_witness :
  exists (reader : Reader) (meta : Meta) (new : list Event),
    @open_reader demo_imaging demo_collaborators readonly_world
      (demo_config 30 "solid") "clip.mp4" = Ok (reader, meta) /\
    [EvOpenReader "clip.mp4"; EvOpenWriter "out.mp4"]
    = [] ++ EvOpenReader "clip.mp4" :: new /\
    ~ In EvCloseReader new /\ ~ In EvCloseWriter new.
Proof.
  apply (@video_detect_raising_closes_nothing demo_imaging demo_collaborators
           readonly_world (demo_config 30 "solid") "clip.mp4"
           (Some "out.mp4"%string) [] _ OSError).
  reflexivity.
Defined.

(** ** The entry point and the batch driver *)

Section EntryFacts.
Context {IM : Imaging} {CO : Collaborators}.

(** The entry point is its first half followed by the run of
    [video_detect] and the construction of the result. *)
Lemma process_video_split (w : World)
    (video_path target_person_dir output_path : string) (o : Options)
    (log : list Event) :
  process_video_with_selective_blurring w video_path target_person_dir
    output_path o log
  = io_bind (prepare_target w video_path target_person_dir o)
      (fun embs =>
         io_bind (video_detect w (entry_config o embs) video_path
                    (Some output_path))
           (fun result =>
              io_ret (mkProcessResult true video_path output_path
                        (Z.of_nat (length embs)) result))) log.
Proof.
  unfold process_video_with_selective_blurring, prepare_target.
  destruct (path_exists w video_path); simpl; [| reflexivity].
  destruct (path_exists w target_person_dir); simpl; [| reflexivity].
  unfold io_bind, emit, io_lift, io_raise, io_ret. cbv beta.
  destruct (create_model w "yolo11x.pt"); [| reflexivity].
  destruct (create_model w "osnet_x1_0"); [| reflexivity].
  destruct (create_model w "centerface"); [| reflexivity].
  destruct (listdir w target_person_dir) as [names | e]; [| reflexivity].
  destruct (filter is_image_file names) as [| f fs]; [reflexivity |].
  destruct (load_target_embeddings w target_person_dir (opt_debugging o)
              (f :: fs) [] _) as [l [[| e es] | ex]]; reflexivity.
Qed.

Lemma open_reader_raises (w : World) (cfg : Config) (ipath : string) (e : exn) :
  (forall window, get_reader w ipath window = Raise e) ->
  open_reader w cfg ipath = Raise e.
Proof.
  intro H. unfold open_reader.
  destruct (debug_start cfg); rewrite H; reflexivity.
Qed.

(** What a successful first half guarantees. *)
Lemma prepare_target_ok (w : World) (video_path target_person_dir : string)
    (o : Options) (log log1 : list Event) (embs : list Embedding) :
  prepare_target w video_path target_person_dir o log = (log1, Ok embs) ->
  embs <> [] /\
  path_exists w video_path = true /\ path_exists w target_person_dir = true.
Proof.
  unfold prepare_target.
  destruct (path_exists w video_path); simpl; [| discriminate].
  destruct (path_exists w target_person_dir); simpl; [| discriminate].
  unfold io_bind, emit, io_lift, io_raise, io_ret. cbv beta.
  destruct (create_model w "yolo11x.pt"); [| discriminate].
  destruct (create_model w "osnet_x1_0"); [| discriminate].
  destruct (create_model w "centerface"); [| discriminate].
  destruct (listdir w target_person_dir) as [names | e]; [| discriminate].
  destruct (filter is_image_file names) as [| f fs]; [discriminate |].
  destruct (load_target_embeddings w target_person_dir (opt_debugging o)
              (f :: fs) [] _) as [l [[| e es] | ex]]; try discriminate.
  intro H. inversion H; subst. repeat split; auto. discriminate.
Qed.

(** X22.  Once the inputs are validated and the target embeddings are
    extracted, a container that the video library cannot open makes the
    entry point return normally, with [success] set, after logging nothing
    but the attempt to open it. *)
Theorem unopened_container_yields_a_success_result (w : World)
    (video_path target_person_dir output_path : string) (o : Options)
    (log log1 : list Event) (embs : list Embedding) (e : exn) :
  prepare_target w video_path target_person_dir o log = (log1, Ok embs) ->
  (forall window, get_reader w video_path window = Raise e) ->
  process_video_with_selective_blurring w video_path target_person_dir
    output_path o log
  = (log1 ++ [EvOpenReader video_path],
     Ok (mkProcessResult true video_path output_path
           (Z.of_nat (length embs)) tt)).
Proof.
  intros Hprep Hrd. rewrite process_video_split.
  unfold io_bind at 1. rewrite Hprep.
  unfold io_bind at 1.
  rewrite (video_detect_unreadable w _ video_path _ e log1
             (open_reader_raises w _ video_path e Hrd)).
  reflexivity.
Qed.

(** X23.  A writer that cannot be created is surfaced: the entry point
    raises the exception of the video library, before any frame is
    processed. *)
Theorem writer_failure_is_raised (w : World)
    (video_path target_person_dir output_path : string) (o : Options)
    (log log1 : list Event) (embs : list Embedding)
    (reader : Reader) (meta : Meta) (e : exn) :
  prepare_target w video_path target_person_dir o log = (log1, Ok embs) ->
  open_reader w (entry_config o embs) video_path = Ok (reader, meta) ->
  get_writer w output_path = Raise e ->
  process_video_with_selective_blurring w video_path target_person_dir
    output_path o log
  = (log1 ++ [EvOpenReader video_path; EvOpenWriter output_path], Raise e).
Proof.
  intros Hprep Hrd Hwr. rewrite process_video_split.
  unfold io_bind at 1. rewrite Hprep.
  unfold io_bind at 1. unfold video_detect.
  unfold io_bind at 1. unfold emit at 1. rewrite Hrd.
  unfold io_bind at 1. unfold io_bind at 1. unfold emit at 1.
  unfold io_lift. rewrite Hwr. rewrite <- app_assoc. reflexivity.
Qed.

(** X24.  Whenever the entry point returns, the result says [success], names
    the two paths it was given and counts at least one target embedding;
    both input paths existed. *)
Theorem returned_result_has_target_embeddings (w : World)
    (video_path target_person_dir output_path : string) (o : Options)
    (log log' : list Event) (res : ProcessResult) :
  process_video_with_selective_blurring w video_path target_person_dir
    output_path o log = (log', Ok res) ->
  success res = true /\
  input_video res = video_path /\ output_video res = output_path /\
  1 <= target_embeddings_count res /\
  path_exists w video_path = true /\ path_exists w target_person_dir = true.
Proof.
  rewrite process_video_split. unfold io_bind at 1.
  destruct (prepare_target w video_path target_person_dir o log)
    as [log1 [embs | e]] eqn:Hprep; [| discriminate].
  destruct (prepare_target_ok _ _ _ _ _ _ _ Hprep) as (Hne & Hv & Hd).
  unfold io_bind at 1.
  destruct (video_detect w (entry_config o embs) video_path (Some output_path) log1)
    as [log2 [[] | e]]; [| discriminate].
  unfold io_ret. intro H. inversion H; subst. simpl.
  repeat split; auto.
  destruct embs; [contradiction | simpl; lia].
Qed.

Lemma batch_item_log (w : World) (env : BatchEnv) (args : Args)
    (replaceimg : option ReplaceImg) (folder : string) (log : list Event) :
  exists new : list Event,
    fst (batch_item w env args replaceimg folder log) = log ++ new.
Proof.
  unfold batch_item.
  destruct (path_exists w (batch_video_path args folder)); simpl;
    [| exists []; unfold io_ret; simpl; now rewrite app_nil_r].
  destruct (path_exists w (batch_target_dir args folder)); simpl;
    [| exists []; unfold io_ret; simpl; now rewrite app_nil_r].
  unfold io_bind, io_lift.
  destruct (embeddings_of_path env _ _) as [[| e es] | ex].
  - exists []. unfold io_ret. simpl. now rewrite app_nil_r.
  - destruct (video_detect_log w (batch_config args replaceimg (e :: es))
                (batch_video_path args folder)
                (Some (batch_output_path args folder)) log) as (new & Hnew & _).
    exists new. exact Hnew.
  - exists []. simpl. now rewrite app_nil_r.
Qed.

Lemma batch_item_attempts (w : World) (env : BatchEnv) (args : Args)
    (replaceimg : option ReplaceImg) (folder : string) (log : list Event)
    (e : Embedding) (es : list Embedding) :
  path_exists w (batch_video_path args folder) = true ->
  path_exists w (batch_target_dir args folder) = true ->
  embeddings_of_path env (batch_target_dir args folder) (arg_debugging args)
  = Ok (e :: es) ->
  exists new : list Event,
    fst (batch_item w env args replaceimg folder log) = log ++ new /\
    In (EvOpenReader (batch_video_path args folder)) new.
Proof.
  intros Hv Hd He. unfold batch_item. rewrite Hv, Hd. simpl.
  unfold io_bind, io_lift. rewrite He.
  destruct (video_detect_log w (batch_config args replaceimg (e :: es))
              (batch_video_path args folder)
              (Some (batch_output_path args folder)) log) as (new & Hnew & Hin & _).
  exists new. auto.
Qed.

Lemma io_catch_log (c : IO unit) (log : list Event) :
  io_catch c log = (fst (c log), Ok tt).
Proof.
  unfold io_catch. destruct (c log) as [l [[] | e]]; reflexivity.
Qed.

(** The batch loop never raises and only appends to the log. *)
Lemma batch_loop_log (w : World) (env : BatchEnv) (args : Args)
    (replaceimg : option ReplaceImg) (folders : list string) :
  forall log : list Event,
  exists new : list Event,
    batch_loop w env args replaceimg folders log = (log ++ new, Ok tt).
Proof.
  induction folders as [| f folders IH]; intro log.
  - exists []. simpl. unfold io_ret. now rewrite app_nil_r.
  - cbn [batch_loop]. unfold io_bind. rewrite io_catch_log.
    destruct (batch_item_log w env args replaceimg f log) as (n1 & ->).
    destruct (IH (log ++ n1)) as (n2 & ->).
    exists (n1 ++ n2). now rewrite app_assoc.
Qed.

Lemma batch_loop_attempts (w : World) (env : BatchEnv) (args : Args)
    (replaceimg : option ReplaceImg) (folders : list string) (folder : string)
    (e : Embedding) (es : list Embedding) :
  In folder folders ->
  path_exists w (batch_video_path args folder) = true ->
  path_exists w (batch_target_dir args folder) = true ->
  embeddings_of_path env (batch_target_dir args folder) (arg_debugging args)
  = Ok (e :: es) ->
  forall log : list Event,
  exists new : list Event,
    batch_loop w env args replaceimg folders log = (log ++ new, Ok tt) /\
    In (EvOpenReader (batch_video_path args folder)) new.
Proof.
  intros Hin Hv Hd He.
  induction folders as [| f folders IH]; intro log; [contradiction |].
  cbn [batch_loop]. unfold io_bind. rewrite io_catch_log.
  destruct Hin as [-> | Hin].
  - destruct (batch_item_attempts w env args replaceimg folder log e es Hv Hd He)
      as (n1 & -> & Hn1).
    destruct (batch_loop_log w env args replaceimg folders (log ++ n1)) as (n2 & ->).
    exists (n1 ++ n2). rewrite app_assoc. split; [reflexivity |].
    apply in_or_app. now left.
  - destruct (batch_item_log w env args replaceimg f log) as (n1 & ->).
    destruct (IH Hin (log ++ n1)) as (n2 & -> & Hn2).
    exists (n1 ++ n2). rewrite app_assoc. split; [reflexivity |].
    apply in_or_app. now right.
Qed.

(** X25.  In batch mode a failure in one video folder does not stop the
    others: when the models load and the input directory can be listed,
    [main] returns normally, and for every sub-directory that holds the
    video file, the target directory and at least one target embedding the
    video is opened, whatever happened in the folders before it. *)
Theorem batch_continues_after_failures (w : World) (env : BatchEnv)
    (args : Args) (names : list string) (folder : string)
    (e : Embedding) (es : list Embedding) (log : list Event) :
  arg_scale args = None ->
  String.eqb (arg_replacewith args) "img" = false ->
  (forall name, create_model w name = Ok tt) ->
  isdir env (arg_input_dir args) = true ->
  listdir w (arg_input_dir args) = Ok names ->
  In folder names ->
  isdir env (path_join (arg_input_dir args) folder) = true ->
  path_exists w (batch_video_path args folder) = true ->
  path_exists w (batch_target_dir args folder) = true ->
  embeddings_of_path env (batch_target_dir args folder) (arg_debugging args)
  = Ok (e :: es) ->
  exists new : list Event,
    main w env args log = (log ++ new, Ok tt) /\
    In (EvOpenReader (batch_video_path args folder)) new.
Proof.
  intros Hscale Himg Hm Hdir Hls Hin Hsub Hv Hd He.
  unfold main. rewrite Hscale, Himg. simpl.
  unfold io_bind at 1. unfold io_lift at 1.
  unfold io_bind at 1. unfold io_ret at 1.
  unfold io_bind at 1. unfold emit at 1.
  unfold io_bind at 1. unfold io_lift at 1. rewrite Hm.
  unfold io_bind at 1. unfold emit at 1.
  unfold io_bind at 1. unfold io_lift at 1. rewrite Hm.
  unfold io_bind at 1. unfold emit at 1.
  unfold io_bind at 1. unfold io_lift at 1. rewrite Hm.
  rewrite Hdir. simpl.
  unfold io_bind at 1. unfold io_lift at 1. rewrite Hls.
  assert (Hf : In folder (filter (fun f => isdir env (path_join (arg_input_dir args) f))
                                 names)).
  { apply filter_In. auto. }
  destruct (filter (fun f => isdir env (path_join (arg_input_dir args) f)) names)
    as [| f0 fs] eqn:Ef; [contradiction |].
  match goal with
  | |- context [batch_loop w env args None (f0 :: fs) ?l] =>
      destruct (batch_loop_attempts w env args None (f0 :: fs) folder e es
                  Hf Hv Hd He l) as (new & -> & Hnew)
  end.
  eexists. rewrite <- !app_assoc. split; [reflexivity |].
  simpl. right. right. right. exact Hnew.
Qed.

End EntryFacts.

Lemma unopened_container_yields_a_success_result_witness :
  @process_video_with_selective_blurring demo_imaging demo_collaborators
    demo_world "corrupt.mp4" "target" "out.mp4" default_options []
  = ([EvCreateModel "yolo11x.pt"; EvCreateModel "osnet_x1_0";
      EvCreateModel "centerface"; EvImread "target/a.JPG";
      EvImread "target/b.png"] ++ [EvOpenReader "corrupt.mp4"],
     Ok (mkProcessResult true "corrupt.mp4" "out.mp4"
           (Z.of_nat (length [tt])) tt)).
Proof.
  apply (@unopened_container_yields_a_success_result demo_imaging
           demo_collaborators demo_world "corrupt.mp4" "target" "out.mp4"
           default_options [] _ [tt] OSError).
  - reflexivity.
  - intro window. reflexivity.
Defined.

Lemma writer_failure_is_raised_witness :
  @process_video_with_selective_blurring demo_imaging demo_collaborators
    readonly_world "clip.mp4" "target" "out.mp4" default_options []
  = ([EvCreateModel "yolo11x.pt"; EvCreateModel "osnet_x1_0";
      EvCreateModel "centerface"; EvImread "target/a.JPG";
      EvImread "target/b.png"]
     ++ [EvOpenReader "clip.mp4"; EvOpenWriter "out.mp4"],
     Raise OSError).
Proof.
  apply (@writer_failure_is_raised demo_imaging demo_collaborators
           readonly_world "clip.mp4" "target" "out.mp4" default_options
           [] _ [tt] demo_reader (mkMeta (Some (3, 2)) 25 None) OSError).
  - reflexivity.
  - reflexivity.
  - reflexivity.
Defined.

Lemma returned_result_has_target_embeddings_witness :
  success (mkProcessResult true "clip.mp4" "out.mp4" 1 tt) = true /\
  input_video (mkProcessResult true "clip.mp4" "out.mp4" 1 tt) = "clip.mp4"%string /\
  output_video (mkProcessResult true "clip.mp4" "out.mp4" 1 tt) = "out.mp4"%string /\
  1 <= target_embeddings_count (mkProcessResult true "clip.mp4" "out.mp4" 1 tt) /\
  path_exists demo_world "clip.mp4" = true /\
  path_exists demo_world "target" = true.
Proof.
  apply (@returned_result_has_target_embeddings demo_imaging demo_collaborators
           demo_world "clip.mp4" "target" "out.mp4" default_options []
           (fst (@process_video_with_selective_blurring demo_imaging
                   demo_collaborators demo_world "clip.mp4" "target" "out.mp4"
                   default_options []))).
  vm_compute. reflexivity.
Defined.

Lemma batch_continues_after_failures_witness :
  exists new : list Event,
    @main demo_imaging demo_collaborators batch_world batch_env batch_args []
    = ([] ++ new, Ok tt) /\
    In (EvOpenReader (batch_video_path batch_args "b")) new.
Proof.
  apply (@batch_continues_after_failures demo_imaging demo_collaborators
           batch_world batch_env batch_args ["a"; "notes.txt"; "b"]%string
           "b" tt []);
    try reflexivity.
  simpl. tauto.
Defined.

(** In the batch directory the first folder fails on its writer, the stray
    file is skipped, and the second folder is processed to its end. *)
Example batch_run_on_two_folders :
  written (fst (@main demo_imaging demo_collaborators batch_world batch_env
                  batch_args []))
  = [demo_frame 1; demo_frame 2; demo_frame 3; demo_frame 5] /\
  snd (@main demo_imaging demo_collaborators batch_world batch_env
         batch_args []) = Ok tt /\
  In (EvOpenWriter "videos/a/anonymized_video.mp4")
     (fst (@main demo_imaging demo_collaborators batch_world batch_env
             batch_args [])) /\
  In (EvOpenWriter "videos/b/anonymized_video.mp4")
     (fst (@main demo_imaging demo_collaborators batch_world batch_env
             batch_args [])).
Proof.
  vm_compute. repeat split; auto 20.
Qed.

(** ** Runs in the solid mode *)

Section SolidRuns.
Context {IM : Imaging} {CO : Collaborators}.

(** The detections of a frame whose clipped boxes all fit C [int]s. *)
Lemma process_frame_solid_total (cfg : Config) (st : TrackState) (frame : Frame) :
  replacewith cfg = "solid"%string -> draw_scores cfg = false ->
  debugging cfg = false ->
  forallb (box_fits (frame_height frame) (frame_width frame) (mask_scale cfg))
    (centerface frame (threshold cfg)) = true ->
  tracker_bound st ->
  exists (st' : TrackState) (out : Frame),
    process_frame cfg st frame = Ok (st', out) /\ tracker_bound st'.
Proof.
  intros Hmode Hscores Hdbg Hfit Hb. unfold process_frame.
  destruct (frame_step_total cfg st frame Hdbg Hb) as (st' & anon & Hstep & Hb').
  rewrite Hstep. cbn [bind].
  rewrite Hmode, Hscores, anonymize_frame_solid_fills.
  assert (Hanon : forallb (box_fits (frame_height frame) (frame_width frame)
                             (mask_scale cfg)) anon = true).
  { apply forallb_forall. intros d Hd.
    rewrite forallb_forall in Hfit. apply Hfit.
    apply (frame_step_incl cfg st st' frame frame anon Hstep d Hd). }
  rewrite Hanon. cbn [bind]. eauto.
Qed.

Lemma frame_loop_solid_completes (w : World) (cfg : Config) (op : string)
    (frames : list Frame) :
  replacewith cfg = "solid"%string -> draw_scores cfg = false ->
  debugging cfg = false ->
  (forall frame, In frame frames ->
     forallb (box_fits (frame_height frame) (frame_width frame) (mask_scale cfg))
       (centerface frame (threshold cfg)) = true) ->
  (enable_preview cfg = false \/ forall k, quit_key (wait_key w k) = false) ->
  forall (st : TrackState) (n : nat) (log : list Event),
    tracker_bound st ->
    exists new : list Event,
      frame_loop w cfg (Some op) frames st n log = (log ++ new, Ok tt) /\
      length (written new) = length frames /\
      frames_begun new = length frames.
Proof.
  intros Hmode Hscores Hdbg Hfit Hq.
  induction frames as [| f frames IH]; intros st n log Hb; simpl.
  - exists []. rewrite app_nil_r. auto.
  - unfold io_bind, emit, io_lift.
    destruct (process_frame_solid_total cfg st f Hmode Hscores Hdbg
                (Hfit f (or_introl eq_refl)) Hb)
      as (st' & out & -> & Hb').
    assert (Hgo : enable_preview cfg && quit_key (wait_key w n) = false).
    { destruct Hq as [-> | Hk]; [reflexivity | rewrite Hk; apply andb_false_r]. }
    rewrite Hgo.
    destruct (IH (fun g Hg => Hfit g (or_intror Hg)) st' (S n)
                ((log ++ [EvFrame n]) ++ [EvAppend out]) Hb')
      as (new & -> & Hw & Hf).
    exists (EvFrame n :: EvAppend out :: new).
    split; [rewrite <- !app_assoc; reflexivity |].
    simpl. split; congruence.
Qed.

(** X28.  In the ['solid'] mode, without the score overlay and without
    [debugging], a video whose container and writer open, and on whose
    frames the face detector reports no box so far out that its clipped
    corners leave the C [int]s, is processed to the end whatever else the
    detector, the tracker and the matcher return: no frame makes
    [video_detect] raise, every input frame is begun and exactly one frame
    per input frame is appended, and the reader and then the writer are
    closed last. *)
Theorem solid_video_is_processed_to_the_end (w : World) (cfg : Config)
    (ipath opath : string) (reader : Reader) (meta : Meta) (log : list Event) :
  replacewith cfg = "solid"%string -> draw_scores cfg = false ->
  debugging cfg = false ->
  (forall frame, In frame (iter_data reader) ->
     forallb (box_fits (frame_height frame) (frame_width frame) (mask_scale cfg))
       (centerface frame (threshold cfg)) = true) ->
  (enable_preview cfg = false \/ forall k, quit_key (wait_key w k) = false) ->
  open_reader w cfg ipath = Ok (reader, meta) ->
  get_writer w opath = Ok tt ->
  exists new : list Event,
    video_detect w cfg ipath (Some opath) log
    = (log ++ new ++ [EvCloseReader; EvCloseWriter], Ok tt) /\
    length (written new) = length (iter_data reader) /\
    frames_begun new = length (iter_data reader).
Proof.
  intros Hmode Hscores Hdbg Hfit Hq Hopen Hwriter.
  unfold video_detect, io_bind, emit, io_lift. rewrite Hopen, Hwriter.
  assert (Hb : tracker_bound initial_state).
  { intro H. exfalso. apply H. reflexivity. }
  destruct (frame_loop_solid_completes w cfg opath (iter_data reader)
              Hmode Hscores Hdbg Hfit Hq initial_state 0%nat
              ((log ++ [EvOpenReader ipath]) ++ [EvOpenWriter opath]) Hb)
    as (new & -> & Hw & Hf).
  exists (EvOpenReader ipath :: EvOpenWriter opath :: new).
  split; [| simpl; auto].
  rewrite <- !app_assoc. reflexivity.
Qed.

End SolidRuns.

Lemma solid_video_is_processed_to_the_end_witness :
  exists new : list Event,
    @video_detect demo_imaging demo_collaborators demo_world
      (demo_config 30 "solid"%string) "clip.mp4"%string (Some "out.mp4"%string) []
    = ([] ++ new ++ [EvCloseReader; EvCloseWriter], Ok tt) /\
    length (written new) = length (iter_data demo_reader) /\
    frames_begun new = length (iter_data demo_reader).
Proof.
  apply (@solid_video_is_processed_to_the_end demo_imaging demo_collaborators
           demo_world (demo_config 30 "solid"%string) "clip.mp4"%string
           "out.mp4"%string demo_reader (mkMeta (Some (3, 2)) 25 None) []).
  - reflexivity.
  - reflexivity.
  - reflexivity.
  - intros frame Hin. simpl in Hin.
    destruct Hin as [<- | [<- | [<- | [<- | []]]]]; reflexivity.
  - left. reflexivity.
  - reflexivity.
  - reflexivity.
Defined.

(** ** The debugging overlay on small frames *)

Lemma paint_where_height (sel : Z -> Z -> bool) (c : Pixel) (f : Frame) :
  frame_height (paint_where sel c f) = frame_height f.
Proof.
  unfold frame_height, paint_where, mapi. now rewrite mapi_from_length.
Qed.

Lemma paint_where_width (sel : Z -> Z -> bool) (c : Pixel) (f : Frame) :
  frame_width (paint_where sel c f) = frame_width f.
Proof.
  unfold frame_width, paint_where, mapi.
  destruct f as [| row f]; simpl; [reflexivity |].
  now rewrite mapi_from_length.
Qed.

(** A block of more than one row and column goes only into a slice of its
    own shape. *)
Lemma np_set_block_shape (f g : Frame) (r0 r1 c0 c1 bh bw : Z)
    (block : Z -> Z -> Pixel) :
  1 < bh -> 1 < bw ->
  np_set_block f r0 r1 c0 c1 bh bw block = Ok g ->
  frame_height g = frame_height f /\ frame_width g = frame_width f /\
  np_slice_bound (frame_height f) r1 - np_slice_bound (frame_height f) r0 = bh /\
  np_slice_bound (frame_width f) c1 - np_slice_bound (frame_width f) c0 = bw.
Proof.
  intros Hbh Hbw. unfold np_set_block.
  match goal with
  | |- (if ?c then _ else _) = _ -> _ => destruct c eqn:E; [| discriminate]
  end.
  intro H. inversion H; subst; clear H.
  rewrite andb_true_iff, !orb_true_iff, !Z.eqb_eq in E.
  split; [| split].
  - unfold frame_height, mapi. now rewrite mapi_from_length.
  - unfold frame_width, mapi. destruct f as [| row f]; simpl; [reflexivity |].
    now rewrite mapi_from_length.
  - lia.
Qed.

Section OverlayFacts.
Context {IM : Imaging} {CO : Collaborators}.

Lemma cv2_rectangle_outline_shape (f g : Frame) (pt1 pt2 : Z * Z) (c : Pixel)
    (t : Z) :
  cv2_rectangle_outline f pt1 pt2 c t = Ok g ->
  frame_height g = frame_height f /\ frame_width g = frame_width f.
Proof.
  unfold cv2_rectangle_outline.
  destruct (point_fits pt1 && point_fits pt2); [| discriminate].
  intro H. inversion H; subst.
  now rewrite paint_where_height, paint_where_width.
Qed.

Lemma cv2_putText_shape (f g : Frame) (text : string) (org : Z * Z) (sc : Q)
    (c : Pixel) (t : Z) :
  cv2_putText f text org sc c t = Ok g ->
  frame_height g = frame_height f /\ frame_width g = frame_width f.
Proof.
  unfold cv2_putText. destruct (point_fits org); [| discriminate].
  intro H. inversion H; subst.
  now rewrite paint_where_height, paint_where_width.
Qed.

Lemma cv2_rectangle_filled_shape (f g : Frame) (pt1 pt2 : Z * Z) (c : Pixel) :
  cv2_rectangle_filled f pt1 pt2 c = Ok g ->
  frame_height g = frame_height f /\ frame_width g = frame_width f.
Proof.
  unfold cv2_rectangle_filled.
  destruct (point_fits pt1 && point_fits pt2); [| discriminate].
  intro H. inversion H; subst.
  now rewrite fill_span_height, fill_span_width.
Qed.

(** With a matched face and a matched person, an overlay that returns has
    pasted the two previews: the frame has at least 420 rows and 160
    columns. *)
Lemma add_debugging_overlay_large (frame out : Frame) (dets : list Det)
    (tb : BBox) (face person : Crop) (score : option Q) :
  add_debugging_overlay frame dets tb (Some face) (Some person) score = Ok out ->
  420 <= frame_height frame /\ 160 <= frame_width frame.
Proof.
  unfold add_debugging_overlay.
  destruct (cv2_rectangle_outline frame _ _ _ _) as [f1 |] eqn:E1;
    [cbn [bind] | discriminate].
  destruct (get_text_size _ (7 # 10) 2) as [tw th].
  destruct (cv2_rectangle_filled f1 _ _ _) as [f2 |] eqn:E2;
    [cbn [bind] | discriminate].
  destruct (cv2_putText f2 _ _ _ _ _) as [f3 |] eqn:E3;
    [cbn [bind] | discriminate].
  destruct (cv2_resize person _ _) as [pimg |]; [cbn [bind] | discriminate].
  destruct (cv2_resize face _ _) as [fimg |]; [cbn [bind] | discriminate].
  cbn [fst snd].
  destruct (np_set_block f3 _ _ _ _ _ _ pimg) as [f4 |] eqn:E4;
    [cbn [bind] | discriminate].
  destruct (np_set_block f4 _ _ _ _ _ _ fimg) as [f5 |] eqn:E5;
    [cbn [bind] | discriminate].
  intros _.
  apply cv2_rectangle_outline_shape in E1 as [Hh1 Hw1].
  apply cv2_rectangle_filled_shape in E2 as [Hh2 Hw2].
  apply cv2_putText_shape in E3 as [Hh3 Hw3].
  apply np_set_block_shape in E4 as (Hh4 & Hw4 & Hr4 & Hc4); [| lia | lia].
  apply np_set_block_shape in E5 as (_ & _ & Hr5 & Hc5); [| lia | lia].
  rewrite Hh4, Hh3, Hh2, Hh1 in Hr5.
  rewrite Hw3, Hw2, Hw1 in Hc4.
  unfold np_slice_bound in Hr5, Hc4.
  change (10 + 300 + 10 + 100 <? 0) with false in Hr5.
  change (10 + 300 + 10 <? 0) with false in Hr5.
  destruct (frame_width frame - 150 - 10 + 150 <? 0) eqn:Ea;
  destruct (frame_width frame - 150 - 10 <? 0) eqn:Eb;
  rewrite ?Z.ltb_lt, ?Z.ltb_ge in Ea, Eb; lia.
Qed.

(** X30.  With [debugging] set, on a frame processed while tracking with a
    matched face and a matched person at hand, the frame step raises on
    every frame of fewer than 420 rows or fewer than 160 columns: the
    overlay pastes a preview of 300 by 150 pixels and one of 100 by 100
    pixels at fixed offsets, and numpy refuses a block that does not fit the
    slice. *)
Theorem debugging_overlay_raises_on_small_frames (cfg : Config)
    (st st1 st2 : TrackState) (frame : Frame)
    (pres : option (list PersonDet)) (tb : BBox) (face person : Crop) :
  debugging cfg = true ->
  acquire cfg st frame (centerface frame (threshold cfg)) = Ok (st1, pres) ->
  track_update st1 frame (centerface frame (threshold cfg)) = Ok (st2, Some tb) ->
  matched_face st2 = Some face -> matched_person st2 = Some person ->
  frame_height frame < 420 \/ frame_width frame < 160 ->
  exists e : exn, frame_step cfg st frame = Raise e.
Proof.
  intros Hdbg Hacq Hupd Hface Hperson Hsmall.
  unfold frame_step. rewrite Hacq. cbn [bind]. rewrite Hupd. cbn [bind].
  destruct (overlay_frame cfg st2 frame
              (filter (in_regionb tb) (centerface frame (threshold cfg))) tb)
    as [out | e] eqn:Hov.
  - exfalso. unfold overlay_frame in Hov. rewrite Hdbg, Hface, Hperson in Hov.
    apply add_debugging_overlay_large in Hov. lia.
  - exists e. apply (disambiguate_overlay_raises cfg st2 frame _ pres tb e Hov).
Qed.

End OverlayFacts.

Lemma debugging_overlay_raises_on_small_frames_witness :
  exists e : exn,
    @frame_step demo_imaging demo_collaborators demo_debug_config
      demo_tracking_state (demo_frame 1) = Raise e.
Proof.
  apply (@debugging_overlay_raises_on_small_frames demo_imaging
           demo_collaborators demo_debug_config demo_tracking_state
           demo_tracking_state demo_tracking_state (demo_frame 1) None
           home_box tt tt).
  - reflexivity.
  - reflexivity.
  - reflexivity.
  - reflexivity.
  - reflexivity.
  - left. vm_compute. reflexivity.
Defined.

(** The overlay on the two by three frame of scene 1: the preview of the
    matched person does not fit, and numpy raises [ValueError]. *)
Example debugging_overlay_on_a_tiny_frame :
  @frame_step demo_imaging demo_collaborators demo_debug_config
    demo_tracking_state (demo_frame 1) = Raise ValueError.
Proof. reflexivity. Qed.
